(** * visual-globe: earthquake proxy and client filter engine

    A shallow embedding of the two components of the repository,

    - the client view engine of [src/components/CrisisGlobe.jsx]
      (magnitude colour and size, region tests, the filter pass, the
      reveal animation), and
    - the proxy handler of the Express server ([app.get('/earthquakes')]),

    together with the properties the specification states about them.

    JavaScript numbers are IEEE 754 binary64 values.  They are modelled by
    the standard library's [spec_float] at precision 53 and maximal exponent
    1024, with its executable comparison and multiplication, so that NaN,
    the two zeros, the infinities and rounding are the ones of the runtime. *)

From Stdlib Require Import ZArith Bool Ascii DecimalString Lia.
From Stdlib Require Import Floats.SpecFloat.
From stdpp Require Import base list strings relations.

Local Open Scope Z_scope.

(** ** JavaScript numbers *)

Module JSNumber.

Definition prec : Z := 53.
Definition emax : Z := 1024.

(** A [Number] is a binary64 value. *)
Definition Number : Type := spec_float.

Definition NaN : Number := S754_nan.
Definition pzero : Number := S754_zero false.

(** Numeric literals.  An integer literal below 2^53 is exact; a decimal
    literal [n/d] denotes the binary64 value nearest to it, which is what
    the correctly rounded quotient of the two exact integers gives. *)
Definition ofZ (z : Z) : Number := binary_normalize prec emax z 0 false.
Definition decimal (n d : Z) : Number := SFdiv prec emax (ofZ n) (ofZ d).

Definition isNaN (x : Number) : bool :=
  match x with S754_nan => true | _ => false end.

(** The relational operators [<], [>], [<=], [>=] on numbers: each is
    false as soon as one operand is NaN. *)
Definition lt (x y : Number) : bool := SFltb x y.
Definition gt (x y : Number) : bool := SFltb y x.
Definition le (x y : Number) : bool := SFleb x y.
Definition ge (x y : Number) : bool := SFleb y x.

Definition mul (x y : Number) : Number := SFmul prec emax x y.

(** [Math.max] of two numbers: NaN if either is NaN, and [+0] is larger
    than [-0]. *)
Definition Math_max (x y : Number) : Number :=
  match x, y with
  | S754_nan, _ | _, S754_nan => S754_nan
  | S754_zero sx, S754_zero sy => S754_zero (sx && sy)
  | _, _ => if lt x y then y else x
  end.

(** Well-formed binary64 values (canonical mantissa, exponent in range). *)
Definition valid (x : Number) : bool := valid_binary prec emax x.

End JSNumber.

Import JSNumber.

Declare Scope js_scope.
Delimit Scope js_scope with js.
Infix "<" := lt : js_scope.
Infix ">" := gt : js_scope.
Infix "<=" := le : js_scope.
Infix ">=" := ge : js_scope.
Infix "*" := mul : js_scope.

(** ** Strings *)

Module JSString.

(** [s.startsWith(p)]. *)
Fixpoint startsWith (s p : string) : bool :=
  match p, s with
  | EmptyString, _ => true
  | String a p', String b s' => (Ascii.eqb a b && startsWith s' p')%bool
  | String _ _, EmptyString => false
  end.

(** [s.includes(sub)]: [sub] occurs in [s] at some position. *)
Fixpoint includes (s sub : string) : bool :=
  (startsWith s sub ||
   match s with
   | EmptyString => false
   | String _ s' => includes s' sub
   end)%bool.

(** A string is truthy when it is not empty. *)
Definition truthy (s : string) : bool :=
  match s with EmptyString => false | String _ _ => true end.

End JSString.

Import JSString.

(** ** Time values *)

Module JSDate.

(** [ToIntegerOrInfinity] on a finite number: the integer part, towards
    zero.  [None] for NaN and the infinities. *)
Definition truncate (x : Number) : option Z :=
  match x with
  | S754_zero _ => Some 0
  | S754_finite s m e =>
      let a := if 0 <=? e then Z.pos m * 2 ^ e else Z.pos m / 2 ^ (- e) in
      Some (if s then - a else a)
  | S754_infinity _ | S754_nan => None
  end.

(** A time value is an integral number of milliseconds since the epoch, or
    NaN ([None]) for an invalid date.  [TimeClip] keeps the integer part and
    rejects what lies outside ±8.64e15 ms. *)
Definition TimeValue : Type := option Z.

Definition clip (z : Z) : TimeValue :=
  if Z.abs z <=? 8640000000000000 then Some z else None.

Definition TimeClip (x : Number) : TimeValue :=
  match truncate x with
  | Some z => clip z
  | None => None
  end.

(** A time value read back as a number ([valueOf]), which is what the
    relational operators compare two dates by. *)
Definition valueOf (t : TimeValue) : Number :=
  match t with
  | Some z => ofZ z
  | None => NaN
  end.

(** [new Date(t)] for a number [t], as the number it compares by. *)
Definition Date_ofNumber (t : Number) : Number := valueOf (TimeClip t).

(** *** Calendar arithmetic (ECMAScript, Time Values and Time Range) *)

Definition msPerDay : Z := 86400000.

Definition Day (t : Z) : Z := t / msPerDay.
Definition TimeWithinDay (t : Z) : Z := t mod msPerDay.

Definition DaysInYear (y : Z) : Z :=
  if negb (y mod 4 =? 0) then 365
  else if negb (y mod 100 =? 0) then 366
  else if negb (y mod 400 =? 0) then 365
  else 366.

Definition DayFromYear (y : Z) : Z :=
  365 * (y - 1970) + (y - 1969) / 4 - (y - 1901) / 100 + (y - 1601) / 400.

(** The year a day number falls in: the largest [y] with
    [DayFromYear y <= day].  A first guess from the mean year length is off
    by at most one. *)
Definition YearFromDay (day : Z) : Z :=
  let y := 1970 + (400 * day) / 146097 in
  if day <? DayFromYear y then y - 1
  else if DayFromYear (y + 1) <=? day then y + 1
  else y.

Definition YearFromTime (t : Z) : Z := YearFromDay (Day t).

Definition InLeapYear (t : Z) : Z :=
  if DaysInYear (YearFromTime t) =? 366 then 1 else 0.

Definition DayWithinYear (t : Z) : Z := Day t - DayFromYear (YearFromTime t).

(** Months are numbered from 0. *)
Definition MonthFromTime (t : Z) : Z :=
  let d := DayWithinYear t in
  let leap := InLeapYear t in
  if d <? 31 then 0
  else if d <? 59 + leap then 1
  else if d <? 90 + leap then 2
  else if d <? 120 + leap then 3
  else if d <? 151 + leap then 4
  else if d <? 181 + leap then 5
  else if d <? 212 + leap then 6
  else if d <? 243 + leap then 7
  else if d <? 273 + leap then 8
  else if d <? 304 + leap then 9
  else if d <? 334 + leap then 10
  else 11.

Definition DateFromTime (t : Z) : Z :=
  let d := DayWithinYear t in
  let leap := InLeapYear t in
  match MonthFromTime t with
  | 0 => d + 1
  | 1 => d - 30
  | 2 => d - 58 - leap
  | 3 => d - 89 - leap
  | 4 => d - 119 - leap
  | 5 => d - 150 - leap
  | 6 => d - 180 - leap
  | 7 => d - 211 - leap
  | 8 => d - 242 - leap
  | 9 => d - 272 - leap
  | 10 => d - 303 - leap
  | _ => d - 333 - leap
  end.

Definition HourFromTime (t : Z) : Z := (t / 3600000) mod 24.
Definition MinFromTime (t : Z) : Z := (t / 60000) mod 60.
Definition SecFromTime (t : Z) : Z := (t / 1000) mod 60.
Definition msFromTime (t : Z) : Z := t mod 1000.

(** Days before the first of month [m] (0..11) in a year of [len] days. *)
Definition DaysBeforeMonth (len m : Z) : Z :=
  let leap := if len =? 366 then 1 else 0 in
  match m with
  | 0 => 0
  | 1 => 31
  | 2 => 59 + leap
  | 3 => 90 + leap
  | 4 => 120 + leap
  | 5 => 151 + leap
  | 6 => 181 + leap
  | 7 => 212 + leap
  | 8 => 243 + leap
  | 9 => 273 + leap
  | 10 => 304 + leap
  | _ => 334 + leap
  end.

(** [MakeDay]: the day number of the [date]-th day of a month, where [date]
    may run past either end of the month. *)
Definition MakeDay (year month date : Z) : Z :=
  let ym := year + month / 12 in
  let mn := month mod 12 in
  DayFromYear ym + DaysBeforeMonth (DaysInYear ym) mn + date - 1.

Definition MakeDate (day time : Z) : Z := day * msPerDay + time.

(** *** Rendering *)

Definition digit (n : Z) : ascii := ascii_of_nat (48 + Z.to_nat (n mod 10)).

(** The last [width] decimal digits of [n]. *)
Fixpoint padded (width : nat) (n : Z) : string :=
  match width with
  | O => ""
  | S w => padded w (n / 10) +:+ String (digit n) ""
  end.

Definition isoYear (y : Z) : string :=
  if (0 <=? y) && (y <=? 9999) then padded 4 y
  else if y <? 0 then "-" +:+ padded 6 (- y)
  else "+" +:+ padded 6 y.

(** The date part [YYYY-MM-DD] of the ISO rendering. *)
Definition isoDate (t : Z) : string :=
  isoYear (YearFromTime t) +:+ "-" +:+ padded 2 (MonthFromTime t + 1) +:+ "-" +:+
  padded 2 (DateFromTime t).

Definition isoTime (t : Z) : string :=
  padded 2 (HourFromTime t) +:+ ":" +:+ padded 2 (MinFromTime t) +:+ ":" +:+
  padded 2 (SecFromTime t) +:+ "." +:+ padded 3 (msFromTime t).

(** [Date.prototype.toISOString]; [None] is the RangeError an invalid date
    raises. *)
Definition toISOString (t : TimeValue) : option string :=
  match t with
  | Some z => Some (isoDate z +:+ "T" +:+ isoTime z +:+ "Z")
  | None => None
  end.

(** *** Local time *)

Section LocalTime.

(** [LocalTZA t isUTC]: the offset of local time, in milliseconds, at the
    instant [t] (read as UTC or as local time). *)
Variable LocalTZA : Z -> bool -> Z.

Definition LocalTime (t : Z) : Z := t + LocalTZA t true.
Definition UTC (t : Z) : Z := t - LocalTZA t false.

(** [getDate()] on a valid date. *)
Definition getDate (t : Z) : Z := DateFromTime (LocalTime t).

(** [setDate(dt)] on a valid date: the new time value. *)
Definition setDate (t : Z) (dt : Z) : TimeValue :=
  let t' := LocalTime t in
  let newDate :=
    MakeDate (MakeDay (YearFromTime t') (MonthFromTime t') dt) (TimeWithinDay t') in
  clip (UTC newDate).

End LocalTime.

(** *** Reading a date

    The date-only form [YYYY-MM-DD] of the date-time string format, which is
    what a date input holds and what [toISOString().split('T')[0]] yields;
    it denotes midnight UTC.  Anything else is not a date here. *)

Definition digitValue (c : ascii) : option Z :=
  let n := nat_of_ascii c in
  if (Nat.leb 48 n && Nat.leb n 57)%bool then Some (Z.of_nat n - 48) else None.

Fixpoint digitsValue (acc : Z) (s : string) : option Z :=
  match s with
  | EmptyString => Some acc
  | String c s' =>
      match digitValue c with
      | Some d => digitsValue (10 * acc + d) s'
      | None => None
      end
  end.

(** Days in month [month] (0..11) of [year]. *)
Definition DaysInMonth (year month : Z) : Z :=
  match month with
  | 1 => DaysInYear year - 337
  | 3 | 5 | 8 | 10 => 30
  | _ => 31
  end.

Definition parseDateOnly (s : string) : TimeValue :=
  if negb (Nat.eqb (String.length s) 10) then None
  else if negb (String.eqb (String.substring 4 1 s) "-" && String.eqb (String.substring 7 1 s) "-")%bool
  then None
  else
    match digitsValue 0 (String.substring 0 4 s), digitsValue 0 (String.substring 5 2 s),
          digitsValue 0 (String.substring 8 2 s) with
    | Some y, Some m, Some d =>
        if ((1 <=? m) && (m <=? 12) && (1 <=? d) && (d <=? DaysInMonth y (m - 1)))%bool
        then clip (MakeDate (MakeDay y (m - 1) d) 0)
        else None
    | _, _, _ => None
    end.

End JSDate.

Import JSDate.

(** ** The client view engine ([CrisisGlobe.jsx]) *)

Module Globe.

(** A field that holds a number or [null] (the feed's [mag] may be null). *)
Inductive Nullable : Type :=
| null
| num (n : Number).

(** [ToNumber]: what an arithmetic or relational operator sees. *)
Definition ToNumber (v : Nullable) : Number :=
  match v with
  | null => pzero
  | num n => n
  end.

(** The event record the proxy sends.  The proxy passes [place] through as
    the feed has it: a string, or [null] ([None], which also stands for any
    other value that has no [toLowerCase]). *)
Record EarthquakeEvent : Type := {
  id : string;
  lat : Number;
  lng : Number;
  depth : Nullable;
  magnitude : Nullable;
  place : option string;
  time : Number;
  timeString : string;
  title : string;
  url : string;
  tsunami : Number;
  type : string;
  status : string;
  updated : Number
}.

(** The record held by the view: [{...eq, color, size, label}].  The label
    is display text only (it embeds the locale's rendering of the time) and
    is left out. *)
Record Earthquake : Type := {
  event :> EarthquakeEvent;
  color : string;
  size : Number
}.

Record Filters : Type := {
  minMagnitude : Number;
  maxMagnitude : Number;
  startDate : string;
  endDate : string;
  region : string;
  searchTerm : string
}.

(** The state [useState] starts the filters with. *)
Definition initialFilters : Filters := {|
  minMagnitude := decimal 45 10;
  maxMagnitude := ofZ 10;
  startDate := "";
  endDate := "";
  region := "all";
  searchTerm := ""
|}.

(** The region tags the selector offers, with their labels. *)
Definition regions : list (string * string) :=
  [("all", "All Regions"); ("pacific-ring", "Pacific Ring of Fire");
   ("americas", "Americas"); ("asia-pacific", "Asia Pacific");
   ("europe-africa", "Europe & Africa"); ("atlantic", "Atlantic Region")].

Definition getMagnitudeColor (magnitude : Nullable) : string :=
  if (ToNumber magnitude >= ofZ 7)%js then "#ff0000"
  else if (ToNumber magnitude >= ofZ 6)%js then "#ff4500"
  else if (ToNumber magnitude >= ofZ 5)%js then "#ff8c00"
  else if (ToNumber magnitude >= ofZ 4)%js then "#ffd700"
  else "#90ee90".

Definition getMagnitudeSize (magnitude : Nullable) : Number :=
  Math_max (decimal 15 100) (ToNumber magnitude * decimal 15 100)%js.

Definition processEarthquake (eq : EarthquakeEvent) : Earthquake := {|
  event := eq;
  color := getMagnitudeColor (magnitude eq);
  size := getMagnitudeSize (magnitude eq)
|}.

Definition isInRegion (earthquake : EarthquakeEvent) (region : string) : bool :=
  if String.eqb region "all" then true
  else
    let lat := lat earthquake in
    let lng := lng earthquake in
    if String.eqb region "pacific-ring" then
      ((lng >= ofZ 120) && (lng <= ofZ 180) || (lng >= ofZ (-180)) && (lng <= ofZ (-100)) ||
       (lat >= ofZ (-60)) && (lat <= ofZ 70) && ((lng >= ofZ 120) || (lng <= ofZ (-100))))%js%bool
    else if String.eqb region "americas" then
      ((lng >= ofZ (-180)) && (lng <= ofZ (-30)))%js%bool
    else if String.eqb region "asia-pacific" then
      ((lng >= ofZ 60) && (lng <= ofZ 180) && (lat >= ofZ (-50)) && (lat <= ofZ 70))%js%bool
    else if String.eqb region "europe-africa" then
      ((lng >= ofZ (-30)) && (lng <= ofZ 60))%js%bool
    else if String.eqb region "atlantic" then
      ((lng >= ofZ (-60)) && (lng <= ofZ 20) && (lat >= ofZ (-60)) && (lat <= ofZ 70))%js%bool
    else true.

(** [array.filter(callback)] for a callback that may throw: the elements
    are tested in order, and the first throw ([None]) ends the pass. *)
Fixpoint filterM {A} (callback : A -> option bool) (l : list A) : option (list A) :=
  match l with
  | [] => Some []
  | a :: rest =>
      match callback a with
      | None => None
      | Some kept =>
          match filterM callback rest with
          | None => None
          | Some filtered => Some (if kept then a :: filtered else filtered)
          end
      end
  end.

Section Filtering.

(** The runtime's [String.prototype.toLowerCase]. *)
Variable toLowerCase : string -> string.

(** [new Date(s)] for a string [s], read back as its time value: the
    runtime's [Date.parse], NaN when [s] is not a date. *)
Variable Date_parse : string -> Number.

(** [eq.place.toLowerCase()]: a TypeError ([None]) when [place] is
    [null]. *)
Definition place_toLowerCase (eq : Earthquake) : option string :=
  match place eq with
  | None => None
  | Some name => Some (toLowerCase name)
  end.

(** The callback of [earthquakes.filter] in [applyFilters]; [None] is the
    TypeError it throws. *)
Definition keeps (filters : Filters) (eq : Earthquake) : option bool :=
  if ((ToNumber (magnitude eq) < minMagnitude filters) ||
      (ToNumber (magnitude eq) > maxMagnitude filters))%js%bool then Some false
  else if (truthy (startDate filters) &&
           (Date_ofNumber (time eq) < Date_parse (startDate filters))%js)%bool then Some false
  else if (truthy (endDate filters) &&
           (Date_ofNumber (time eq) > Date_parse (endDate filters))%js)%bool then Some false
  else if negb (isInRegion eq (region filters)) then Some false
  else if truthy (searchTerm filters) then
    match place_toLowerCase eq with
    | None => None
    | Some lowered =>
        if negb (includes lowered (toLowerCase (searchTerm filters))) then Some false
        else Some true
    end
  else Some true.

(** [applyFilters], with the two pieces of state it reads as arguments and
    the list it stores with [setFilteredEarthquakes] as result; [None] when
    the callback throws, and nothing is stored. *)
Definition applyFilters (earthquakes : list Earthquake) (filters : Filters)
  : option (list Earthquake) :=
  filterM (keeps filters) earthquakes.

End Filtering.

(** *** The reveal animation

    The pieces of component state the animation touches: the filtered list,
    [isAnimating], [animationIndex], the interval handle kept in
    [animationRef], and the intervals the runtime has scheduled.  An interval
    runs the [animate] closure of the [startAnimation] call that created it;
    all it keeps of that call is the [filteredEarthquakes] it closed over. *)

Record Interval : Type := {
  handle : nat;
  captured : list Earthquake
}.

Record View : Type := {
  filteredEarthquakes : list Earthquake;
  isAnimating : bool;
  animationIndex : nat;
  animationRef : option nat;
  intervals : list Interval;
  nextHandle : nat
}.

(** The component after mounting, showing [filtered]. *)
Definition mounted (filtered : list Earthquake) : View := {|
  filteredEarthquakes := filtered;
  isAnimating := false;
  animationIndex := 0;
  animationRef := None;
  intervals := [];
  nextHandle := 1
|}.

Definition startAnimation (v : View) : View :=
  if Nat.eqb (length (filteredEarthquakes v)) 0 then v
  else {|
    filteredEarthquakes := filteredEarthquakes v;
    isAnimating := true;
    animationIndex := 0;
    animationRef := Some (nextHandle v);
    intervals :=
      {| handle := nextHandle v; captured := filteredEarthquakes v |} :: intervals v;
    nextHandle := S (nextHandle v)
  |}.

(** One run of [animate], the callback of the interval [i]. *)
Definition animate (i : Interval) (v : View) : View :=
  let next := S (animationIndex v) in
  if Nat.leb (length (captured i)) next then {|
    filteredEarthquakes := filteredEarthquakes v;
    isAnimating := false;
    animationIndex := 0;
    animationRef := animationRef v;
    intervals := intervals v;
    nextHandle := nextHandle v
  |}
  else {|
    filteredEarthquakes := filteredEarthquakes v;
    isAnimating := isAnimating v;
    animationIndex := next;
    animationRef := animationRef v;
    intervals := intervals v;
    nextHandle := nextHandle v
  |}.

Definition clearInterval (h : option nat) (l : list Interval) : list Interval :=
  match h with
  | None => l
  | Some n => List.filter (fun i => negb (Nat.eqb (handle i) n)) l
  end.

Definition stopAnimation (v : View) : View := {|
  filteredEarthquakes := filteredEarthquakes v;
  isAnimating := false;
  animationIndex := 0;
  animationRef := animationRef v;
  intervals := clearInterval (animationRef v) (intervals v);
  nextHandle := nextHandle v
|}.

Definition displayEarthquakes (v : View) : list Earthquake :=
  if isAnimating v then take (animationIndex v) (filteredEarthquakes v)
  else filteredEarthquakes v.

(** The transitions of the animation: the two button handlers and the
    firing of a scheduled interval. *)
Inductive transition : View -> View -> Prop :=
| t_start v : transition v (startAnimation v)
| t_tick v i : i ∈ intervals v -> transition v (animate i v)
| t_stop v : transition v (stopAnimation v).


End Globe.

(** ** The order the specification puts on the colours *)

Module FilterSpec.

Import Globe.

(** The order of the colour buckets, from minor to major. *)
Definition severity (colour : string) : nat :=
  if String.eqb colour "#ff0000" then 4
  else if String.eqb colour "#ff4500" then 3
  else if String.eqb colour "#ff8c00" then 2
  else if String.eqb colour "#ffd700" then 1
  else 0.

End FilterSpec.

(** ** The proxy ([app.get('/earthquakes', ...)]) *)

Module Proxy.

(** *** Values

    What [response.json()] yields, and [undefined] for what a read of a
    missing property gives. *)
#[local] Set Warnings "-register-all".
Inductive value : Type :=
| undefined
| null
| boolean (b : bool)
| number (n : Number)
| text (s : string)
| array (items : list value)
| object (members : list (string * value)).

(** What a [throw] carries to the [catch] of the handler. *)
Inductive Thrown : Type :=
| UpstreamStatus (status : nat)
| Rejected (message : string)
| NotReadable (base : value) (key : string)
| NotAFunction (callee : value)
| InvalidTime
| NotPrimitive.

Inductive completion (A : Type) : Type :=
| returned (a : A)
| thrown (e : Thrown).
Arguments returned {A} a.
Arguments thrown {A} e.

#[global] Instance completion_ret : MRet completion := fun A a => returned a.
#[global] Instance completion_bind : MBind completion := fun A B k c =>
  match c with
  | returned a => k a
  | thrown e => thrown e
  end.

Fixpoint member (key : string) (members : list (string * value)) : value :=
  match members with
  | [] => undefined
  | (k, v) :: rest => if String.eqb k key then v else member key rest
  end.

Definition showNat (n : nat) : string :=
  NilEmpty.string_of_uint (Nat.to_uint n).

Definition lengthOf (n : nat) : value := number (ofZ (Z.of_nat n)).

Fixpoint charAt (s : string) (i : nat) : value :=
  match s, i with
  | EmptyString, _ => undefined
  | String c _, O => text (String c "")
  | String _ s', S i' => charAt s' i'
  end.

(** [base.key]: a TypeError on [undefined] and [null], the member of an
    object, the length of an array or a string, [undefined] otherwise (none
    of the names the handler reads is inherited from a prototype). *)
Definition get (base : value) (key : string) : completion value :=
  match base with
  | undefined | null => thrown (NotReadable base key)
  | object members => returned (member key members)
  | array items =>
      returned (if String.eqb key "length" then lengthOf (length items) else undefined)
  | text s =>
      returned (if String.eqb key "length" then lengthOf (String.length s) else undefined)
  | boolean _ | number _ => returned undefined
  end.

(** [base[i]] for an index [i]. *)
Definition at_index (base : value) (i : nat) : completion value :=
  match base with
  | undefined | null => thrown (NotReadable base (showNat i))
  | array items => returned (nth i items undefined)
  | text s => returned (charAt s i)
  | object members => returned (member (showNat i) members)
  | boolean _ | number _ => returned undefined
  end.

(** [base?.key] *)
Definition get_optional (base : value) (key : string) : completion value :=
  match base with
  | undefined | null => returned undefined
  | _ => get base key
  end.

Definition truthy (v : value) : bool :=
  match v with
  | undefined | null => false
  | boolean b => b
  | number (S754_zero _) | number S754_nan => false
  | number _ => true
  | text s => JSString.truthy s
  | array _ | object _ => true
  end.

(** *** The request and the reply *)

(** What Express's query parser makes of a parameter: a string, an array
    ([?limit=1&limit=2]) or an object ([?limit[a]=1]), nested at will. *)
Inductive QueryValue : Type :=
| q_text (s : string)
| q_list (items : list QueryValue)
| q_fields (members : list (string * QueryValue)).

(** [req.query], as far as the handler reads it; [None] is [undefined], the
    parameter not being there. *)
Record Query : Type := {
  minmagnitude : option QueryValue;
  limit : option QueryValue;
  format : option QueryValue;
  starttime : option QueryValue;
  endtime : option QueryValue
}.

Definition hasKey (key : string) (members : list (string * QueryValue)) : bool :=
  existsb (fun m => String.eqb (fst m) key) members.

Section Join.

Variable convert : QueryValue -> completion string.

(** [Array.prototype.join]: the conversions of the elements, in order,
    with commas between them. *)
Fixpoint join (items : list QueryValue) : completion string :=
  match items with
  | [] => returned ""
  | x :: rest =>
      first ← convert x;
      match rest with
      | [] => returned first
      | _ :: _ => others ← join rest; returned (first +:+ "," +:+ others)
      end
  end.

End Join.

(** [ToString], which [params.append(name, value)] applies to [value].  A
    string is itself; an array is its elements joined by commas; an object
    is "[object Object]", unless it has a member [toString]: that member is
    no function, the inherited [valueOf] returns the object, and the
    conversion throws a TypeError. *)
Fixpoint ToString (v : QueryValue) : completion string :=
  match v with
  | q_text s => returned s
  | q_list items => join ToString items
  | q_fields members =>
      if hasKey "toString" members then thrown NotPrimitive
      else returned "[object Object]"
  end.

(** Induction on a parameter, through the arrays and objects in it. *)
Section QueryValue_induction.

Variable P : QueryValue -> Prop.
Hypothesis text_case : forall s, P (q_text s).
Hypothesis list_case : forall items, Forall P items -> P (q_list items).
Hypothesis fields_case :
  forall members, Forall (fun m => P (snd m)) members -> P (q_fields members).

Fixpoint QueryValue_nested_ind (v : QueryValue) : P v :=
  match v with
  | q_text s => text_case s
  | q_list items =>
      list_case items
        ((fix all (l : list QueryValue) : Forall P l :=
            match l with
            | [] => @List.Forall_nil _ P
            | x :: rest =>
                @List.Forall_cons _ P x rest (QueryValue_nested_ind x) (all rest)
            end) items)
  | q_fields members =>
      fields_case members
        ((fix all (l : list (string * QueryValue)) : Forall (fun m => P (snd m)) l :=
            match l with
            | [] => @List.Forall_nil _ (fun m => P (snd m))
            | (k, x) :: rest =>
                @List.Forall_cons _ (fun m => P (snd m)) (k, x) rest
                  (QueryValue_nested_ind x) (all rest)
            end) members)
  end.

End QueryValue_induction.

(** Truthiness of a parameter: [undefined] and the empty string are
    falsy. *)
Definition given (v : option QueryValue) : bool :=
  match v with
  | None => false
  | Some (q_text s) => JSString.truthy s
  | Some (q_list _) | Some (q_fields _) => true
  end.

Record EarthquakeEvent : Type := {
  id : value;
  lat : value;
  lng : value;
  depth : value;
  magnitude : value;
  place : value;
  time : value;
  timeString : string;
  title : value;
  url : value;
  tsunami : value;
  type : value;
  status : value;
  updated : value
}.

Record Metadata : Type := {
  generated : value;
  metadata_url : value;
  metadata_title : value;
  metadata_count : value
}.

Inductive Body : Type :=
| success (count : nat) (earthquakes : list EarthquakeEvent) (metadata : Metadata)
| failure (error : string) (details : string).

Record Reply : Type := {
  statusCode : nat;
  body : Body
}.

(** *** The upstream call *)

Record Request : Type := {
  request_url : string;
  method : string;
  headers : list (string * string)
}.

(** How [fetch] and then [response.json()] end: the fetch is rejected, or
    it resolves with a status and a body that parses or does not. *)
Inductive Upstream : Type :=
| fetch_rejected (message : string)
| fetch_resolved (status : nat) (json : completion value).

Definition ok (status : nat) : bool := Nat.leb 200 status && Nat.leb status 299.

(** A handler run: it replies, or it issues a request and goes on with what
    comes back. *)
Inductive Handler : Type :=
| Reply_with (r : Reply)
| Fetch (req : Request) (k : Upstream -> Handler).

(** Running a handler against an upstream: the reply, and the requests
    issued, in order. *)
Fixpoint run (h : Handler) (upstream : Request -> Upstream) : Reply * list Request :=
  match h with
  | Reply_with r => (r, [])
  | Fetch req k =>
      let (r, log) := run (k (upstream req)) upstream in
      (r, req :: log)
  end.

(** *** [URLSearchParams] *)

Definition hexDigit (n : nat) : ascii :=
  ascii_of_nat (if Nat.ltb n 10 then 48 + n else 55 + n).

Definition unreserved (c : ascii) : bool :=
  let n := nat_of_ascii c in
  (Nat.leb 48 n && Nat.leb n 57) || (Nat.leb 65 n && Nat.leb n 90) ||
  (Nat.leb 97 n && Nat.leb n 122) ||
  Nat.eqb n 42 || Nat.eqb n 45 || Nat.eqb n 46 || Nat.eqb n 95.

(** The [application/x-www-form-urlencoded] byte serializer. *)
Fixpoint urlencode (s : string) : string :=
  match s with
  | EmptyString => ""
  | String c s' =>
      (if unreserved c then String c ""
       else if Nat.eqb (nat_of_ascii c) 32 then "+"
       else String "%" (String (hexDigit (nat_of_ascii c / 16))
                          (String (hexDigit (nat_of_ascii c mod 16)) "")))
      +:+ urlencode s'
  end.

Fixpoint params_toString (params : list (string * string)) : string :=
  match params with
  | [] => ""
  | [(k, v)] => urlencode k +:+ "=" +:+ urlencode v
  | (k, v) :: rest => urlencode k +:+ "=" +:+ urlencode v +:+ "&" +:+ params_toString rest
  end.

(** [s.split('T')[0]] *)
Fixpoint before_T (s : string) : string :=
  match s with
  | EmptyString => ""
  | String c s' => if Ascii.eqb c "T" then "" else String c (before_T s')
  end.

Definition USGS_BASE_URL : string :=
  "https://earthquake.usgs.gov/fdsnws/event/1/query".

Section Handler.

(** The server's local time zone, the text the engine puts into the errors
    it raises itself, and the engine's reading of a non-numeric [time] as a
    date ([new Date(v)] for a string, an array or an object [v]). *)
Variable LocalTZA : Z -> bool -> Z.
Variable engineMessage : Thrown -> string.
Variable Date_parse : value -> TimeValue.

(** [error.message] *)
Definition message (e : Thrown) : string :=
  match e with
  | UpstreamStatus status => "USGS API responded with status " +:+ showNat status
  | Rejected m => m
  | _ => engineMessage e
  end.

(** [new Date(v)] *)
Definition Date_new (v : value) : TimeValue :=
  match v with
  | undefined => None
  | null => Some 0
  | boolean b => Some (if b then 1 else 0)
  | number n => TimeClip n
  | text _ | array _ | object _ => Date_parse v
  end.

Definition toISOString_or_throw (t : TimeValue) : completion string :=
  match toISOString t with
  | Some s => returned s
  | None => thrown InvalidTime
  end.

(** The upstream parameters: lines 27 to 45. [now] is the clock reading of
    [new Date()]. *)
Definition buildParams (query : Query) (now : Z) : completion (list (string * string)) :=
  let minmagnitude := default (q_text "4.5") (minmagnitude query) in
  let limit := default (q_text "1000") (limit query) in
  let format := default (q_text "geojson") (format query) in
  format ← ToString format;
  minmagnitude ← ToString minmagnitude;
  limit ← ToString limit;
  let params :=
    [("format", format); ("minmagnitude", minmagnitude); ("limit", limit);
     ("orderby", "time")] in
  params ←
    (if given (starttime query) then
       starttime ← ToString (default (q_text "") (starttime query));
       returned (params ++ [("starttime", starttime)])
     else
       let thirtyDaysAgo := setDate LocalTZA now (getDate LocalTZA now - 30) in
       iso ← toISOString_or_throw thirtyDaysAgo;
       returned (params ++ [("starttime", before_T iso)]));
  if given (endtime query) then
    endtime ← ToString (default (q_text "") (endtime query));
    returned (params ++ [("endtime", endtime)])
  else returned params.

(** The callback of [data.features.map]. *)
Definition processFeature (earthquake : value) : completion EarthquakeEvent :=
  geometry ← get earthquake "geometry";
  coords ← get geometry "coordinates";
  props ← get earthquake "properties";
  id ← get earthquake "id";
  lat ← at_index coords 1;
  lng ← at_index coords 0;
  depth ← at_index coords 2;
  mag ← get props "mag";
  place ← get props "place";
  time ← get props "time";
  time' ← get props "time";
  timeString ← toISOString_or_throw (Date_new time');
  title ← get props "title";
  url ← get props "url";
  tsunami ← get props "tsunami";
  type ← get props "type";
  status ← get props "status";
  updated ← get props "updated";
  returned {|
    id := id; lat := lat; lng := lng; depth := depth; magnitude := mag;
    place := place; time := time; timeString := timeString; title := title;
    url := url; tsunami := tsunami; type := type; status := status;
    updated := updated
  |}.

(** [features ? features.map(...) : []] *)
Definition processFeatures (features : value) : completion (list EarthquakeEvent) :=
  if truthy features then
    match features with
    | array items => mapM processFeature items
    | _ => map' ← get features "map"; thrown (NotAFunction map')
    end
  else returned [].

(** Lines 65 to 112: from the parsed body to the reply. *)
Definition processData (data : value) : completion Reply :=
  features ← get data "features";
  processedData ← processFeatures features;
  metadata ← get data "metadata";
  generated ← get_optional metadata "generated";
  url ← get_optional metadata "url";
  title ← get_optional metadata "title";
  count ← get_optional metadata "count";
  returned {|
    statusCode := 200;
    body := success (length processedData) processedData {|
      generated := generated; metadata_url := url;
      metadata_title := title; metadata_count := count
    |}
  |}.

(** Lines 58 to 63. *)
Definition receive (u : Upstream) : completion value :=
  match u with
  | fetch_rejected m => thrown (Rejected m)
  | fetch_resolved status json =>
      if negb (ok status) then thrown (UpstreamStatus status) else json
  end.

(** The [catch] block. *)
Definition catch (c : completion Reply) : Reply :=
  match c with
  | returned r => r
  | thrown e => {|
      statusCode := 500;
      body := failure "Failed to fetch earthquake data" (message e)
    |}
  end.

Definition upstreamRequest (params : list (string * string)) : Request := {|
  request_url := USGS_BASE_URL +:+ "?" +:+ params_toString params;
  method := "GET";
  headers := [("Accept", "application/json"); ("User-Agent", "Visual-Globe-App/1.0")]
|}.

(** What the handler replies once the upstream call has ended. *)
Definition respond (u : Upstream) : Reply :=
  catch (data ← receive u; processData data).

(** The route handler. *)
Definition handler (query : Query) (now : Z) : Handler :=
  match buildParams query now with
  | thrown e => Reply_with (catch (thrown e))
  | returned params =>
      Fetch (upstreamRequest params) (fun u => Reply_with (respond u))
  end.

End Handler.

End Proxy.

(** ** The proxy contract, as the specification words it *)

Module ProxySpec.

Import Proxy.

(** A feature of the upstream collection: an object whose [geometry] holds
    an array of [coordinates] and whose [properties] is an object with a
    [time] that is a date. *)
Definition isFeature (Date_parse : value -> TimeValue) (feature : value) : Prop :=
  exists members geometry coords props,
    feature = object members /\
    member "geometry" members = object geometry /\
    member "coordinates" geometry = array coords /\
    member "properties" members = object props /\
    is_Some (Date_new Date_parse (member "time" props)).

(** The event the contract asks for a feature: coordinates
    [[lng, lat, depth]], the properties passed through, and the ISO-8601
    rendering of [time]. *)
Definition emitted (Date_parse : value -> TimeValue) (feature : value)
    (event : EarthquakeEvent) : Prop :=
  exists members geometry coords props,
    feature = object members /\
    member "geometry" members = object geometry /\
    member "coordinates" geometry = array coords /\
    member "properties" members = object props /\
    id event = member "id" members /\
    lat event = nth 1 coords undefined /\
    lng event = nth 0 coords undefined /\
    depth event = nth 2 coords undefined /\
    magnitude event = member "mag" props /\
    place event = member "place" props /\
    time event = member "time" props /\
    toISOString (Date_new Date_parse (member "time" props)) = Some (timeString event) /\
    title event = member "title" props /\
    url event = member "url" props /\
    tsunami event = member "tsunami" props /\
    type event = member "type" props /\
    status event = member "status" props /\
    updated event = member "updated" props.

(** The value of a parameter in a parameter list. *)
Fixpoint param (key : string) (params : list (string * string)) : option string :=
  match params with
  | [] => None
  | (k, v) :: rest => if String.eqb k key then Some v else param key rest
  end.

(** The offset of the eastern zone of the United States in the first half
    of 2024: five hours behind UTC until 2024-03-10T07:00Z, four hours
    behind after. *)
Definition easternOffset (t : Z) (isUTC : bool) : Z :=
  if (if isUTC then t else t + 18000000) <? 1710054000000 then -18000000 else -14400000.

End ProxySpec.

(** ** Rounding, in integer arithmetic

    What [binary_round_aux] computes, read on integers: the devices the
    proofs about multiplication use. *)

Module Rounding.

(** The nearest integer to [p / 2^n], ties to even. *)
Definition rne (p n : Z) : Z :=
  let q := p / 2 ^ n in
  let r := p mod 2 ^ n in
  let h := 2 ^ (n - 1) in
  if r <? h then q else if h <? r then q + 1 else if Z.even q then q else q + 1.

Fixpoint shr_n (k : nat) (mrs : shr_record) : shr_record :=
  match k with
  | O => mrs
  | S k' => shr_1 (shr_n k' mrs)
  end.

(** The number made of a rounded mantissa [r] in [0, 2^53] at exponent [e]. *)
Definition pack (r e : Z) : Number :=
  let m := if r =? 2 ^ 53 then 2 ^ 52 else r in
  let e' := if r =? 2 ^ 53 then e + 1 else e in
  match m with
  | Z0 => S754_zero false
  | Z.pos m => if e' <=? 971 then S754_finite false m e' else S754_infinity false
  | Z.neg _ => S754_nan
  end.

(** The exponent the rounding of a positive value picks, counted from
    the exponent [-1129] of the product's smallest unit. *)
Definition gexp (v : Z) : Z := Z.max (Z.log2 v + 1 - 53) 55.

(** A positive mantissa at an exponent, or infinity past the largest one. *)
Definition finite_or_infinity (m : positive) (e : Z) : Number :=
  if e <=? 971 then S754_finite false m e else S754_infinity false.

(** The rounding of the positive value [v * 2^-1129]. *)
Definition rounded (v : Z) : Number := pack (rne v (gexp v)) (gexp v - 1129).

Definition nonneg (x : Number) : bool :=
  match x with
  | S754_zero _ => true
  | S754_infinity s | S754_finite s _ _ => negb s
  | S754_nan => false
  end.

(** The value of a finite number's magnitude times 0.15, in units of
    [2^-1129]. *)
Definition scaled (m : positive) (e : Z) : Z :=
  Z.pos m * 5404319552844595 * 2 ^ (e + 1074).

Definition c015 : Number := S754_finite false 5404319552844595 (-55).

End Rounding.

(** ** Sample data *)

Module Samples.

Definition quake (id place : string) (lat lng magnitude time : Number)
  : Globe.Earthquake :=
  Globe.processEarthquake {|
    Globe.id := id; Globe.lat := lat; Globe.lng := lng; Globe.depth := Globe.num (ofZ 10);
    Globe.magnitude := Globe.num magnitude; Globe.place := Some place; Globe.time := time;
    Globe.timeString := ""; Globe.title := ""; Globe.url := ""; Globe.tsunami := ofZ 0;
    Globe.type := "earthquake"; Globe.status := "reviewed"; Globe.updated := time
  |}.

Definition tokyo : Globe.Earthquake :=
  quake "us1" "Tokyo, Japan" (decimal 357 10) (decimal 1397 10) (decimal 61 10)
        (ofZ 1700000000000).

Definition losAngeles : Globe.Earthquake :=
  quake "ci2" "Los Angeles, CA" (decimal 3405 100) (decimal (-11824) 100) (decimal 59 10)
        (ofZ 1700000100000).

(** [new Date(s)] on the date-only form. *)
Definition Date_parse (s : string) : Number := valueOf (parseDateOnly s).

(** The upstream feature of the specification's example. *)
Definition tokyoFeature : Proxy.value :=
  Proxy.object
    [("type", Proxy.text "Feature");
     ("properties", Proxy.object
        [("mag", Proxy.number (decimal 62 10)); ("place", Proxy.text "Tokyo, Japan");
         ("time", Proxy.number (ofZ 1700000000000))]);
     ("geometry", Proxy.object
        [("type", Proxy.text "Point");
         ("coordinates", Proxy.array
            [Proxy.number (decimal 1397 10); Proxy.number (decimal 357 10);
             Proxy.number (ofZ 10)])]);
     ("id", Proxy.text "us1")].

(** An event whose magnitude the feed left null. *)
Definition unmeasured : Globe.Earthquake :=
  Globe.processEarthquake {|
    Globe.id := "ak3"; Globe.lat := ofZ 61; Globe.lng := ofZ (-150);
    Globe.depth := Globe.null; Globe.magnitude := Globe.null; Globe.place := Some "Alaska";
    Globe.time := ofZ 1700000200000; Globe.timeString := ""; Globe.title := "";
    Globe.url := ""; Globe.tsunami := ofZ 0; Globe.type := "earthquake";
    Globe.status := "automatic"; Globe.updated := ofZ 1700000200000
  |}.

(** An event whose place the feed left null. *)
Definition unnamed : Globe.Earthquake :=
  Globe.processEarthquake {|
    Globe.id := "us4"; Globe.lat := decimal 357 10; Globe.lng := decimal 1397 10;
    Globe.depth := Globe.num (ofZ 10); Globe.magnitude := Globe.num (decimal 61 10);
    Globe.place := None; Globe.time := ofZ 1700000300000; Globe.timeString := "";
    Globe.title := ""; Globe.url := ""; Globe.tsunami := ofZ 0;
    Globe.type := "earthquake"; Globe.status := "reviewed";
    Globe.updated := ofZ 1700000300000
  |}.

(** The initial filters, with "tokyo" typed into the search box. *)
Definition searching : Globe.Filters := {|
  Globe.minMagnitude := decimal 45 10; Globe.maxMagnitude := ofZ 10;
  Globe.startDate := ""; Globe.endDate := "";
  Globe.region := "all"; Globe.searchTerm := "tokyo"
|}.

(** What the runtime's [toLowerCase] does on ASCII text, which the samples
    are. *)
Definition lowerAscii (c : ascii) : ascii :=
  let n := Ascii.nat_of_ascii c in
  if (Nat.leb 65 n && Nat.leb n 90)%bool then Ascii.ascii_of_nat (n + 32) else c.

Fixpoint toLowerCase (s : string) : string :=
  match s with
  | EmptyString => EmptyString
  | String c s' => String (lowerAscii c) (toLowerCase s')
  end.

Definition utc (t : Z) (isUTC : bool) : Z := 0.

Definition noQuery : Proxy.Query := {|
  Proxy.minmagnitude := None; Proxy.limit := None; Proxy.format := None;
  Proxy.starttime := None; Proxy.endtime := None
|}.

(** [?starttime[toString]=x] *)
Definition objectStart : Proxy.Query := {|
  Proxy.minmagnitude := None; Proxy.limit := None; Proxy.format := None;
  Proxy.starttime := Some (Proxy.q_fields [("toString", Proxy.q_text "x")]);
  Proxy.endtime := None
|}.

End Samples.

(** ** Further readings of the proxy's input *)

Module ProxyCases.

Import Proxy.

Definition nullish (v : value) : Prop := v = undefined \/ v = null.

Definition isObject (v : value) : bool :=
  match v with object _ => true | _ => false end.

(** A feature the handler cannot turn into an event: not an object; or an
    object without geometry, whose geometry has no coordinates, without
    properties, or whose time is no date. *)
Definition unreadable (Date_parse : value -> TimeValue) (feature : value) : Prop :=
  isObject feature = false \/
  exists members,
    feature = object members /\
    (nullish (member "geometry" members) \/
     (exists geometry, member "geometry" members = object geometry /\
                       nullish (member "coordinates" geometry)) \/
     nullish (member "properties" members) \/
     (exists props, member "properties" members = object props /\
                    Date_new Date_parse (member "time" props) = None)).

(** A feature the handler can turn into an event: an object whose geometry
    is an object with coordinates, and whose properties are an object with a
    time that is a date. *)
Definition readable (Date_parse : value -> TimeValue) (feature : value) : Prop :=
  exists members geometry props,
    feature = object members /\
    member "geometry" members = object geometry /\
    ~ nullish (member "coordinates" geometry) /\
    member "properties" members = object props /\
    is_Some (Date_new Date_parse (member "time" props)).

(** The bound on a local offset: a day. *)
Definition withinADay (LocalTZA : Z -> bool -> Z) : Prop :=
  forall t isUTC, Z.abs (LocalTZA t isUTC) <= msPerDay.

(** A parameter that has a string conversion. *)
Definition converts (v : QueryValue) : Prop := exists s, ToString v = returned s.

(** The parameters the handler appends, defaults included. *)
Definition appended (query : Query) : list QueryValue :=
  [default (q_text "geojson") (format query);
   default (q_text "4.5") (minmagnitude query);
   default (q_text "1000") (limit query)] ++
  (if given (starttime query) then [default (q_text "") (starttime query)] else []) ++
  (if given (endtime query) then [default (q_text "") (endtime query)] else []).

Definition convertible (query : Query) : Prop := Forall converts (appended query).

End ProxyCases.

(** ** More arithmetic on numbers *)

Module JSArith.

Definition add (x y : Number) : Number := SFadd prec emax x y.
Definition sub (x y : Number) : Number := SFsub prec emax x y.
Definition div (x y : Number) : Number := SFdiv prec emax x y.

Definition minusInfinity : Number := S754_infinity true.
Definition plusInfinity : Number := S754_infinity false.

(** [Math.min] of two numbers: NaN if either is NaN, and [-0] is smaller
    than [+0]. *)
Definition Math_min (x y : Number) : Number :=
  match x, y with
  | S754_nan, _ | _, S754_nan => S754_nan
  | S754_zero sx, S754_zero sy => S754_zero (sx || sy)
  | _, _ => if lt y x then y else x
  end.

End JSArith.

(** ** The rest of the view ([CrisisGlobe.jsx]) *)

Module GlobeView.

Import Globe JSArith.

(** [getElevation]: [hoveredEarthquake] is an event or null, and so is the
    argument. *)
Definition getElevation (hoveredEarthquake earthquake : option Earthquake) : Number :=
  match earthquake with
  | None => ofZ 0
  | Some eq =>
      match hoveredEarthquake with
      | Some hovered =>
          if String.eqb (id hovered) (id eq)
          then Math_max (decimal 2 100) (ToNumber (magnitude eq) * decimal 2 100)%js
          else ofZ 0
      | None => ofZ 0
      end
  end.

(** *** Statistics *)

Record Statistics : Type := {
  total : nat;
  avgMagnitude : string;
  maxMagnitude : string;
  minMagnitude : string;
  last24h : nat
}.

Section Statistics.

(** [x.toFixed(1)], the runtime's rendering with one decimal. *)
Variable toFixed1 : Number -> string.

(** The callback counting the events of the last 24 hours; [now] is the
    clock reading of [new Date()]. *)
Definition isRecent (now : Z) (eq : Earthquake) : bool :=
  (sub (ofZ now) (Date_ofNumber (time eq)) < ofZ (24 * 60 * 60 * 1000))%js.

(** [Math.max(...l)] and [Math.min(...l)] on magnitudes, each read as a
    number. *)
Definition Math_max_all (l : list Nullable) : Number :=
  fold_left (fun highest v => Math_max highest (ToNumber v)) l minusInfinity.
Definition Math_min_all (l : list Nullable) : Number :=
  fold_left (fun lowest v => Math_min lowest (ToNumber v)) l plusInfinity.

(** [getStatistics]; [None] is the [null] it returns for an empty display. *)
Definition getStatistics (now : Z) (displayEarthquakes : list Earthquake)
  : option Statistics :=
  if Nat.eqb (length displayEarthquakes) 0 then None
  else
    let magnitudes := map (fun eq : Earthquake => magnitude eq) displayEarthquakes in
    let avgMagnitude :=
      div (fold_left (fun a b => add a (ToNumber b)) magnitudes (ofZ 0))
          (ofZ (Z.of_nat (length magnitudes))) in
    let maxMagnitude := Math_max_all magnitudes in
    let minMagnitude := Math_min_all magnitudes in
    let last24h := length (List.filter (isRecent now) displayEarthquakes) in
    Some {|
      total := length displayEarthquakes;
      avgMagnitude := toFixed1 avgMagnitude;
      maxMagnitude := toFixed1 maxMagnitude;
      minMagnitude := toFixed1 minMagnitude;
      last24h := last24h
    |}.

End Statistics.

(** *** Quick filters *)

(** The "Major 6.0+" button. *)
Definition majorOnly (prev : Filters) : Filters := {|
  Globe.minMagnitude := ofZ 6;
  Globe.maxMagnitude := Globe.maxMagnitude prev;
  startDate := startDate prev;
  endDate := endDate prev;
  region := region prev;
  searchTerm := searchTerm prev
|}.

(** *** The default date range *)

Record DateRange : Type := {
  start : string;
  end' : string
}.

Section DateRange.

Variable LocalTZA : Z -> bool -> Z.

(** [getDefaultDateRange] at the clock reading [now]; [None] is the
    RangeError of [toISOString] on an invalid date. *)
Definition getDefaultDateRange (now : Z) : option DateRange :=
  let end_ := clip now in
  let start_ :=
    match clip now with
    | Some t => setDate LocalTZA t (getDate LocalTZA t - 30)
    | None => None
    end in
  match toISOString start_, toISOString end_ with
  | Some s, Some e => Some {| start := Proxy.before_T s; end' := Proxy.before_T e |}
  | _, _ => None
  end.

End DateRange.

(** The filters after the effect that initialises the date range. *)
Definition withDefaultDates (range : DateRange) (prev : Filters) : Filters := {|
  Globe.minMagnitude := Globe.minMagnitude prev;
  Globe.maxMagnitude := Globe.maxMagnitude prev;
  startDate := start range;
  endDate := end' range;
  region := region prev;
  searchTerm := searchTerm prev
|}.

(** The filters after "Reset All". *)
Definition resetAll (range : DateRange) : Filters := {|
  Globe.minMagnitude := decimal 45 10;
  Globe.maxMagnitude := ofZ 10;
  startDate := start range;
  endDate := end' range;
  region := "all";
  searchTerm := ""
|}.

(** *** The animation's timers *)

(** [setFilteredEarthquakes], which the filter pass ends with. *)
Definition setFilteredEarthquakes (filtered : list Earthquake) (v : View) : View := {|
  filteredEarthquakes := filtered;
  isAnimating := isAnimating v;
  animationIndex := animationIndex v;
  animationRef := animationRef v;
  intervals := intervals v;
  nextHandle := nextHandle v
|}.

(** What can happen to the view: a transition of the animation, or a new
    filtered list. *)
Inductive step : View -> View -> Prop :=
| s_transition v v' : transition v v' -> step v v'
| s_filter v filtered : step v (setFilteredEarthquakes filtered v).

(** The cleanup on unmount: it clears the interval [animationRef] holds, if
    the handle is truthy.  The intervals left are the result. *)
Definition unmount (v : View) : list Interval :=
  match animationRef v with
  | Some (S h) => clearInterval (Some (S h)) (intervals v)
  | _ => intervals v
  end.

(** [n] firings of the interval [i]. *)
Fixpoint ticks (n : nat) (i : Interval) (v : View) : View :=
  match n with
  | O => v
  | S n' => ticks n' i (animate i v)
  end.

(** An interval that a later [startAnimation] has replaced in
    [animationRef]. *)
Definition superseded (v : View) (i : Interval) : Prop :=
  i ∈ intervals v /\ exists h, animationRef v = Some h /\ (handle i < h)%nat.

(** Handles are handed out in increasing order. *)
Definition fresh (v : View) : Prop :=
  (forall i, i ∈ intervals v -> (handle i < nextHandle v)%nat) /\
  (forall h, animationRef v = Some h -> (h < nextHandle v)%nat).

(** *** Loading the data *)

(** What [fetchEarthquakes] sets: the event list, [dataLoaded], [error]. *)
Record Loading : Type := {
  earthquakes : list Earthquake;
  dataLoaded : bool;
  error : option string
}.

(** What the body of an answer parses to, as far as [fetchEarthquakes]
    looks: nothing ([response.json()] is rejected), [null], something whose
    [earthquakes] is no array, or something whose [earthquakes] is the
    array given. *)
Inductive Payload : Type :=
| unparsable (message : string)
| parsed_null
| without_list
| with_list (events : list EarthquakeEvent).

(** How the request to [/earthquakes] ends. *)
Inductive Answer : Type :=
| rejected (message : string)
| answered (status : nat) (payload : Payload).

Section Fetching.

(** The text of the TypeError the engine raises on [null.earthquakes]. *)
Variable nullReadMessage : string.

(** The [catch] block of [fetchEarthquakes]. *)
Definition failed (message : string) (s : Loading) : Loading := {|
  earthquakes := earthquakes s;
  dataLoaded := true;
  error := Some ("Failed to fetch earthquake data: " +:+ message)
|}.

Definition fetchEarthquakes (a : Answer) (s : Loading) : Loading :=
  match a with
  | rejected message => failed message s
  | answered status payload =>
      if negb (Proxy.ok status)
      then failed ("HTTP error! status: " +:+ Proxy.showNat status) s
      else
        match payload with
        | unparsable message => failed message s
        | parsed_null => failed nullReadMessage s
        | with_list events => {|
            earthquakes := map processEarthquake events;
            dataLoaded := true;
            error := error s
          |}
        | without_list => {|
            earthquakes := earthquakes s;
            dataLoaded := dataLoaded s;
            error := Some "Invalid data received from server"
          |}
        end
  end.

End Fetching.

(** An answer the component takes the event list from. *)
Definition listed (a : Answer) : Prop :=
  exists status events, a = answered status (with_list events) /\ Proxy.ok status = true.

(** An answer that was received and parsed but holds no event list. *)
Definition unstructured (a : Answer) : Prop :=
  exists status, a = answered status without_list /\ Proxy.ok status = true.

(** The state the component mounts with. *)
Definition notLoaded : Loading := {|
  earthquakes := [];
  dataLoaded := false;
  error := None
|}.

End GlobeView.

(** ** More sample data *)

Module Scenarios.

Import Globe GlobeView.

(** A query that brings its own start date. *)
Definition sinceNewYear : Proxy.Query := {|
  Proxy.minmagnitude := None; Proxy.limit := None; Proxy.format := None;
  Proxy.starttime := Some (Proxy.q_text "2024-01-01"); Proxy.endtime := None
|}.

(** An upstream that is down. *)
Definition down (req : Proxy.Request) : Proxy.Upstream :=
  Proxy.fetch_resolved 503 (Proxy.thrown (Proxy.Rejected "Unexpected token")).

(** A body with a feature that is [null]. *)
Definition holed : list (string * Proxy.value) :=
  [("features", Proxy.array [Samples.tokyoFeature; Proxy.null])].

(** The view on one event: the animation is played to its end (one firing)
    and started again. *)
Definition single : View := mounted [Samples.tokyo].
Definition firstInterval : Interval := {| handle := 1; captured := [Samples.tokyo] |}.
Definition played : View := animate firstInterval (startAnimation single).
Definition restarted : View := startAnimation played.

(** 2023-11-14T22:13:20Z, the time of the sample event in Tokyo. *)
Definition clock : Z := 1700000000000.

Definition defaultRange : DateRange := {| start := "2023-10-15"; end' := "2023-11-14" |}.

End Scenarios.

(** * Properties *)

(** ** Order of numbers *)

#[local] Arguments ofZ : simpl never.
#[local] Arguments decimal : simpl never.
#[local] Arguments lt : simpl never.
#[local] Arguments le : simpl never.
#[local] Arguments gt : simpl never.
#[local] Arguments ge : simpl never.

Section NumberOrder.

Lemma SFcompare_antisym (x y : Number) :
  SFcompare y x = CompOpp <$> SFcompare x y.
Proof.
  destruct x as [[]|[]| |[] mx ex], y as [[]|[]| |[] my ey]; simpl; try reflexivity;
    rewrite (Z.compare_antisym ex ey);
    destruct (ex ?= ey); simpl; try reflexivity;
    change (Pos.compare_cont Eq my mx) with (Pos.compare my mx);
    change (Pos.compare_cont Eq mx my) with (Pos.compare mx my);
    rewrite (Pos.compare_antisym mx my); destruct (mx ?= my)%positive; reflexivity.
Qed.

Lemma SFcompare_defined (x y : Number) :
  isNaN x = false -> isNaN y = false -> is_Some (SFcompare x y).
Proof.
  destruct x as [[]|[]| |[] mx ex], y as [[]|[]| |[] my ey]; simpl; intros; try discriminate; eauto.
Qed.

Lemma not_lt_ge (x y : Number) :
  isNaN x = false -> isNaN y = false -> negb (lt x y) = ge x y.
Proof.
  intros Hx Hy. unfold lt, ge, SFltb, SFleb. rewrite (SFcompare_antisym x y).
  destruct (SFcompare_defined x y Hx Hy) as [c ->]. destruct c; reflexivity.
Qed.

Lemma not_gt_le (x y : Number) :
  isNaN x = false -> isNaN y = false -> negb (gt x y) = le x y.
Proof. intros Hx Hy. apply (not_lt_ge y x Hy Hx). Qed.

Lemma lt_not_ge (x y : Number) : lt x y = true -> ge x y = false.
Proof.
  unfold lt, ge, SFltb, SFleb. rewrite (SFcompare_antisym x y).
  destruct (SFcompare x y) as [[]|]; simpl; congruence.
Qed.

Lemma ge_not_lt (x y : Number) : ge x y = true -> lt x y = false.
Proof.
  unfold lt, ge, SFltb, SFleb. rewrite (SFcompare_antisym x y).
  destruct (SFcompare x y) as [[]|]; simpl; congruence.
Qed.

Lemma le_not_NaN (x y : Number) : le x y = true -> isNaN x = false /\ isNaN y = false.
Proof.
  unfold le, SFleb. destruct x as [[]|[]| |[] mx ex], y as [[]|[]| |[] my ey]; simpl; intros; try discriminate; auto.
Qed.

Lemma SFcompare_Eq_trans (x y z : Number) c :
  SFcompare x y = Some Eq -> SFcompare y z = Some c -> SFcompare x z = Some c.
Proof.
  destruct x as [[]|[]| |[] mx ex], y as [[]|[]| |[] my ey]; simpl; try discriminate;
  destruct z as [[]|[]| |[] mz ez]; simpl; try discriminate; try (intros; assumption);
  destruct (Z.compare_spec ex ey); try discriminate; subst;
  change (Pos.compare_cont Eq mx my) with (Pos.compare mx my);
  destruct (Pos.compare_spec mx my); try discriminate; subst; auto.
Qed.

Lemma SFcompare_Lt_trans (x y z : Number) :
  SFcompare x y = Some Lt -> SFcompare y z = Some Lt -> SFcompare x z = Some Lt.
Proof.
  destruct x as [[]|[]| |[] mx ex], y as [[]|[]| |[] my ey]; simpl; try discriminate;
  destruct z as [[]|[]| |[] mz ez]; simpl; try discriminate; try reflexivity;
  change (Pos.compare_cont Eq) with Pos.compare;
  destruct (Z.compare_spec ex ey); try discriminate;
  destruct (Z.compare_spec ey ez); try discriminate;
  destruct (Z.compare_spec ex ez); try lia; try reflexivity;
  destruct (Pos.compare_spec mx my); try discriminate;
  destruct (Pos.compare_spec my mz); try discriminate;
  destruct (Pos.compare_spec mx mz); try lia; try reflexivity.
Qed.

Lemma le_trans (x y z : Number) : le x y = true -> le y z = true -> le x z = true.
Proof.
  unfold le, SFleb. intros Hxy Hyz.
  destruct (SFcompare x y) as [[]|] eqn:Exy; try discriminate;
  destruct (SFcompare y z) as [[]|] eqn:Eyz; try discriminate.
  - rewrite (SFcompare_Eq_trans x y z _ Exy Eyz). reflexivity.
  - rewrite (SFcompare_Eq_trans x y z _ Exy Eyz). reflexivity.
  - assert (SFcompare z y = Some Eq) as E by (rewrite SFcompare_antisym, Eyz; reflexivity).
    assert (SFcompare y x = Some Gt) as E' by (rewrite SFcompare_antisym, Exy; reflexivity).
    pose proof (SFcompare_Eq_trans z y x _ E E') as H.
    rewrite SFcompare_antisym, H. reflexivity.
  - rewrite (SFcompare_Lt_trans x y z Exy Eyz). reflexivity.
Qed.

End NumberOrder.

(** ** Strings *)

Section StringFacts.

Lemma truthy_nonempty (s : string) : truthy s = true <-> s <> "".
Proof. destruct s; simpl; split; congruence. Qed.

End StringFacts.

(** ** The filter pass *)

Section FilterFacts.

Lemma filter_sublist {A} (f : A -> bool) (l : list A) : sublist (List.filter f l) l.
Proof.
  induction l as [|a l IH]; simpl.
  - constructor.
  - destruct (f a); [apply sublist_skip | apply sublist_cons]; exact IH.
Qed.

Lemma elem_of_filter {A} (f : A -> bool) (l : list A) (a : A) :
  a ∈ List.filter f l <-> a ∈ l /\ f a = true.
Proof. rewrite !list_elem_of_In. apply filter_In. Qed.

Import Globe.

Lemma filterM_cons {A} (f : A -> option bool) (a : A) (l r : list A) :
  filterM f (a :: l) = Some r <->
  exists kept rest,
    f a = Some kept /\ filterM f l = Some rest /\ r = if kept then a :: rest else rest.
Proof.
  cbn [filterM]. destruct (f a) as [kept|]; cbn.
  - destruct (filterM f l) as [rest|]; cbn.
    + split; [intros H; injection H as <-; eauto|].
      intros (k & r' & Hk & Hr & ->). injection Hk as <-. injection Hr as <-. reflexivity.
    + split; [discriminate | intros (k & r' & _ & Hr & _); discriminate Hr].
  - split; [discriminate | intros (k & r' & Hk & _); discriminate Hk].
Qed.

Lemma filterM_sublist {A} (f : A -> option bool) (l r : list A) :
  filterM f l = Some r -> sublist r l.
Proof.
  revert r. induction l as [|a l IH]; intros r H.
  - injection H as <-. constructor.
  - apply filterM_cons in H as (kept & rest & _ & Hr & ->).
    destruct kept; [apply sublist_skip | apply sublist_cons]; apply IH, Hr.
Qed.

Lemma elem_of_filterM {A} (f : A -> option bool) (l r : list A) (x : A) :
  filterM f l = Some r -> x ∈ r <-> x ∈ l /\ f x = Some true.
Proof.
  revert r. induction l as [|a l IH]; intros r H.
  - injection H as <-. split; [intros Hx; inversion Hx | intros [Hx _]; inversion Hx].
  - apply filterM_cons in H as (kept & rest & Hk & Hr & ->).
    specialize (IH rest Hr). rewrite elem_of_cons. destruct kept.
    + rewrite elem_of_cons, IH. split.
      * intros [-> | [Hin Hx]]; [split; [left; reflexivity | exact Hk] | split; [right|]; assumption].
      * intros [[-> | Hin] Hx]; [left; reflexivity | right; split; assumption].
    + rewrite IH. split.
      * intros [Hin Hx]. split; [right|]; assumption.
      * intros [[-> | Hin] Hx]; [congruence | split; assumption].
Qed.

Lemma filterM_again {A} (f : A -> option bool) (l r : list A) :
  filterM f l = Some r -> filterM f r = Some r.
Proof.
  revert r. induction l as [|a l IH]; intros r H.
  - injection H as <-. reflexivity.
  - apply filterM_cons in H as (kept & rest & Hk & Hr & ->).
    specialize (IH rest Hr). destruct kept; [|exact IH].
    cbn [filterM]. rewrite Hk, IH. reflexivity.
Qed.

End FilterFacts.

Section FilterTheorems.

Import Globe.

Variable toLowerCase : string -> string.
Variable Date_parse : string -> Number.

(** C1. The filter pass on a list that holds an event whose place is null,
    with a term in the search box.  The event passes the magnitude, date and
    region tests and reaches the search test, where the callback throws a
    TypeError; the pass ends there and yields no list, whatever the other
    events are. *)
Theorem applyFilters_null_place_throws :
  place Samples.unnamed = None /\
  searchTerm Samples.searching = "tokyo" /\
  keeps toLowerCase Date_parse Samples.searching Samples.unnamed = None /\
  applyFilters toLowerCase Date_parse [Samples.tokyo; Samples.unnamed] Samples.searching
    = None /\
  (forall before after,
     applyFilters toLowerCase Date_parse (before ++ Samples.unnamed :: after)
       Samples.searching = None).
Proof.
  assert (keeps toLowerCase Date_parse Samples.searching Samples.unnamed = None) as Hk
    by reflexivity.
  assert (forall before after,
     applyFilters toLowerCase Date_parse (before ++ Samples.unnamed :: after)
       Samples.searching = None) as Hall.
  { intros before after. unfold applyFilters.
    induction before as [|a before IH]; cbn [app filterM].
    - rewrite Hk. reflexivity.
    - rewrite IH. destruct (keeps _ _ _ a); reflexivity. }
  split; [reflexivity|]. split; [reflexivity|]. split; [exact Hk|].
  split; [exact (Hall [Samples.tokyo] []) | exact Hall].
Qed.

(** C8. Filtering the filtered list again under the same filter state
    changes nothing: the second pass yields what the first did (and throws
    if the first did), and every event of the filtered list passes the
    callback again. *)
Theorem applyFilters_idempotent (earthquakes : list Earthquake) (filters : Filters) :
  (filtered ← applyFilters toLowerCase Date_parse earthquakes filters;
   applyFilters toLowerCase Date_parse filtered filters)
    = applyFilters toLowerCase Date_parse earthquakes filters /\
  (forall filtered,
     applyFilters toLowerCase Date_parse earthquakes filters = Some filtered ->
     applyFilters toLowerCase Date_parse filtered filters = Some filtered /\
     Forall (fun eq => keeps toLowerCase Date_parse filters eq = Some true) filtered).
Proof.
  unfold applyFilters. split.
  - destruct (filterM _ earthquakes) as [filtered|] eqn:E; [|reflexivity].
    cbn. apply (filterM_again _ _ _ E).
  - intros filtered E. split; [apply (filterM_again _ _ _ E)|].
    apply Forall_forall. intros eq Hin. apply (elem_of_filterM _ _ _ _ E) in Hin. apply Hin.
Qed.

(** C10. A null magnitude is compared as the number 0: an event whose
    magnitude is null is rejected by the callback, and so dropped by the
    pass, under every filter state whose [minMagnitude] is above 0, and the
    initial filter state, with [minMagnitude] 4.5, is one of them. *)
Theorem null_magnitude_filtered_out :
  ToNumber null = pzero /\
  (forall (earthquakes : list Earthquake) (filters : Filters) (eq : Earthquake),
     magnitude eq = null ->
     (minMagnitude filters > pzero)%js = true ->
     keeps toLowerCase Date_parse filters eq = Some false /\
     forall filtered,
       applyFilters toLowerCase Date_parse earthquakes filters = Some filtered ->
       eq ∉ filtered) /\
  minMagnitude initialFilters = decimal 45 10 /\
  (minMagnitude initialFilters > pzero)%js = true.
Proof.
  split; [reflexivity|]. split; [|split; reflexivity].
  intros earthquakes filters eq Hnull Hmin.
  assert (keeps toLowerCase Date_parse filters eq = Some false) as Hk.
  { unfold keeps. rewrite Hnull. unfold gt in Hmin.
    cbn [ToNumber]. unfold lt at 1. rewrite Hmin. reflexivity. }
  split; [exact Hk|]. intros filtered E Hin.
  apply (elem_of_filterM _ _ _ _ E) in Hin. destruct Hin as [_ Hk']. congruence.
Qed.

End FilterTheorems.

Section RegionTheorems.

Import Globe.

(** C5. The region "all" holds of every event; "americas" holds exactly when
    [-180 <= lng <= -30], so that an event at longitude 100, latitude 0 fails
    it; and each of the other region tags of the selector rejects an event:
    the one at (lat 0, lng 0) for "pacific-ring" and "asia-pacific", the one
    at (lat 0, lng 100) for "americas", "europe-africa" and "atlantic", each
    outside the longitudes the rule names. *)
Theorem region_predicates :
  (forall eq, isInRegion eq "all" = true) /\
  (forall eq, isInRegion eq "americas" = true <->
              (lng eq >= ofZ (-180))%js = true /\ (lng eq <= ofZ (-30))%js = true) /\
  (forall eq, lng eq = ofZ 100 -> lat eq = ofZ 0 -> isInRegion eq "americas" = false) /\
  (forall tag, tag ∈ regions.*1 -> tag <> "all" ->
     exists lat0 lng0, forall eq, lat eq = lat0 -> lng eq = lng0 ->
       isInRegion eq tag = false).
Proof.
  split; [reflexivity|]. split; [|split].
  - intros eq. unfold isInRegion. simpl. apply andb_true_iff.
  - intros eq Hlng _. unfold isInRegion. simpl. rewrite Hlng. reflexivity.
  - intros tag Hin Hne. simpl in Hin.
    repeat (apply elem_of_cons in Hin; destruct Hin as [->|Hin]); try congruence.
    + exists (ofZ 0), (ofZ 0). intros eq Hlat Hlng. unfold isInRegion. simpl. rewrite Hlat, Hlng. reflexivity.
    + exists (ofZ 0), (ofZ 100). intros eq Hlat Hlng. unfold isInRegion. simpl. rewrite Hlng. reflexivity.
    + exists (ofZ 0), (ofZ 0). intros eq Hlat Hlng. unfold isInRegion. simpl. rewrite Hlat, Hlng. reflexivity.
    + exists (ofZ 0), (ofZ 100). intros eq Hlat Hlng. unfold isInRegion. simpl. rewrite Hlng. reflexivity.
    + exists (ofZ 0), (ofZ 100). intros eq Hlat Hlng. unfold isInRegion. simpl. rewrite Hlat, Hlng. reflexivity.
    + inversion Hin.
Qed.

(** C9. For a longitude between -180 and 180, "pacific-ring" holds exactly
    when [lng >= 120] or [lng <= -100], whatever the latitude: the third,
    latitude-bounded disjunct adds nothing to the first two. *)
Theorem pacific_ring_longitude_only (eq : EarthquakeEvent) :
  (lng eq >= ofZ (-180))%js = true ->
  (lng eq <= ofZ 180)%js = true ->
  isInRegion eq "pacific-ring" = ((lng eq >= ofZ 120) || (lng eq <= ofZ (-100)))%js /\
  (forall eq', lng eq' = lng eq -> isInRegion eq' "pacific-ring" = isInRegion eq "pacific-ring") /\
  ((lat eq >= ofZ (-60)) && (lat eq <= ofZ 70) && ((lng eq >= ofZ 120) || (lng eq <= ofZ (-100))) = true ->
   (lng eq >= ofZ 120) && (lng eq <= ofZ 180) || (lng eq >= ofZ (-180)) && (lng eq <= ofZ (-100)) = true)%js.
Proof.
  intros Hlo Hhi.
  assert (forall e, lng e = lng eq ->
            isInRegion e "pacific-ring" = ((lng eq >= ofZ 120) || (lng eq <= ofZ (-100)))%js) as H.
  { intros e He. unfold isInRegion. simpl. rewrite He, Hlo, Hhi.
    destruct (lng eq >= ofZ 120)%js, (lng eq <= ofZ (-100))%js,
      (lat e >= ofZ (-60))%js, (lat e <= ofZ 70)%js; reflexivity. }
  split; [apply H; reflexivity|]. split.
  - intros eq' He. rewrite (H eq' He), (H eq eq_refl). reflexivity.
  - rewrite Hlo, Hhi.
    destruct (lng eq >= ofZ 120)%js, (lng eq <= ofZ (-100))%js,
      (lat eq >= ofZ (-60))%js, (lat eq <= ofZ 70)%js; simpl; congruence.
Qed.

End RegionTheorems.

Section AnimationTheorems.

Import Globe.


Lemma clearInterval_sublist h l : sublist (clearInterval h l) l.
Proof. destruct h; simpl; [apply filter_sublist | reflexivity]. Qed.




End AnimationTheorems.

(** ** Calendar *)

Section CalendarFacts.

#[local] Ltac Zify.zify_post_hook ::= Z.to_euclidean_division_equations.

Lemma DayFromYear_succ (y : Z) : DayFromYear (y + 1) = DayFromYear y + DaysInYear y.
Proof.
  unfold DayFromYear, DaysInYear.
  repeat match goal with |- context [?a =? ?b] => destruct (Z.eqb_spec a b) end;
    simpl; lia.
Qed.

Lemma YearFromDay_spec (day : Z) :
  DayFromYear (YearFromDay day) <= day < DayFromYear (YearFromDay day + 1).
Proof.
  unfold YearFromDay.
  repeat match goal with
         | |- context [?a <? ?b] => destruct (Z.ltb_spec a b)
         | |- context [?a <=? ?b] => destruct (Z.leb_spec a b)
         end;
    unfold DayFromYear in *; lia.
Qed.

Lemma DaysInYear_cases (y : Z) : DaysInYear y = 365 \/ DaysInYear y = 366.
Proof. unfold DaysInYear. repeat destruct (negb _); auto. Qed.

Lemma DayWithinYear_range (t : Z) :
  0 <= DayWithinYear t < DaysInYear (YearFromTime t).
Proof.
  unfold DayWithinYear, YearFromTime.
  pose proof (YearFromDay_spec (Day t)) as H. rewrite DayFromYear_succ in H. lia.
Qed.

Lemma MonthFromTime_range (t : Z) : 0 <= MonthFromTime t <= 11.
Proof.
  unfold MonthFromTime.
  repeat match goal with |- context [?a <? ?b] => destruct (Z.ltb_spec a b) end; lia.
Qed.

Lemma DateFromTime_range (t : Z) : 1 <= DateFromTime t <= 31.
Proof.
  pose proof (DayWithinYear_range t) as Hd.
  unfold DateFromTime, MonthFromTime, InLeapYear in *.
  destruct (DaysInYear_cases (YearFromTime t)) as [E|E]; rewrite E in *; simpl;
  repeat match goal with |- context [?a <? ?b] => destruct (Z.ltb_spec a b) end; lia.
Qed.

(** Rebuilding the day from its year, month and date, [k] days later. *)
Lemma MakeDay_shift (t k : Z) :
  MakeDay (YearFromTime t) (MonthFromTime t) (DateFromTime t + k) = Day t + k.
Proof.
  pose proof (DayWithinYear_range t) as Hd.
  unfold MakeDay, DateFromTime, MonthFromTime, InLeapYear, DaysBeforeMonth, DayWithinYear in *.
  destruct (DaysInYear_cases (YearFromTime t)) as [E|E]; rewrite E in *; simpl;
  repeat match goal with |- context [?a <? ?b] => destruct (Z.ltb_spec a b) end;
  simpl; rewrite ?Z.add_0_r, ?E; simpl; lia.
Qed.

Lemma MakeDate_shift (t k : Z) :
  MakeDate (Day t + k) (TimeWithinDay t) = t + k * msPerDay.
Proof. unfold MakeDate, Day, TimeWithinDay, msPerDay. lia. Qed.

Lemma Day_shift (t k : Z) : Day (t + k * msPerDay) = Day t + k.
Proof. unfold Day, msPerDay. lia. Qed.

(** In a zone whose offset does not change, [setDate(getDate() + k)] moves
    the instant by [k] whole days. *)
Lemma setDate_fixed_offset (LocalTZA : Z -> bool -> Z) (offset t k : Z) :
  (forall u b, LocalTZA u b = offset) ->
  setDate LocalTZA t (getDate LocalTZA t + k) = clip (t + k * msPerDay).
Proof.
  intros Htz. unfold setDate, getDate, LocalTime, UTC. rewrite !Htz.
  rewrite MakeDay_shift, MakeDate_shift. f_equal. lia.
Qed.

End CalendarFacts.

(** ** The proxy *)

Section ProxyFacts.

Import Proxy ProxySpec.

Variable LocalTZA : Z -> bool -> Z.
Variable engineMessage : Thrown -> string.
Variable Date_parse : value -> TimeValue.

Lemma mapM_returned {A B} (f : A -> completion B) (R : A -> B -> Prop) (l : list A) :
  Forall (fun a => exists b, f a = returned b /\ R a b) l ->
  exists bs, mapM f l = returned bs /\ Forall2 R l bs.
Proof.
  induction 1 as [|a l (b & Hb & HR) _ (bs & Hbs & HF)]; simpl.
  - exists []. split; [reflexivity | constructor].
  - exists (b :: bs). rewrite Hb. simpl. rewrite Hbs. split; [reflexivity|].
    constructor; assumption.
Qed.

Lemma processFeature_emitted (feature : value) :
  isFeature Date_parse feature ->
  exists event, processFeature Date_parse feature = returned event /\
                emitted Date_parse feature event.
Proof.
  intros (members & geometry & coords & props & -> & Hg & Hc & Hp & [iso Hiso]).
  unfold processFeature. simpl. rewrite Hg. simpl. rewrite Hc, Hp. simpl.
  unfold toISOString_or_throw. rewrite Hiso. simpl.
  eexists. split; [reflexivity|].
  exists members, geometry, coords, props. simpl. rewrite Hiso.
  repeat split; assumption.
Qed.

Lemma ok_not_failure (status : nat) : ok status = false -> status <> 200%nat.
Proof. intros H ->. discriminate H. Qed.



Lemma get_optional_returns (base : value) (key : string) :
  exists v, get_optional base key = returned v.
Proof. destruct base; simpl; eauto. Qed.

Lemma processData_object (members : list (string * value)) (events : list EarthquakeEvent) :
  processFeatures Date_parse (member "features" members) = returned events ->
  exists metadata,
    processData Date_parse (object members) =
      returned {| statusCode := 200; body := success (length events) events metadata |}.
Proof.
  intros H. unfold processData. cbn [get mbind completion_bind]. rewrite H.
  cbn [mbind completion_bind].
  destruct (get_optional_returns (member "metadata" members) "generated") as [g ->].
  destruct (get_optional_returns (member "metadata" members) "url") as [u ->].
  destruct (get_optional_returns (member "metadata" members) "title") as [t ->].
  destruct (get_optional_returns (member "metadata" members) "count") as [c ->].
  eexists. reflexivity.
Qed.

(** C2. From a parsed body whose [features] are features, the proxy replies
    200 with one event per feature, in the order of the features: the event
    of a feature has [lat = coordinates[1]], [lng = coordinates[0]],
    [depth = coordinates[2]], the fields magnitude, place, time, title, url,
    tsunami, type, status and updated of its properties ([mag] for the
    magnitude), and for [timeString] the ISO-8601 rendering of [time].  From
    a body without [features] it replies 200 with no event. *)
Theorem features_to_events (members : list (string * value)) (status : nat) :
  ok status = true ->
  (forall features,
     member "features" members = array features ->
     Forall (isFeature Date_parse) features ->
     exists events metadata,
       respond engineMessage Date_parse (fetch_resolved status (returned (object members))) =
         {| statusCode := 200; body := success (length features) events metadata |} /\
       length events = length features /\
       Forall2 (emitted Date_parse) features events /\
       (forall i feature, features !! i = Some feature ->
          exists event, events !! i = Some event /\ emitted Date_parse feature event)) /\
  (member "features" members = undefined ->
     exists metadata,
       respond engineMessage Date_parse (fetch_resolved status (returned (object members))) =
         {| statusCode := 200; body := success 0 [] metadata |}).
Proof.
  intros Hok. unfold respond, receive. rewrite Hok. simpl. split.
  - intros features Hf Hall.
    destruct (mapM_returned (processFeature Date_parse) (emitted Date_parse) features)
      as (events & Hm & HF).
    { eapply Forall_impl; [exact Hall|]. intros f Hfeat.
      apply processFeature_emitted, Hfeat. }
    destruct (processData_object members events) as [metadata Hd].
    { unfold processFeatures. rewrite Hf. simpl. exact Hm. }
    exists events, metadata. change (mbind (processData Date_parse) (returned (object members)))
      with (processData Date_parse (object members)). rewrite Hd. simpl.
    pose proof (Forall2_length _ _ _ HF) as Hlen.
    split; [rewrite Hlen; reflexivity|]. split; [symmetry; exact Hlen|]. split; [exact HF|].
    intros i feature Hi. eapply Forall2_lookup_l in HF; [|exact Hi].
    destruct HF as (event & He & Hem). exists event. split; assumption.
  - intros Hf. destruct (processData_object members []) as [metadata Hd].
    { unfold processFeatures. rewrite Hf. reflexivity. }
    exists metadata. change (mbind (processData Date_parse) (returned (object members)))
      with (processData Date_parse (object members)). rewrite Hd. reflexivity.
Qed.

(** C3. When the upstream answers with a status outside 200..299, the proxy
    replies 500 with a failure body, which holds the error text and, as
    details, the message with the upstream status, and holds no earthquake
    list; the one request it issued is the only one: nothing is tried again.
    For the status 503 the details read "USGS API responded with status
    503". *)
Theorem upstream_failure_reply (status : nat) (json : completion value) :
  ok status = false ->
  respond engineMessage Date_parse (fetch_resolved status json) =
    {| statusCode := 500;
       body := failure "Failed to fetch earthquake data"
                 ("USGS API responded with status " +:+ showNat status) |} /\
  (forall query now params upstream,
     buildParams LocalTZA query now = returned params ->
     upstream (upstreamRequest params) = fetch_resolved status json ->
     run (handler LocalTZA engineMessage Date_parse query now) upstream =
       ({| statusCode := 500;
           body := failure "Failed to fetch earthquake data"
                     ("USGS API responded with status " +:+ showNat status) |},
        [upstreamRequest params])) /\
  (status = 503%nat ->
   "USGS API responded with status " +:+ showNat status = "USGS API responded with status 503").
Proof.
  intros Hok.
  assert (respond engineMessage Date_parse (fetch_resolved status json) =
    {| statusCode := 500;
       body := failure "Failed to fetch earthquake data"
                 ("USGS API responded with status " +:+ showNat status) |}) as H.
  { unfold respond, receive. rewrite Hok. reflexivity. }
  split; [exact H|]. split.
  - intros query now params upstream Hp Hu. unfold handler. rewrite Hp. simpl.
    rewrite Hu, H. reflexivity.
  - intros ->. reflexivity.
Qed.

End ProxyFacts.

(** ** Rendering *)

Section RenderingFacts.

Lemma padded_S (w : nat) (n : Z) :
  padded (S w) n = padded w (n / 10) +:+ String (digit n) "".
Proof. reflexivity. Qed.

#[local] Arguments digit : simpl never.
#[local] Arguments padded : simpl never.

Lemma app_cons (c : ascii) (a b : string) : String c a +:+ b = String c (a +:+ b).
Proof. reflexivity. Qed.

Lemma length_app (a b : string) :
  String.length (a +:+ b) = (String.length a + String.length b)%nat.
Proof.
  induction a as [|c a IH]; [reflexivity|].
  rewrite app_cons. cbn [String.length]. rewrite IH. reflexivity.
Qed.

Lemma length_padded (width : nat) (n : Z) : String.length (padded width n) = width.
Proof.
  revert n. induction width as [|w IH]; intros n; [reflexivity|].
  rewrite padded_S, length_app, IH. simpl. lia.
Qed.

Lemma before_T_app (a b : string) :
  Proxy.before_T a = a -> Proxy.before_T (a +:+ b) = a +:+ Proxy.before_T b.
Proof.
  induction a as [|c a IH]; [reflexivity|].
  rewrite app_cons. cbn [Proxy.before_T].
  destruct (Ascii.eqb c "T"); [discriminate|].
  intros H. injection H as H. rewrite (IH H). reflexivity.
Qed.

Lemma digit_not_T (n : Z) : Ascii.eqb (digit n) "T" = false.
Proof.
  unfold digit. pose proof (Z.mod_pos_bound n 10 eq_refl) as H.
  assert (Z.to_nat (n mod 10) < 10)%nat as Hk by lia.
  revert Hk. generalize (Z.to_nat (n mod 10)). intros k Hk.
  do 10 (destruct k as [|k]; [reflexivity|]). lia.
Qed.

Lemma before_T_padded (width : nat) (n : Z) :
  Proxy.before_T (padded width n) = padded width n.
Proof.
  revert n. induction width as [|w IH]; intros n; [reflexivity|].
  rewrite padded_S, before_T_app by apply IH. cbn [Proxy.before_T]. rewrite digit_not_T. reflexivity.
Qed.

Lemma before_T_isoDate (t : Z) : Proxy.before_T (isoDate t) = isoDate t.
Proof.
  unfold isoDate.
  assert (Proxy.before_T (isoYear (YearFromTime t)) = isoYear (YearFromTime t)) as Hy.
  { unfold isoYear. destruct (_ && _); [apply before_T_padded|].
    destruct (_ <? _); rewrite before_T_app by reflexivity;
      rewrite before_T_padded; reflexivity. }
  rewrite before_T_app by exact Hy.
  rewrite (before_T_app "-") by reflexivity.
  rewrite before_T_app by apply before_T_padded.
  rewrite (before_T_app "-") by reflexivity.
  rewrite before_T_padded. reflexivity.
Qed.

(** [toISOString().split('T')[0]] is the date part. *)
Lemma append_nil_r (s : string) : s +:+ "" = s.
Proof. induction s as [|c s IH]; [reflexivity | rewrite app_cons, IH; reflexivity]. Qed.

Lemma before_T_toISOString (t : Z) (iso : string) :
  toISOString (Some t) = Some iso -> Proxy.before_T iso = isoDate t.
Proof.
  intros H. injection H as <-.
  rewrite before_T_app by apply before_T_isoDate.
  change (Proxy.before_T ("T" +:+ isoTime t +:+ "Z")) with "".
  apply append_nil_r.
Qed.

Lemma isoDate_shape (t : Z) :
  0 <= YearFromTime t <= 9999 ->
  isoDate t = padded 4 (YearFromTime t) +:+ "-" +:+ padded 2 (MonthFromTime t + 1)
                +:+ "-" +:+ padded 2 (DateFromTime t) /\
  String.length (isoDate t) = 10%nat.
Proof.
  intros [Hlo Hhi]. unfold isoDate, isoYear.
  destruct (Z.leb_spec 0 (YearFromTime t)); [|lia].
  destruct (Z.leb_spec (YearFromTime t) 9999); [|lia]. cbn [andb].
  split; [reflexivity|].
  rewrite !length_app, !length_padded. reflexivity.
Qed.

End RenderingFacts.

Section QueryTheorems.

Import Proxy ProxySpec.

(** C7. The default start date on a server in the eastern zone of the
    United States, at 2024-03-20T23:30Z (19:30 of March 20 there), for a
    request without parameters.  The handler builds format=geojson,
    minmagnitude=4.5, limit=1000, orderby=time and starttime=2024-02-20.
    Today is March 20 in UTC and in local time alike, and thirty days before
    is February 19 in both: the start date sent is a day late, because the
    local date is moved back over the change of offset of March 10 and then
    rendered in UTC. *)
Theorem default_starttime_day_off :
  buildParams easternOffset Samples.noQuery 1710977400000 =
    returned [("format", "geojson"); ("minmagnitude", "4.5"); ("limit", "1000");
              ("orderby", "time"); ("starttime", "2024-02-20")] /\
  isoDate 1710977400000 = "2024-03-20" /\
  isoDate (LocalTime easternOffset 1710977400000) = "2024-03-20" /\
  isoDate (1710977400000 - 30 * msPerDay) = "2024-02-19" /\
  isoDate (LocalTime easternOffset 1710977400000 - 30 * msPerDay) = "2024-02-19".
Proof. repeat split; vm_compute; reflexivity. Qed.

End QueryTheorems.

(** ** Rounding *)

Section RoundingFacts.

Import Rounding.

Lemma digits2_bounds (m : positive) :
  2 ^ (Z.pos (digits2_pos m) - 1) <= Z.pos m < 2 ^ Z.pos (digits2_pos m).
Proof.
  induction m as [m IH|m IH|]; cbn [digits2_pos].
  - rewrite Pos2Z.inj_succ. replace (Z.succ (Z.pos (digits2_pos m)) - 1) with (Z.succ (Z.pos (digits2_pos m) - 1)) by lia.
    rewrite !Z.pow_succ_r by lia. lia.
  - rewrite Pos2Z.inj_succ. replace (Z.succ (Z.pos (digits2_pos m)) - 1) with (Z.succ (Z.pos (digits2_pos m) - 1)) by lia.
    rewrite !Z.pow_succ_r by lia. lia.
  - simpl. lia.
Qed.

#[local] Ltac Zify.zify_post_hook ::= Z.to_euclidean_division_equations.

Lemma shr_1_nonneg (m : Z) (r s : bool) :
  0 <= m ->
  shr_1 {| shr_m := m; shr_r := r; shr_s := s |} =
    {| shr_m := m / 2; shr_r := Z.odd m; shr_s := r || s |}.
Proof.
  intros Hm. destruct m as [|[p|p|]|p]; try lia; cbn [shr_1 Z.odd]; f_equal; lia.
Qed.

Lemma shr_n_add (a b : nat) (mrs : shr_record) :
  shr_n (a + b) mrs = shr_n a (shr_n b mrs).
Proof. induction a as [|a IH]; simpl; [reflexivity | rewrite IH; reflexivity]. Qed.

Lemma shr_n_shr_1 (k : nat) (mrs : shr_record) :
  shr_n k (shr_1 mrs) = shr_1 (shr_n k mrs).
Proof. induction k as [|k IH]; simpl; [reflexivity | rewrite IH; reflexivity]. Qed.

Lemma iter_pos_shr_n (p : positive) (mrs : shr_record) :
  SpecFloat.iter_pos shr_1 p mrs = shr_n (Pos.to_nat p) mrs.
Proof.
  revert mrs. induction p as [p IH|p IH|]; intros mrs; cbn [SpecFloat.iter_pos].
  - rewrite !IH, Pos2Nat.inj_xI. rewrite <- shr_n_add, shr_n_shr_1.
    replace (2 * Pos.to_nat p)%nat with (Pos.to_nat p + Pos.to_nat p)%nat by lia. reflexivity.
  - rewrite !IH, Pos2Nat.inj_xO, <- shr_n_add.
    replace (2 * Pos.to_nat p)%nat with (Pos.to_nat p + Pos.to_nat p)%nat by lia. reflexivity.
  - reflexivity.
Qed.

(** After [k+1] shifts of [p]: the quotient, whether the remainder reaches
    the half, and whether anything lies below the half. *)
Lemma shr_n_exact (k : nat) (p : Z) :
  0 <= p ->
  shr_n (S k) {| shr_m := p; shr_r := false; shr_s := false |} =
    {| shr_m := p / 2 ^ Z.of_nat (S k);
       shr_r := 2 ^ Z.of_nat k <=? p mod 2 ^ Z.of_nat (S k);
       shr_s := negb ((p mod 2 ^ Z.of_nat (S k)) mod 2 ^ Z.of_nat k =? 0) |}.
Proof.
  intros Hp. induction k as [|k IH].
  - cbn [shr_n]. rewrite shr_1_nonneg by exact Hp. change (2 ^ Z.of_nat 1) with 2.
    change (2 ^ Z.of_nat 0) with 1. f_equal.
    + pose proof (Zmod_odd p) as Ho.
      destruct (Z.odd p), (Z.leb_spec 1 (p mod 2)); try reflexivity; lia.
    + rewrite Z.mod_1_r. reflexivity.
  - set (K := S k) in *. cbn [shr_n]. rewrite IH.
    assert (0 < 2 ^ Z.of_nat K) as HK by (apply Z.pow_pos_nonneg; lia).
    assert (0 < 2 ^ Z.of_nat k) as Hk by (apply Z.pow_pos_nonneg; lia).
    assert (2 ^ Z.of_nat K = 2 * 2 ^ Z.of_nat k) as EK
      by (unfold K; rewrite Nat2Z.inj_succ, Z.pow_succ_r by lia; reflexivity).
    assert (2 ^ Z.of_nat (S K) = 2 ^ Z.of_nat K * 2) as ESK
      by (rewrite Nat2Z.inj_succ, Z.pow_succ_r by lia; lia).
    rewrite shr_1_nonneg by (apply Z.div_pos; lia).
    rewrite ESK. rewrite <- Z.div_div by lia.
    rewrite (Z.rem_mul_r p (2 ^ Z.of_nat K) 2) by lia.
    set (q := p / 2 ^ Z.of_nat K). set (d := p mod 2 ^ Z.of_nat K).
    assert (0 <= d < 2 ^ Z.of_nat K) as Hd by (apply Z.mod_pos_bound; lia).
    assert (0 <= q mod 2 < 2) as Hq by (apply Z.mod_pos_bound; lia).
    f_equal.
    + pose proof (Zmod_odd q) as Ho.
      destruct (Z.odd q), (Z.leb_spec (2 ^ Z.of_nat K) (d + 2 ^ Z.of_nat K * (q mod 2)));
        try reflexivity; rewrite Ho in *; lia.
    + replace ((d + 2 ^ Z.of_nat K * (q mod 2)) mod 2 ^ Z.of_nat K) with d.
      2:{ rewrite Z.mul_comm, Z.mod_add by lia. symmetry. apply Z.mod_small. lia. }
      destruct (Z.leb_spec (2 ^ Z.of_nat k) d), (Z.eqb_spec (d mod 2 ^ Z.of_nat k) 0),
        (Z.eqb_spec d 0); try reflexivity; simpl.
      * lia.
      * lia.
      * rewrite Z.mod_small in * by lia. lia.
      * rewrite Z.mod_small in * by lia. lia.
Qed.

Lemma rne_of_shr (k : nat) (p : Z) :
  0 <= p ->
  let mrs := shr_n (S k) {| shr_m := p; shr_r := false; shr_s := false |} in
  round_nearest_even (shr_m mrs) (loc_of_shr_record mrs) = rne p (Z.of_nat (S k)).
Proof.
  intros Hp mrs. unfold mrs. rewrite shr_n_exact by exact Hp.
  unfold rne. replace (Z.of_nat (S k) - 1) with (Z.of_nat k) by lia.
  set (K := 2 ^ Z.of_nat (S k)). set (h := 2 ^ Z.of_nat k).
  assert (0 < h) as Hh by (apply Z.pow_pos_nonneg; lia).
  assert (K = 2 * h) as EK
    by (unfold K, h; rewrite Nat2Z.inj_succ, Z.pow_succ_r by lia; reflexivity).
  assert (0 <= p mod K < K) as Hd by (apply Z.mod_pos_bound; lia).
  set (d := p mod K) in *. cbn [shr_m loc_of_shr_record].
  destruct (Z.leb_spec h d) as [Hr|Hr], (Z.eqb_spec (d mod h) 0) as [Hs|Hs];
    cbn [negb round_nearest_even];
    destruct (Z.ltb_spec d h), (Z.ltb_spec h d); try reflexivity; try lia.
  - exfalso. replace d with (d - h + 1 * h) in Hs by lia.
    rewrite Z.mod_add, Z.mod_small in Hs by lia. lia.
  - exfalso. replace d with h in Hs by lia. rewrite Z.mod_same in Hs by lia. lia.
Qed.

Lemma fexp_eq (x : Z) : fexp prec emax x = Z.max (x - 53) (-1074).
Proof. reflexivity. Qed.

Lemma shr_nonpositive (mrs : shr_record) (e n : Z) : n <= 0 -> shr mrs e n = (mrs, e).
Proof. destruct n; [reflexivity | lia | reflexivity]. Qed.

Lemma shr_positive (p e n : Z) :
  0 < n ->
  shr {| shr_m := p; shr_r := false; shr_s := false |} e n =
    (shr_n (Z.to_nat n) {| shr_m := p; shr_r := false; shr_s := false |}, e + n).
Proof.
  intros Hn. destruct n as [|n|n]; try lia. cbn [shr].
  rewrite iter_pos_shr_n. reflexivity.
Qed.

Lemma rne_range (p n : Z) :
  0 <= p -> 0 < n -> p / 2 ^ n <= rne p n <= p / 2 ^ n + 1.
Proof.
  intros Hp Hn. unfold rne.
  destruct (_ <? _); [lia|]. destruct (_ <? _); [lia|]. destruct (Z.even _); lia.
Qed.

Lemma Zdigits2_small (r : Z) : 0 < r < 2 ^ 53 -> Zdigits2 r <= 53.
Proof.
  intros [Hr Hlt]. destruct r as [|m|m]; try lia. cbn [Zdigits2].
  pose proof (digits2_bounds m) as [Hlo _].
  destruct (Z.le_gt_cases (Z.pos (digits2_pos m)) 53) as [H|H]; [exact H|exfalso].
  assert (2 ^ 53 <= 2 ^ (Z.pos (digits2_pos m) - 1)) by (apply Z.pow_le_mono_r; lia).
  lia.
Qed.

(** [binary_round_aux] on a positive mantissa that has to be shifted. *)
Lemma binary_round_aux_shifted (p : positive) (e : Z) :
  let e1 := fexp prec emax (Z.pos (digits2_pos p) + e) in
  e < e1 ->
  binary_round_aux prec emax false (Z.pos p) e loc_Exact =
    pack (rne (Z.pos p) (e1 - e)) e1.
Proof.
  intros e1 He. unfold binary_round_aux.
  assert (shr_fexp prec emax (Z.pos p) e loc_Exact =
          (shr_n (Z.to_nat (e1 - e)) {| shr_m := Z.pos p; shr_r := false; shr_s := false |}, e1))
    as H1.
  { unfold shr_fexp. cbn [Zdigits2 shr_record_of_loc]. fold e1.
    rewrite shr_positive by lia. f_equal. lia. }
  rewrite H1. cbv beta iota zeta.
  destruct (Z.to_nat (e1 - e)) as [|k] eqn:Ek; [lia|].
  rewrite rne_of_shr by lia. rewrite <- Ek, Z2Nat.id by lia.
  set (r := rne (Z.pos p) (e1 - e)).
  assert (-1074 <= e1) as Hmin by (unfold e1; rewrite fexp_eq; lia).
  assert (0 <= r <= 2 ^ 53) as Hr.
  { pose proof (rne_range (Z.pos p) (e1 - e) ltac:(lia) ltac:(lia)) as Hq. fold r in Hq.
    pose proof (digits2_bounds p) as [_ Hhi].
    assert (0 <= Z.pos p / 2 ^ (e1 - e)) by (apply Z.div_pos; [lia | apply Z.pow_pos_nonneg; lia]).
    assert (Z.pos p / 2 ^ (e1 - e) < 2 ^ 53).
    { apply Z.div_lt_upper_bound; [apply Z.pow_pos_nonneg; lia|].
      rewrite <- Z.pow_add_r by lia.
      eapply Z.lt_le_trans; [exact Hhi|]. apply Z.pow_le_mono_r; [lia|].
      unfold e1. rewrite fexp_eq. lia. }
    lia. }
  unfold shr_fexp, pack. cbn [shr_record_of_loc].
  destruct (Z.eqb_spec r (2 ^ 53)) as [E|E].
  - rewrite E. change (Zdigits2 (2 ^ 53)) with 54. rewrite fexp_eq.
    replace (Z.max (54 + e1 - 53) (-1074) - e1) with 1 by lia. reflexivity.
  - destruct (Z.eq_dec r 0) as [E0|E0].
    + rewrite E0. cbn [Zdigits2]. rewrite shr_nonpositive by (rewrite fexp_eq; lia). reflexivity.
    + pose proof (Zdigits2_small r ltac:(lia)) as Hd.
      rewrite shr_nonpositive by (rewrite fexp_eq; lia). cbn [fst snd shr_m].
      destruct r; try lia; reflexivity.
Qed.

Lemma rne_scale (p n j : Z) :
  0 <= p -> 0 < n -> 0 <= j -> rne (p * 2 ^ j) (n + j) = rne p n.
Proof.
  intros Hp Hn Hj. unfold rne.
  assert (0 < 2 ^ j) as Hpj by (apply Z.pow_pos_nonneg; lia).
  assert (0 < 2 ^ n) as Hpn by (apply Z.pow_pos_nonneg; lia).
  assert (0 < 2 ^ (n - 1)) as Hph by (apply Z.pow_pos_nonneg; lia).
  rewrite Z.pow_add_r by lia.
  replace (n + j - 1) with (n - 1 + j) by lia. rewrite (Z.pow_add_r 2 (n - 1) j) by lia.
  rewrite Z.div_mul_cancel_r by lia. rewrite Z.mul_mod_distr_r by lia.
  set (r := p mod 2 ^ n). set (h := 2 ^ (n - 1)). set (q := p / 2 ^ n).
  assert ((r * 2 ^ j <? h * 2 ^ j) = (r <? h)) as ->
    by (destruct (Z.ltb_spec (r * 2 ^ j) (h * 2 ^ j)), (Z.ltb_spec r h); try reflexivity; nia).
  assert ((h * 2 ^ j <? r * 2 ^ j) = (h <? r)) as ->
    by (destruct (Z.ltb_spec (h * 2 ^ j) (r * 2 ^ j)), (Z.ltb_spec h r); try reflexivity; nia).
  reflexivity.
Qed.

Lemma rne_monotone (n p1 p2 : Z) :
  0 < n -> 0 <= p1 <= p2 -> rne p1 n <= rne p2 n.
Proof.
  intros Hn [Hp1 Hle]. unfold rne.
  assert (0 < 2 ^ n) as Hpn by (apply Z.pow_pos_nonneg; lia).
  pose proof (Z.div_le_mono p1 p2 (2 ^ n) Hpn Hle) as Hq.
  pose proof (Z.div_mod p1 (2 ^ n) ltac:(lia)) as E1.
  pose proof (Z.div_mod p2 (2 ^ n) ltac:(lia)) as E2.
  set (q1 := p1 / 2 ^ n) in *. set (q2 := p2 / 2 ^ n) in *.
  set (r1 := p1 mod 2 ^ n) in *. set (r2 := p2 mod 2 ^ n) in *.
  set (h := 2 ^ (n - 1)).
  destruct (Z.eq_dec q1 q2) as [E|E].
  - rewrite <- E in *. assert (r1 <= r2) by lia.
    destruct (Z.ltb_spec r1 h), (Z.ltb_spec r2 h), (Z.ltb_spec h r1), (Z.ltb_spec h r2),
      (Z.even q1); lia.
  - destruct (r1 <? h), (r2 <? h), (h <? r1), (h <? r2), (Z.even q1), (Z.even q2); lia.
Qed.

Lemma gexp_monotone (v1 v2 : Z) : v1 <= v2 -> gexp v1 <= gexp v2.
Proof. intros H. unfold gexp. pose proof (Z.log2_le_mono v1 v2 H). lia. Qed.

Lemma rne_gexp_upper (v : Z) : 0 < v -> rne v (gexp v) <= 9007199254740992.
Proof.
  intros Hv. pose proof (rne_range v (gexp v) ltac:(lia) ltac:(unfold gexp; lia)) as Hq.
  change 9007199254740992 with (2 ^ 53).
  assert (v / 2 ^ gexp v < 2 ^ 53); [|lia].
  apply Z.div_lt_upper_bound; [apply Z.pow_pos_nonneg; unfold gexp; lia|].
  rewrite <- Z.pow_add_r by (unfold gexp; lia).
  destruct (Z.log2_spec v Hv) as [_ Hhi].
  eapply Z.lt_le_trans; [exact Hhi|]. apply Z.pow_le_mono_r; [lia|].
  pose proof (Z.log2_nonneg v). unfold gexp. lia.
Qed.

Lemma rne_gexp_lower (v : Z) : 0 < v -> 55 < gexp v -> 4503599627370496 <= rne v (gexp v).
Proof.
  intros Hv Hg. pose proof (rne_range v (gexp v) ltac:(lia) ltac:(lia)) as Hq.
  change 4503599627370496 with (2 ^ 52).
  assert (2 ^ 52 <= v / 2 ^ gexp v); [|lia].
  apply Z.div_le_lower_bound; [apply Z.pow_pos_nonneg; lia|].
  rewrite <- Z.pow_add_r by lia.
  destruct (Z.log2_spec v Hv) as [Hlo _].
  eapply Z.le_trans; [|exact Hlo]. apply Z.pow_le_mono_r; [lia|]. unfold gexp in *. lia.
Qed.

Lemma pack_zero (e : Z) : pack 0 e = S754_zero false.
Proof. reflexivity. Qed.

Lemma pack_carry (e : Z) :
  pack 9007199254740992 e = finite_or_infinity 4503599627370496 (e + 1).
Proof. reflexivity. Qed.

Lemma pack_plain (m : positive) (e : Z) :
  Z.pos m < 9007199254740992 -> pack (Z.pos m) e = finite_or_infinity m e.
Proof.
  intros H. unfold pack. change (2 ^ 53) with 9007199254740992.
  destruct (Z.eqb_spec (Z.pos m) 9007199254740992); [lia | reflexivity].
Qed.

Lemma finite_or_infinity_le (m1 m2 : positive) (e1 e2 : Z) :
  e1 < e2 \/ (e1 = e2 /\ Z.pos m1 <= Z.pos m2) ->
  SFleb (finite_or_infinity m1 e1) (finite_or_infinity m2 e2) = true.
Proof.
  intros H. unfold finite_or_infinity, SFleb.
  destruct (Z.leb_spec e1 971), (Z.leb_spec e2 971); try reflexivity; [|lia].
  cbn [SFcompare]. change (Pos.compare_cont Eq m1 m2) with (Pos.compare m1 m2).
  destruct (Z.compare_spec e1 e2); [|reflexivity|lia].
  destruct (Pos.compare_spec m1 m2); try reflexivity. lia.
Qed.

Lemma zero_le_finite_or_infinity (m : positive) (e : Z) :
  SFleb (S754_zero false) (finite_or_infinity m e) = true.
Proof. unfold finite_or_infinity. destruct (_ <=? _); reflexivity. Qed.

Lemma pack_le (r1 r2 a1 a2 : Z) :
  0 <= r1 <= 9007199254740992 -> 0 <= r2 <= 9007199254740992 ->
  (a1 = a2 /\ r1 <= r2) \/ (a1 < a2 /\ 4503599627370496 <= r2) ->
  SFleb (pack r1 a1) (pack r2 a2) = true.
Proof.
  intros H1 H2 Hcmp.
  destruct (Z.eq_dec r1 0) as [->|N1].
  { rewrite pack_zero. destruct (Z.eq_dec r2 0) as [->|N2]; [reflexivity|].
    destruct (Z.eq_dec r2 9007199254740992) as [->|C2].
    - rewrite pack_carry. apply zero_le_finite_or_infinity.
    - destruct r2 as [|m2|m2]; try lia. rewrite pack_plain by lia.
      apply zero_le_finite_or_infinity. }
  assert (r2 <> 0) as N2 by lia.
  destruct (Z.eq_dec r1 9007199254740992) as [->|C1];
    destruct (Z.eq_dec r2 9007199254740992) as [->|C2].
  - rewrite !pack_carry. apply finite_or_infinity_le. lia.
  - destruct r2 as [|m2|m2]; try lia. rewrite pack_carry, pack_plain by lia.
    apply finite_or_infinity_le. lia.
  - destruct r1 as [|m1|m1]; try lia. rewrite pack_carry, pack_plain by lia.
    apply finite_or_infinity_le. lia.
  - destruct r1 as [|m1|m1]; try lia. destruct r2 as [|m2|m2]; try lia.
    rewrite !pack_plain by lia. apply finite_or_infinity_le. lia.
Qed.

Lemma rounded_monotone (v1 v2 : Z) :
  0 < v1 <= v2 -> SFleb (rounded v1) (rounded v2) = true.
Proof.
  intros [Hv1 Hle]. unfold rounded.
  pose proof (gexp_monotone v1 v2 Hle) as Hg.
  pose proof (rne_range v1 (gexp v1) ltac:(lia) ltac:(unfold gexp; lia)) as Hq1.
  pose proof (rne_range v2 (gexp v2) ltac:(lia) ltac:(unfold gexp; lia)) as Hq2.
  assert (0 <= v1 / 2 ^ gexp v1) by (apply Z.div_pos; [lia | apply Z.pow_pos_nonneg; unfold gexp; lia]).
  assert (0 <= v2 / 2 ^ gexp v2) by (apply Z.div_pos; [lia | apply Z.pow_pos_nonneg; unfold gexp; lia]).
  apply pack_le.
  - split; [lia | apply rne_gexp_upper; lia].
  - split; [lia | apply rne_gexp_upper; lia].
  - destruct (Z.eq_dec (gexp v1) (gexp v2)) as [E|E].
    + left. split; [lia|]. rewrite E. apply rne_monotone; [unfold gexp; lia | lia].
    + right. split; [lia|]. apply rne_gexp_lower; [lia|]. unfold gexp in *. lia.
Qed.

Lemma pack_nonneg (r e : Z) : 0 <= r -> nonneg (pack r e) = true.
Proof.
  intros Hr. unfold pack. destruct (r =? 2 ^ 53); [cbv iota; destruct (_ <=? _); reflexivity|].
  destruct r; try lia; [reflexivity|]. destruct (_ <=? _); reflexivity.
Qed.

Lemma rounded_nonneg (v : Z) : 0 < v -> nonneg (rounded v) = true.
Proof.
  intros Hv. apply pack_nonneg.
  pose proof (rne_range v (gexp v) ltac:(lia) ltac:(unfold gexp; lia)).
  assert (0 <= v / 2 ^ gexp v) by (apply Z.div_pos; [lia | apply Z.pow_pos_nonneg; unfold gexp; lia]).
  lia.
Qed.

Lemma SFleb_nonpos_nonneg (a b : Number) :
  nonneg (SFopp a) = true -> nonneg b = true -> SFleb a b = true.
Proof.
  destruct a as [[]|[]| |[] ma ea], b as [[]|[]| |[] mb eb]; simpl; try discriminate; reflexivity.
Qed.

Lemma SFleb_opp (a b : Number) : SFleb (SFopp a) (SFopp b) = SFleb b a.
Proof.
  unfold SFleb. rewrite (SFcompare_antisym a b).
  destruct a as [[]|[]| |[] ma ea], b as [[]|[]| |[] mb eb]; simpl; try reflexivity;
    destruct (ea ?= eb); simpl; try reflexivity;
    destruct (Pos.compare_cont Eq ma mb); reflexivity.
Qed.

Lemma binary_round_aux_negative (m e : Z) (l : location) :
  binary_round_aux prec emax true m e l = SFopp (binary_round_aux prec emax false m e l).
Proof.
  unfold binary_round_aux. destruct (shr_fexp prec emax m e l) as [mrs e'].
  destruct (shr_fexp prec emax _ e' loc_Exact) as [mrs' e''].
  destruct (shr_m mrs'); [reflexivity| |reflexivity]. destruct (_ <=? _); reflexivity.
Qed.

Lemma digits2_log2 (p : positive) : Z.pos (digits2_pos p) = Z.log2 (Z.pos p) + 1.
Proof.
  pose proof (digits2_bounds p) as [Hlo Hhi].
  rewrite (Z.log2_unique (Z.pos p) (Z.pos (digits2_pos p) - 1)); [lia | lia |].
  replace (Z.succ (Z.pos (digits2_pos p) - 1)) with (Z.pos (digits2_pos p)) by lia. lia.
Qed.

(** What validity says of a finite number. *)
Lemma valid_finite (s : bool) (m : positive) (e : Z) :
  valid (S754_finite s m e) = true ->
  -1074 <= e <= 971 /\ Z.pos (digits2_pos m) <= 53 /\
  (e = -1074 \/ Z.pos (digits2_pos m) = 53).
Proof.
  unfold valid, valid_binary, bounded, canonical_mantissa. rewrite fexp_eq.
  intros H. apply andb_true_iff in H as [H1 H2].
  apply Z.eqb_eq in H1. apply Z.leb_le in H2. change (emax - prec) with 971 in H2. lia.
Qed.

Lemma scaled_pos (m : positive) (e : Z) : -1074 <= e -> 0 < scaled m e.
Proof.
  intros He. unfold scaled. assert (0 < 2 ^ (e + 1074)) by (apply Z.pow_pos_nonneg; lia). nia.
Qed.

Lemma binary_round_aux_rounded (m : positive) (e : Z) :
  valid (S754_finite false m e) = true ->
  binary_round_aux prec emax false (Z.pos (m * 5404319552844595)) (e + -55) loc_Exact =
    rounded (scaled m e).
Proof.
  intros Hv. apply valid_finite in Hv as (He & Hd & Hc).
  set (P := (m * 5404319552844595)%positive).
  assert (Z.pos (digits2_pos P) >= Z.pos (digits2_pos m) + 52) as HD.
  { pose proof (digits2_bounds m) as [Hlo _]. pose proof (digits2_bounds P) as [_ Hhi].
    destruct (Z.lt_ge_cases (Z.pos (digits2_pos P)) (Z.pos (digits2_pos m) + 52)) as [H|H]; [exfalso|lia].
    assert (2 ^ Z.pos (digits2_pos P) <= 2 ^ (Z.pos (digits2_pos m) - 1 + 52))
      by (apply Z.pow_le_mono_r; lia).
    rewrite Z.pow_add_r in H0 by lia. change (2 ^ 52) with 4503599627370496 in H0.
    assert (Z.pos P = Z.pos m * 5404319552844595) as EP by (unfold P; lia).
    lia. }
  rewrite binary_round_aux_shifted by (rewrite fexp_eq; lia).
  unfold rounded.
  assert (gexp (scaled m e) = fexp prec emax (Z.pos (digits2_pos P) + (e + -55)) + 1129) as Hg.
  { unfold gexp, scaled. rewrite fexp_eq, digits2_log2.
    rewrite <- Pos2Z.inj_mul. fold P.
    rewrite Z.log2_mul_pow2 by lia. lia. }
  rewrite Hg. f_equal; [|lia].
  unfold scaled. rewrite <- Pos2Z.inj_mul. fold P.
  set (n := fexp prec emax (Z.pos (digits2_pos P) + (e + -55)) - (e + -55)).
  replace (fexp prec emax (Z.pos (digits2_pos P) + (e + -55)) + 1129) with (n + (e + 1074))
    by (unfold n; lia).
  symmetry. apply rne_scale; [lia | | lia]. unfold n. rewrite fexp_eq. lia.
Qed.

Lemma scaled_order (m1 m2 : positive) (e1 e2 : Z) :
  valid (S754_finite false m1 e1) = true ->
  valid (S754_finite false m2 e2) = true ->
  SFleb (S754_finite false m1 e1) (S754_finite false m2 e2) = true ->
  scaled m1 e1 <= scaled m2 e2.
Proof.
  intros H1 H2 Hle. apply valid_finite in H1 as (He1 & Hd1 & Hc1).
  apply valid_finite in H2 as (He2 & Hd2 & Hc2).
  unfold SFleb in Hle. cbn [SFcompare] in Hle.
  change (Pos.compare_cont Eq m1 m2) with (Pos.compare m1 m2) in Hle.
  unfold scaled.
  destruct (Z.compare_spec e1 e2) as [E|E|E]; try discriminate.
  - subst e2. destruct (Pos.compare_spec m1 m2); try discriminate;
      assert (0 < 2 ^ (e1 + 1074)) by (apply Z.pow_pos_nonneg; lia); nia.
  - assert (Z.pos (digits2_pos m2) = 53) as D2 by lia.
    pose proof (digits2_bounds m1) as [_ Hhi]. pose proof (digits2_bounds m2) as [Hlo _].
    rewrite D2 in Hlo. change (2 ^ (53 - 1)) with 4503599627370496 in Hlo.
    assert (Z.pos m1 < 9007199254740992).
    { eapply Z.lt_le_trans; [exact Hhi|]. change 9007199254740992 with (2 ^ 53).
      apply Z.pow_le_mono_r; lia. }
    assert (2 * 2 ^ (e1 + 1074) <= 2 ^ (e2 + 1074)).
    { rewrite <- Z.pow_succ_r by lia. apply Z.pow_le_mono_r; lia. }
    assert (0 < 2 ^ (e1 + 1074)) by (apply Z.pow_pos_nonneg; lia). nia.
Qed.

Lemma decimal_15_100 : decimal 15 100 = c015.
Proof. vm_compute. reflexivity. Qed.

Lemma mul_c015_finite (s : bool) (m : positive) (e : Z) :
  valid (S754_finite s m e) = true ->
  mul (S754_finite s m e) c015 =
    if s then SFopp (rounded (scaled m e)) else rounded (scaled m e).
Proof.
  intros Hv. unfold mul, c015. cbn [SFmul]. destruct s; cbn [xorb].
  - rewrite binary_round_aux_negative, binary_round_aux_rounded; [reflexivity | exact Hv].
  - apply binary_round_aux_rounded, Hv.
Qed.

Lemma SFleb_neg_infinity (b : Number) : isNaN b = false -> SFleb (S754_infinity true) b = true.
Proof. destruct b as [[]|[]| |[] ? ?]; simpl; try discriminate; reflexivity. Qed.

Lemma SFleb_pos_infinity (a : Number) : isNaN a = false -> SFleb a (S754_infinity false) = true.
Proof. destruct a as [[]|[]| |[] ? ?]; simpl; try discriminate; reflexivity. Qed.

Lemma nonneg_not_NaN (x : Number) : nonneg x = true -> isNaN x = false.
Proof. destruct x; simpl; congruence. Qed.

Lemma opp_not_NaN (x : Number) : isNaN (SFopp x) = isNaN x.
Proof. destruct x; reflexivity. Qed.

(** Multiplying by 0.15 keeps the order of valid numbers. *)
Lemma mul_c015_monotone (x y : Number) :
  valid x = true -> valid y = true ->
  le x y = true -> le (mul x c015) (mul y c015) = true.
Proof.
  intros Hx Hy Hle. unfold le in *.
  destruct x as [sx|sx| |sx mx ex]; try discriminate Hle;
  destruct y as [sy|sy| |sy my ey]; try (destruct sx; discriminate Hle).
  - destruct sx, sy; reflexivity.
  - destruct sx, sy; try discriminate Hle; reflexivity.
  - rewrite (mul_c015_finite _ _ _ Hy). destruct (valid_finite _ _ _ Hy) as (He & _).
    destruct sy; [destruct sx; discriminate Hle|].
    apply SFleb_nonpos_nonneg; [reflexivity | apply rounded_nonneg, scaled_pos; lia].
  - destruct sx, sy; try discriminate Hle; reflexivity.
  - destruct sx, sy; try discriminate Hle; reflexivity.
  - rewrite (mul_c015_finite _ _ _ Hy). destruct (valid_finite _ _ _ Hy) as (He & _).
    destruct sx; [|destruct sy; discriminate Hle].
    apply SFleb_neg_infinity. destruct sy; rewrite ?opp_not_NaN;
      apply nonneg_not_NaN, rounded_nonneg, scaled_pos; lia.
  - rewrite (mul_c015_finite _ _ _ Hx). destruct (valid_finite _ _ _ Hx) as (He & _).
    destruct sx; [|destruct sy; discriminate Hle].
    apply SFleb_nonpos_nonneg; [|destruct sy; reflexivity].
    destruct (rounded (scaled mx ex)) eqn:E; try reflexivity;
      pose proof (rounded_nonneg (scaled mx ex) ltac:(apply scaled_pos; lia)) as Hn;
      rewrite E in Hn; simpl in *; try discriminate; destruct s; simpl in *; congruence.
  - rewrite (mul_c015_finite _ _ _ Hx). destruct (valid_finite _ _ _ Hx) as (He & _).
    destruct sy; [destruct sx; discriminate Hle|].
    apply SFleb_pos_infinity. destruct sx; rewrite ?opp_not_NaN;
      apply nonneg_not_NaN, rounded_nonneg, scaled_pos; lia.
  - rewrite (mul_c015_finite _ _ _ Hx), (mul_c015_finite _ _ _ Hy).
    destruct (valid_finite _ _ _ Hx) as (Hex & _). destruct (valid_finite _ _ _ Hy) as (Hey & _).
    destruct sx, sy.
    + rewrite SFleb_opp. apply rounded_monotone. split; [apply scaled_pos; lia|].
      apply scaled_order; [exact Hy | exact Hx |].
      rewrite <- SFleb_opp. exact Hle.
    + apply SFleb_nonpos_nonneg; [|apply rounded_nonneg, scaled_pos; lia].
      destruct (rounded (scaled mx ex)) eqn:E; try reflexivity;
        pose proof (rounded_nonneg (scaled mx ex) ltac:(apply scaled_pos; lia)) as Hn;
        rewrite E in Hn; simpl in *; try discriminate; destruct s; simpl in *; congruence.
    + discriminate Hle.
    + apply rounded_monotone. split; [apply scaled_pos; lia|].
      apply scaled_order; assumption.
Qed.

End RoundingFacts.

(** ** Colour and size *)

Section DisplayTheorems.

Import Globe FilterSpec Rounding.

Lemma lt_le (x y : Number) : lt x y = true -> le x y = true.
Proof. unfold lt, le, SFltb, SFleb. destruct (SFcompare x y) as [[]|]; congruence. Qed.

Lemma lt_le_trans (x y z : Number) :
  lt x y = true -> le y z = true -> lt x z = true.
Proof.
  intros Hxy Hyz. destruct (lt x z) eqn:E; [reflexivity|exfalso].
  destruct (le_not_NaN _ _ Hyz) as [_ Hz].
  destruct (le_not_NaN _ _ (lt_le _ _ Hxy)) as [Hx _].
  pose proof (not_lt_ge x z Hx Hz) as H. rewrite E in H. simpl in H. symmetry in H.
  unfold ge in H. pose proof (le_trans y z x Hyz H) as Hyx.
  apply (ge_not_lt x y) in Hyx. congruence.
Qed.

Lemma severity_monotone (m1 m2 : Nullable) :
  (ToNumber m1 <= ToNumber m2)%js = true ->
  (severity (getMagnitudeColor m1) <= severity (getMagnitudeColor m2))%nat.
Proof.
  intros Hle. unfold getMagnitudeColor.
  assert (forall k, (ToNumber m1 >= ofZ k)%js = true -> (ToNumber m2 >= ofZ k)%js = true) as Hup.
  { intros k Hk. unfold ge in *. eapply le_trans; eassumption. }
  destruct (ToNumber m1 >= ofZ 7)%js eqn:E7; [rewrite (Hup 7 E7); vm_compute; lia|].
  destruct (ToNumber m1 >= ofZ 6)%js eqn:E6;
    [rewrite (Hup 6 E6); destruct (ToNumber m2 >= ofZ 7)%js; vm_compute; lia|].
  destruct (ToNumber m1 >= ofZ 5)%js eqn:E5;
    [rewrite (Hup 5 E5); destruct (ToNumber m2 >= ofZ 7)%js, (ToNumber m2 >= ofZ 6)%js;
     vm_compute; lia|].
  destruct (ToNumber m1 >= ofZ 4)%js eqn:E4;
    [rewrite (Hup 4 E4);
     destruct (ToNumber m2 >= ofZ 7)%js, (ToNumber m2 >= ofZ 6)%js, (ToNumber m2 >= ofZ 5)%js;
     vm_compute; lia|].
  unfold severity at 1. simpl. lia.
Qed.

Lemma colour_buckets (m : Nullable) :
  ((ToNumber m >= ofZ 7)%js = true -> getMagnitudeColor m = "#ff0000") /\
  ((ToNumber m >= ofZ 6)%js = true -> (ToNumber m < ofZ 7)%js = true ->
     getMagnitudeColor m = "#ff4500") /\
  ((ToNumber m >= ofZ 5)%js = true -> (ToNumber m < ofZ 6)%js = true ->
     getMagnitudeColor m = "#ff8c00") /\
  ((ToNumber m >= ofZ 4)%js = true -> (ToNumber m < ofZ 5)%js = true ->
     getMagnitudeColor m = "#ffd700") /\
  ((ToNumber m >= ofZ 4)%js = false -> getMagnitudeColor m = "#90ee90").
Proof.
  unfold getMagnitudeColor. repeat split.
  - intros ->. reflexivity.
  - intros H6 H7. rewrite (lt_not_ge _ _ H7), H6. reflexivity.
  - intros H5 H6. assert ((ToNumber m < ofZ 7)%js = true) as H7
      by (eapply lt_le_trans; [exact H6 | reflexivity]).
    rewrite (lt_not_ge _ _ H7), (lt_not_ge _ _ H6), H5. reflexivity.
  - intros H4 H5. assert ((ToNumber m < ofZ 6)%js = true) as H6
      by (eapply lt_le_trans; [exact H5 | reflexivity]).
    assert ((ToNumber m < ofZ 7)%js = true) as H7
      by (eapply lt_le_trans; [exact H5 | reflexivity]).
    rewrite (lt_not_ge _ _ H7), (lt_not_ge _ _ H6), (lt_not_ge _ _ H5), H4. reflexivity.
  - intros H4.
    assert (forall k, 4 <= k <= 7 -> (ToNumber m >= ofZ k)%js = false) as Hk.
    { intros k Hr. destruct (ToNumber m >= ofZ k)%js eqn:E; [|reflexivity].
      assert (le (ofZ 4) (ToNumber m) = true) as H.
      { apply (le_trans _ (ofZ k)); [|exact E].
        assert (k = 4 \/ k = 5 \/ k = 6 \/ k = 7) as [->|[->|[->| ->]]] by lia; reflexivity. }
      unfold ge, le in *. congruence. }
    rewrite (Hk 7), (Hk 6), (Hk 5), H4 by lia. reflexivity.
Qed.

Lemma Math_max_c015 (p : Number) :
  isNaN p = false -> Math_max c015 p = if lt c015 p then p else c015.
Proof. destruct p; try discriminate; reflexivity. Qed.

Lemma mul_c015_not_NaN (x : Number) :
  valid x = true -> isNaN x = false -> isNaN (mul x c015) = false.
Proof.
  intros Hv Hx. destruct x as [s|s| |s m e]; try discriminate; try reflexivity.
  rewrite (mul_c015_finite _ _ _ Hv). destruct (valid_finite _ _ _ Hv) as (He & _).
  destruct s; rewrite ?opp_not_NaN; apply nonneg_not_NaN, rounded_nonneg, scaled_pos; lia.
Qed.

Lemma size_monotone (m1 m2 : Nullable) :
  valid (ToNumber m1) = true -> valid (ToNumber m2) = true ->
  (ToNumber m1 <= ToNumber m2)%js = true ->
  (getMagnitudeSize m1 <= getMagnitudeSize m2)%js = true.
Proof.
  intros H1 H2 Hle. unfold getMagnitudeSize. rewrite decimal_15_100.
  destruct (le_not_NaN _ _ Hle) as [N1 N2].
  pose proof (mul_c015_monotone _ _ H1 H2 Hle) as Hmul.
  rewrite !Math_max_c015 by (apply mul_c015_not_NaN; assumption).
  destruct (lt c015 (mul (ToNumber m1) c015)) eqn:E1.
  - rewrite (lt_le_trans _ _ _ E1 Hmul). exact Hmul.
  - destruct (lt c015 (mul (ToNumber m2) c015)) eqn:E2; [apply lt_le, E2 | reflexivity].
Qed.

(** C4. The colour is the five-bucket step function of the magnitude: red
    from 7, orange-red from 6 below 7, dark orange from 5 below 6, gold from 4
    below 5, light green otherwise; the size is [max(0.15, magnitude * 0.15)].
    Both depend on the magnitude alone and both grow with it: a larger
    magnitude never gets a colour of a lower bucket nor a smaller size.  At
    magnitude 6.2 the colour is orange-red and the size is the binary64
    number next below 0.93. *)
Theorem magnitude_colour_and_size :
  (forall m,
     ((ToNumber m >= ofZ 7)%js = true -> getMagnitudeColor m = "#ff0000") /\
     ((ToNumber m >= ofZ 6)%js = true -> (ToNumber m < ofZ 7)%js = true ->
        getMagnitudeColor m = "#ff4500") /\
     ((ToNumber m >= ofZ 5)%js = true -> (ToNumber m < ofZ 6)%js = true ->
        getMagnitudeColor m = "#ff8c00") /\
     ((ToNumber m >= ofZ 4)%js = true -> (ToNumber m < ofZ 5)%js = true ->
        getMagnitudeColor m = "#ffd700") /\
     ((ToNumber m >= ofZ 4)%js = false -> getMagnitudeColor m = "#90ee90")) /\
  (forall m,
     getMagnitudeSize m = Math_max (decimal 15 100) (ToNumber m * decimal 15 100)%js) /\
  (forall m1 m2,
     (ToNumber m1 <= ToNumber m2)%js = true ->
     (severity (getMagnitudeColor m1) <= severity (getMagnitudeColor m2))%nat) /\
  (forall m1 m2,
     valid (ToNumber m1) = true -> valid (ToNumber m2) = true ->
     (ToNumber m1 <= ToNumber m2)%js = true ->
     (getMagnitudeSize m1 <= getMagnitudeSize m2)%js = true) /\
  (forall e1 e2 : EarthquakeEvent,
     magnitude e1 = magnitude e2 ->
     color (processEarthquake e1) = color (processEarthquake e2) /\
     size (processEarthquake e1) = size (processEarthquake e2)) /\
  getMagnitudeColor (num (decimal 62 10)) = "#ff4500" /\
  getMagnitudeSize (num (decimal 62 10)) = S754_finite false 8376695306909122 (-53) /\
  decimal 93 100 = S754_finite false 8376695306909123 (-53) /\
  (decimal 9299999 10000000 < getMagnitudeSize (num (decimal 62 10)))%js = true /\
  (getMagnitudeSize (num (decimal 62 10)) < decimal 9300001 10000000)%js = true.
Proof.
  split; [exact colour_buckets|]. split; [reflexivity|].
  split; [exact severity_monotone|]. split; [exact size_monotone|]. split.
  - intros e1 e2 H. unfold processEarthquake. simpl. rewrite H. split; reflexivity.
  - repeat split; vm_compute; reflexivity.
Qed.

End DisplayTheorems.

(** ** The theorems at work on sample data *)

Section Witnesses.

Import Globe FilterSpec.

Lemma magnitude_colour_and_size_witness :
  valid (ToNumber (num (decimal 59 10))) = true /\
  valid (ToNumber (num (decimal 61 10))) = true /\
  (ToNumber (num (decimal 59 10)) <= ToNumber (num (decimal 61 10)))%js = true /\
  (severity (getMagnitudeColor (num (decimal 59 10))) <=
   severity (getMagnitudeColor (num (decimal 61 10))))%nat /\
  (getMagnitudeSize (num (decimal 59 10)) <= getMagnitudeSize (num (decimal 61 10)))%js = true.
Proof.
  assert (valid (ToNumber (num (decimal 59 10))) = true) as H1 by reflexivity.
  assert (valid (ToNumber (num (decimal 61 10))) = true) as H2 by reflexivity.
  assert ((ToNumber (num (decimal 59 10)) <= ToNumber (num (decimal 61 10)))%js = true) as H3
    by reflexivity.
  destruct magnitude_colour_and_size as (_ & _ & Hcolour & Hsize & _).
  split; [exact H1|]. split; [exact H2|]. split; [exact H3|]. split.
  - exact (Hcolour _ _ H3).
  - exact (Hsize _ _ H1 H2 H3).
Defined.

Lemma region_predicates_witness :
  lng Samples.losAngeles = decimal (-11824) 100 /\
  isInRegion Samples.losAngeles "all" = true /\
  (isInRegion Samples.losAngeles "americas" = true <->
   (lng Samples.losAngeles >= ofZ (-180))%js = true /\
   (lng Samples.losAngeles <= ofZ (-30))%js = true).
Proof.
  destruct region_predicates as (Hall & Hamericas & _).
  split; [reflexivity|]. split; [exact (Hall _) | exact (Hamericas _)].
Defined.


Lemma pacific_ring_longitude_only_witness :
  (lng Samples.tokyo >= ofZ (-180))%js = true /\
  (lng Samples.tokyo <= ofZ 180)%js = true /\
  isInRegion Samples.tokyo "pacific-ring" =
    ((lng Samples.tokyo >= ofZ 120) || (lng Samples.tokyo <= ofZ (-100)))%js.
Proof.
  assert ((lng Samples.tokyo >= ofZ (-180))%js = true) as H1 by reflexivity.
  assert ((lng Samples.tokyo <= ofZ 180)%js = true) as H2 by reflexivity.
  split; [exact H1|]. split; [exact H2|].
  exact (proj1 (pacific_ring_longitude_only Samples.tokyo H1 H2)).
Defined.

Lemma null_magnitude_filtered_out_witness :
  magnitude Samples.unmeasured = null /\
  (minMagnitude initialFilters > pzero)%js = true /\
  keeps Samples.toLowerCase Samples.Date_parse initialFilters Samples.unmeasured = Some false /\
  applyFilters Samples.toLowerCase Samples.Date_parse [Samples.unmeasured; Samples.tokyo]
    initialFilters = Some [Samples.tokyo] /\
  Samples.unmeasured ∉ [Samples.tokyo].
Proof.
  assert (magnitude Samples.unmeasured = null) as H1 by reflexivity.
  assert ((minMagnitude initialFilters > pzero)%js = true) as H2 by reflexivity.
  assert (applyFilters Samples.toLowerCase Samples.Date_parse
            [Samples.unmeasured; Samples.tokyo] initialFilters = Some [Samples.tokyo]) as H3
    by (vm_compute; reflexivity).
  destruct (proj1 (proj2 (null_magnitude_filtered_out Samples.toLowerCase Samples.Date_parse))
              [Samples.unmeasured; Samples.tokyo] initialFilters Samples.unmeasured H1 H2)
    as [Hk Hout].
  split; [exact H1|]. split; [exact H2|]. split; [exact Hk|]. split; [exact H3|].
  exact (Hout _ H3).
Defined.

Lemma features_to_events_witness :
  Proxy.ok 200 = true /\
  exists events metadata,
    Proxy.respond (fun _ => "") (fun _ => None)
      (Proxy.fetch_resolved 200
         (Proxy.returned (Proxy.object [("features", Proxy.array [Samples.tokyoFeature])]))) =
      {| Proxy.statusCode := 200; Proxy.body := Proxy.success 1 events metadata |} /\
    length events = 1%nat.
Proof.
  assert (Proxy.ok 200 = true) as H by reflexivity.
  split; [exact H|].
  destruct (proj1 (features_to_events (fun _ => "") (fun _ => None)
                     [("features", Proxy.array [Samples.tokyoFeature])] 200 H)
              [Samples.tokyoFeature] eq_refl) as (events & metadata & Hr & Hl & _).
  - constructor; [|constructor].
    exists [("type", Proxy.text "Feature");
       ("properties", Proxy.object
          [("mag", Proxy.number (decimal 62 10)); ("place", Proxy.text "Tokyo, Japan");
           ("time", Proxy.number (ofZ 1700000000000))]);
       ("geometry", Proxy.object
          [("type", Proxy.text "Point");
           ("coordinates", Proxy.array
              [Proxy.number (decimal 1397 10); Proxy.number (decimal 357 10);
               Proxy.number (ofZ 10)])]);
       ("id", Proxy.text "us1")].
    eexists _, _, _. split; [reflexivity|]. split; [reflexivity|]. split; [reflexivity|].
    split; [reflexivity|]. exists 1700000000000. vm_compute. reflexivity.
  - exists events, metadata. split; [exact Hr | exact Hl].
Defined.

Lemma upstream_failure_reply_witness :
  Proxy.ok 503 = false /\
  Proxy.respond (fun _ => "") (fun _ => None)
    (Proxy.fetch_resolved 503 (Proxy.thrown (Proxy.Rejected "Unexpected token"))) =
  {| Proxy.statusCode := 500;
     Proxy.body := Proxy.failure "Failed to fetch earthquake data"
                     "USGS API responded with status 503" |}.
Proof.
  assert (Proxy.ok 503 = false) as H by reflexivity.
  split; [exact H|].
  exact (proj1 (upstream_failure_reply Samples.utc (fun _ => "") (fun _ => None) 503
                  (Proxy.thrown (Proxy.Rejected "Unexpected token")) H)).
Defined.

End Witnesses.

(** * Further properties of the proxy and of the view *)

#[local] Ltac Zify.zify_post_hook ::= Z.to_euclidean_division_equations.

(** ** More on the proxy *)

Section ProxyReplies.

Import Proxy ProxySpec.

Variable LocalTZA : Z -> bool -> Z.
Variable engineMessage : Thrown -> string.
Variable Date_parse : value -> TimeValue.

Lemma processData_reply (data : value) (r : Reply) :
  processData Date_parse data = returned r ->
  exists events metadata,
    r = {| statusCode := 200; body := success (length events) events metadata |}.
Proof.
  unfold processData. intros H.
  destruct (get data "features") as [features|e]; [|discriminate H]. cbn [mbind completion_bind] in H.
  destruct (processFeatures Date_parse features) as [events|e]; [|discriminate H].
  cbn [mbind completion_bind] in H.
  destruct (get data "metadata") as [metadata|e]; [|discriminate H]. cbn [mbind completion_bind] in H.
  destruct (get_optional_returns metadata "generated") as [g Hg].
  destruct (get_optional_returns metadata "url") as [u Hu].
  destruct (get_optional_returns metadata "title") as [t Ht].
  destruct (get_optional_returns metadata "count") as [c Hc].
  rewrite Hg, Hu, Ht, Hc in H. cbn [mbind completion_bind] in H.
  injection H as <-. eauto.
Qed.

Lemma respond_reply (u : Upstream) :
  (exists events metadata,
     respond engineMessage Date_parse u =
       {| statusCode := 200; body := success (length events) events metadata |}) \/
  (exists details,
     respond engineMessage Date_parse u =
       {| statusCode := 500; body := failure "Failed to fetch earthquake data" details |}).
Proof.
  unfold respond. destruct (receive u) as [data|e]; cbn [mbind completion_bind].
  - destruct (processData Date_parse data) as [r|e] eqn:E.
    + left. destruct (processData_reply _ _ E) as (events & metadata & ->). eauto.
    + right. eexists. reflexivity.
  - right. eexists. reflexivity.
Qed.

(** X1. For every query, clock reading and upstream answer, the handler's
    reply is either 200 with a list of earthquakes and a count that is the
    length of that list, or 500 with the fixed error text and no list.  It
    issues no upstream request or one, and the one it issues is a GET on the
    upstream URL followed by the serialization of the parameters
    [buildParams] built from this query at this clock reading; a 200 reply
    is never given without that request. *)
Theorem handler_reply_shape (query : Query) (now : Z) (upstream : Request -> Upstream) :
  let (reply, requests) := run (handler LocalTZA engineMessage Date_parse query now) upstream in
  ((exists events metadata params,
      reply = {| statusCode := 200; body := success (length events) events metadata |} /\
      buildParams LocalTZA query now = returned params /\
      requests = [upstreamRequest params]) \/
   (exists details,
      reply = {| statusCode := 500;
                 body := failure "Failed to fetch earthquake data" details |})) /\
  (requests = [] \/
   exists params,
     buildParams LocalTZA query now = returned params /\
     requests = [upstreamRequest params]) /\
  Forall (fun req =>
            method req = "GET" /\
            exists params,
              buildParams LocalTZA query now = returned params /\
              request_url req = USGS_BASE_URL +:+ "?" +:+ params_toString params) requests.
Proof.
  unfold handler. destruct (buildParams LocalTZA query now) as [params|e]; cbn [run].
  - split; [|split].
    + destruct (respond_reply (upstream (upstreamRequest params)))
        as [(events & metadata & ->)|(details & ->)]; [left|right].
      * exists events, metadata, params. repeat split.
      * exists details. reflexivity.
    + right. exists params. split; reflexivity.
    + constructor; [|constructor]. split; [reflexivity|]. exists params. split; reflexivity.
  - split; [|split; [left; reflexivity | constructor]]. right. eexists. reflexivity.
Qed.

End ProxyReplies.

Section ProxyFailures.

Import Proxy ProxySpec ProxyCases.

Variable LocalTZA : Z -> bool -> Z.
Variable engineMessage : Thrown -> string.
Variable Date_parse : value -> TimeValue.

Lemma mapM_thrown {A B} (f : A -> completion B) (l : list A) (a : A) (e : Thrown) :
  a ∈ l -> f a = thrown e -> exists e', mapM f l = thrown e'.
Proof.
  intros Hin Ha. induction l as [|b l IH]; [inversion Hin|].
  apply elem_of_cons in Hin. cbn [mapM]. destruct (f b) as [y|e0] eqn:Eb.
  - destruct Hin as [->|Hin]; [congruence|].
    destruct (IH Hin) as [e' ->]. cbn [mbind completion_bind]. eauto.
  - cbn [mbind completion_bind]. eauto.
Qed.

Lemma get_nullish (v : value) (key : string) :
  nullish v -> exists e, get v key = thrown e.
Proof. intros [->| ->]; simpl; eauto. Qed.

Lemma at_index_nullish (v : value) (i : nat) :
  nullish v -> exists e, at_index v i = thrown e.
Proof. intros [->| ->]; simpl; eauto. Qed.

Ltac step :=
  match goal with
  | |- exists e, (mbind _ (thrown _)) = thrown e => eexists; reflexivity
  | |- exists e, thrown _ = thrown e => eexists; reflexivity
  | |- exists e, (mbind _ ?c) = thrown e =>
      let E := fresh "E" in destruct c eqn:E; cbn [mbind completion_bind]
  end.

Lemma processFeature_unreadable (feature : value) :
  unreadable Date_parse feature -> exists e, processFeature Date_parse feature = thrown e.
Proof.
  intros [Hno | (members & -> & H)]; unfold processFeature.
  - destruct feature; try discriminate Hno; cbn [get mbind completion_bind];
      eexists; reflexivity.
  - cbn [get mbind completion_bind].
    destruct H as [Hg | [(geometry & Hg & Hc) | [Hp | (props & Hp & Ht)]]].
    + destruct (get_nullish _ "coordinates" Hg) as [e ->]. eexists. reflexivity.
    + rewrite Hg. cbn [get mbind completion_bind].
      destruct (at_index_nullish _ 1 Hc) as [e ->]. eexists. reflexivity.
    + destruct (get (member "geometry" members) "coordinates") as [coords|e];
        cbn [mbind completion_bind]; [|eexists; reflexivity].
      destruct (at_index coords 1); cbn [mbind completion_bind]; [|eexists; reflexivity].
      destruct (at_index coords 0); cbn [mbind completion_bind]; [|eexists; reflexivity].
      destruct (at_index coords 2); cbn [mbind completion_bind]; [|eexists; reflexivity].
      destruct (get_nullish _ "mag" Hp) as [e ->]. eexists. reflexivity.
    + destruct (get (member "geometry" members) "coordinates") as [coords|e];
        cbn [mbind completion_bind]; [|eexists; reflexivity].
      destruct (at_index coords 1); cbn [mbind completion_bind]; [|eexists; reflexivity].
      destruct (at_index coords 0); cbn [mbind completion_bind]; [|eexists; reflexivity].
      destruct (at_index coords 2); cbn [mbind completion_bind]; [|eexists; reflexivity].
      rewrite Hp. cbn [get mbind completion_bind]. rewrite Ht.
      cbn [toISOString_or_throw toISOString mbind completion_bind]. eexists. reflexivity.
Qed.

(** X2. All or nothing: if one of the features of the parsed body cannot be
    read (it is not an object, or lacks geometry, coordinates or properties,
    or its time is no date), the reply is 500 with the error text, whatever
    the other features are: no event of the readable features is sent. *)
Theorem unreadable_feature_fails_request
    (members : list (string * value)) (features : list value) (bad : value) (status : nat) :
  member "features" members = array features ->
  bad ∈ features ->
  unreadable Date_parse bad ->
  exists details,
    respond engineMessage Date_parse (fetch_resolved status (returned (object members))) =
      {| statusCode := 500; body := failure "Failed to fetch earthquake data" details |}.
Proof.
  intros Hf Hin Hbad. unfold respond, receive.
  destruct (negb (ok status)); cbn [mbind completion_bind]; [eexists; reflexivity|].
  destruct (processFeature_unreadable bad Hbad) as [e He].
  destruct (mapM_thrown (processFeature Date_parse) features bad e Hin He) as [e' Hm].
  unfold processData. cbn [get mbind completion_bind]. unfold processFeatures.
  rewrite Hf. cbn [truthy]. rewrite Hm. cbn [mbind completion_bind catch].
  eexists. reflexivity.
Qed.

End ProxyFailures.

Section ProxySuccess.

Import Proxy ProxySpec ProxyCases.

Variable LocalTZA : Z -> bool -> Z.
Variable engineMessage : Thrown -> string.
Variable Date_parse : value -> TimeValue.

Lemma nullish_dec (v : value) : {nullish v} + {~ nullish v}.
Proof.
  destruct v; try (right; intros [H|H]; discriminate H);
    [left; left | left; right]; reflexivity.
Qed.

Lemma get_not_nullish (v : value) (key : string) :
  ~ nullish v -> exists w, get v key = returned w.
Proof.
  intros H. destruct v; simpl; eauto; exfalso; apply H; [left|right]; reflexivity.
Qed.

Lemma at_index_not_nullish (v : value) (i : nat) :
  ~ nullish v -> exists w, at_index v i = returned w.
Proof.
  intros H. destruct v; simpl; eauto; exfalso; apply H; [left|right]; reflexivity.
Qed.

Lemma get_returned_not_nullish (v w : value) (key : string) :
  get v key = returned w -> ~ nullish v.
Proof. intros H [->| ->]; discriminate H. Qed.

Lemma at_index_returned_not_nullish (v w : value) (i : nat) :
  at_index v i = returned w -> ~ nullish v.
Proof. intros H [->| ->]; discriminate H. Qed.

Lemma get_of_non_object (v : value) (key : string) :
  isObject v = false -> key <> "length" ->
  get v key = returned undefined \/ exists e, get v key = thrown e.
Proof.
  intros Hv Hk. destruct v; try discriminate Hv; simpl; eauto;
    destruct (String.eqb_spec key "length"); try congruence; eauto.
Qed.

Lemma processFeature_readable (feature : value) :
  (exists event, processFeature Date_parse feature = returned event) <->
  readable Date_parse feature.
Proof.
  split.
  - intros [event H]. unfold processFeature in H.
    destruct (get feature "geometry") as [geometry|] eqn:Eg; [|discriminate H].
    cbn [mbind completion_bind] in H.
    destruct (get geometry "coordinates") as [coords|] eqn:Ec; [|discriminate H].
    cbn [mbind completion_bind] in H.
    destruct (get feature "properties") as [props|] eqn:Ep; [|discriminate H].
    cbn [mbind completion_bind] in H.
    destruct (get feature "id") as [id|]; [|discriminate H]. cbn [mbind completion_bind] in H.
    destruct (at_index coords 1) as [lat|] eqn:E1; [|discriminate H].
    cbn [mbind completion_bind] in H.
    destruct (at_index coords 0) as [lng|]; [|discriminate H]. cbn [mbind completion_bind] in H.
    destruct (at_index coords 2) as [depth|]; [|discriminate H]. cbn [mbind completion_bind] in H.
    destruct (get props "mag") as [mag|] eqn:Em; [|discriminate H].
    cbn [mbind completion_bind] in H.
    destruct (get props "place") as [place|]; [|discriminate H]. cbn [mbind completion_bind] in H.
    destruct (get props "time") as [time|] eqn:Et; [|discriminate H].
    cbn [mbind completion_bind] in H.
    destruct (Date_new Date_parse time) as [z|] eqn:Ez;
      [|cbn [toISOString_or_throw toISOString mbind completion_bind] in H; discriminate H].
    clear H.
    assert (exists members, feature = object members) as [members ->].
    { destruct feature; try discriminate Eg; eauto; simpl in Eg; injection Eg as <-;
        simpl in Ec; discriminate Ec. }
    simpl in Eg, Ep. injection Eg as <-. injection Ep as <-.
    assert (exists g, member "geometry" members = object g) as [g Hg].
    { destruct (member "geometry" members) eqn:E; eauto; simpl in Ec; try discriminate Ec;
        injection Ec as <-; simpl in E1; try discriminate E1;
        destruct (String.eqb_spec "coordinates" "length") as [Q|Q]; try discriminate Q;
        simpl in E1; discriminate E1. }
    assert (exists ps, member "properties" members = object ps) as [ps Hps].
    { destruct (member "properties" members) eqn:E; eauto; simpl in Em; try discriminate Em;
        simpl in Et; injection Et as <-; simpl in Ez; try discriminate Ez. }
    rewrite Hg in Ec. simpl in Ec. injection Ec as <-.
    rewrite Hps in Et. simpl in Et. injection Et as <-.
    exists members, g, ps. repeat split; try assumption.
    + eapply at_index_returned_not_nullish. exact E1.
    + eauto.
  - intros (members & geometry & props & -> & Hg & Hc & Hp & [z Hz]).
    unfold processFeature. cbn [get mbind completion_bind]. rewrite Hg, Hp.
    cbn [get mbind completion_bind].
    destruct (at_index_not_nullish _ 1 Hc) as [lat ->].
    destruct (at_index_not_nullish _ 0 Hc) as [lng ->].
    destruct (at_index_not_nullish _ 2 Hc) as [depth ->].
    cbn [mbind completion_bind]. rewrite Hz.
    cbn [toISOString_or_throw toISOString mbind completion_bind]. eexists. reflexivity.
Qed.

Lemma mapM_returned_iff {A B} (f : A -> completion B) (l : list A) :
  (exists bs, mapM f l = returned bs) <-> Forall (fun a => exists b, f a = returned b) l.
Proof.
  induction l as [|a l IH]; cbn [mapM].
  - split; [constructor | eexists; reflexivity].
  - split.
    + intros [bs H]. destruct (f a) as [b|e] eqn:Ea; [|discriminate H].
      cbn [mbind completion_bind] in H. destruct (mapM f l) as [bs'|e] eqn:El; [|discriminate H].
      constructor; [eauto | apply IH; eauto].
    + intros H. inversion H as [|? ? [b Hb] Hl]; subst. apply IH in Hl as [bs Hbs].
      rewrite Hb. cbn [mbind completion_bind]. rewrite Hbs. eexists. reflexivity.
Qed.

(** X3. The proxy replies 200 exactly when the upstream answered with a
    status in 200..299 and a body that parsed to something other than
    null, whose [features] are either absent or falsy, or an array of
    readable features.  In every other case (rejected fetch, other status,
    unparsable body, null body, [features] that are no array, one
    unreadable feature) the reply is 500. *)
Theorem success_exactly_when (u : Upstream) :
  statusCode (respond engineMessage Date_parse u) = 200%nat <->
  exists status data features,
    u = fetch_resolved status (returned data) /\
    ok status = true /\
    get data "features" = returned features /\
    (truthy features = false \/
     exists items, features = array items /\ Forall (readable Date_parse) items).
Proof.
  split.
  - intros H. unfold respond in H. destruct u as [m|status [data|e]]; cbn [receive] in H.
    + discriminate H.
    + destruct (ok status) eqn:Hok; cbn [negb mbind completion_bind] in H; [|discriminate H].
      unfold processData in H.
      destruct (get data "features") as [features|e] eqn:Ef; [|discriminate H].
      cbn [mbind completion_bind] in H.
      destruct (processFeatures Date_parse features) as [events|e] eqn:Ep; [|discriminate H].
      exists status, data, features. repeat split; try assumption.
      unfold processFeatures in Ep. destruct (truthy features) eqn:Et; [right|left; reflexivity].
      destruct features; try (cbn [get mbind completion_bind] in Ep; discriminate Ep).
      exists items. split; [reflexivity|].
      assert (exists bs, mapM (processFeature Date_parse) items = returned bs) as Hm by eauto.
      apply mapM_returned_iff in Hm. eapply Forall_impl; [exact Hm|].
      intros f Hf. apply processFeature_readable, Hf.
    + destruct (ok status); cbn [negb mbind completion_bind] in H; discriminate H.
  - intros (status & data & features & -> & Hok & Hf & Hfeat).
    unfold respond, receive. rewrite Hok. cbn [negb mbind completion_bind].
    assert (exists events, processFeatures Date_parse features = returned events) as [events He].
    { unfold processFeatures. destruct Hfeat as [->|(items & -> & Hall)]; [eauto|].
      cbn [truthy]. apply mapM_returned_iff. eapply Forall_impl; [exact Hall|].
      intros f Hr. apply processFeature_readable, Hr. }
    unfold processData. rewrite Hf. cbn [mbind completion_bind]. rewrite He.
    cbn [mbind completion_bind].
    destruct (get_not_nullish data "metadata" (get_returned_not_nullish _ _ _ Hf)) as [md ->].
    cbn [mbind completion_bind].
    destruct (get_optional_returns md "generated") as [g ->].
    destruct (get_optional_returns md "url") as [u' ->].
    destruct (get_optional_returns md "title") as [t ->].
    destruct (get_optional_returns md "count") as [c ->].
    reflexivity.
Qed.

End ProxySuccess.

Section ProxyClock.

Import Proxy ProxySpec ProxyCases.

Variable LocalTZA : Z -> bool -> Z.
Variable engineMessage : Thrown -> string.
Variable Date_parse : value -> TimeValue.

(** [setDate(getDate() + k)] in any zone: [k] days later on the local
    clock, read back as an instant. *)
Lemma setDate_shift (t k : Z) :
  setDate LocalTZA t (getDate LocalTZA t + k) =
    clip (UTC LocalTZA (LocalTime LocalTZA t + k * msPerDay)).
Proof.
  unfold setDate, getDate. rewrite MakeDay_shift, MakeDate_shift. reflexivity.
Qed.

Lemma join_thrown (convert : QueryValue -> completion string)
    (items : list QueryValue) (e : Thrown) :
  join convert items = thrown e -> exists x, x ∈ items /\ convert x = thrown e.
Proof.
  induction items as [|x rest IH]; cbn [join]; [discriminate|].
  destruct (convert x) as [first|e'] eqn:Ex; cbn [mbind completion_bind].
  - destruct rest as [|y rest']; [discriminate|].
    destruct (join convert (y :: rest')) as [others|e''] eqn:Er;
      cbn [mbind completion_bind]; [discriminate|].
    intros H. injection H as <-. destruct (IH eq_refl) as (z & Hz & Ez).
    exists z. split; [right; exact Hz | exact Ez].
  - intros H. injection H as <-. exists x. split; [left | exact Ex].
Qed.

(** The only error of [ToString] is the TypeError of an object with a
    [toString] member. *)
Lemma ToString_thrown (v : QueryValue) (e : Thrown) :
  ToString v = thrown e -> e = NotPrimitive.
Proof.
  revert e. induction v as [s|items IH|members _] using QueryValue_nested_ind; intros e H.
  - discriminate H.
  - cbn [ToString] in H. apply join_thrown in H as (x & Hx & Ex).
    rewrite Forall_forall in IH. exact (IH x Hx e Ex).
  - cbn [ToString] in H. destruct (hasKey "toString" members); [|discriminate H].
    injection H as <-. reflexivity.
Qed.

Lemma converts_or_throws (v : QueryValue) :
  converts v \/ ToString v = thrown NotPrimitive.
Proof.
  unfold converts. destruct (ToString v) as [s|e] eqn:E; [left; eauto|].
  right. rewrite (ToString_thrown v e E). reflexivity.
Qed.

Lemma not_converts (v : QueryValue) : ToString v = thrown NotPrimitive -> ~ converts v.
Proof. intros H [s Hs]. congruence. Qed.

(** When the start date is given or the clock yields one, building the
    parameters fails exactly on a parameter that does not convert. *)
Lemma buildParams_cases (query : Query) (now : Z) :
  given (starttime query) = true \/
  is_Some (setDate LocalTZA now (getDate LocalTZA now - 30)) ->
  (convertible query -> exists params, buildParams LocalTZA query now = returned params) /\
  (~ convertible query -> buildParams LocalTZA query now = thrown NotPrimitive).
Proof.
  intros Hclock. unfold convertible, appended, buildParams.
  destruct (converts_or_throws (default (q_text "geojson") (format query))) as [[f Hf]|Hf];
    rewrite Hf; cbn [mbind completion_bind].
  2:{ split; [|reflexivity]. intros Hc. apply Forall_cons in Hc as [Hc _].
      destruct (not_converts _ Hf Hc). }
  destruct (converts_or_throws (default (q_text "4.5") (minmagnitude query))) as [[m Hm]|Hm];
    rewrite Hm; cbn [mbind completion_bind].
  2:{ split; [|reflexivity]. intros Hc. apply Forall_cons in Hc as [_ Hc].
      apply Forall_cons in Hc as [Hc _]. destruct (not_converts _ Hm Hc). }
  destruct (converts_or_throws (default (q_text "1000") (limit query))) as [[l Hl]|Hl];
    rewrite Hl; cbn [mbind completion_bind].
  2:{ split; [|reflexivity]. intros Hc. apply Forall_cons in Hc as [_ Hc].
      apply Forall_cons in Hc as [_ Hc]. apply Forall_cons in Hc as [Hc _].
      destruct (not_converts _ Hl Hc). }
  assert (forall rest : list QueryValue,
            Forall converts
              ([default (q_text "geojson") (format query);
                default (q_text "4.5") (minmagnitude query);
                default (q_text "1000") (limit query)] ++ rest)
            <-> Forall converts rest) as Hhead.
  { intros rest. cbn [app]. rewrite !Forall_cons. unfold converts at 1 2 3.
    split; [tauto|]. intros H. repeat split; eauto. }
  rewrite Hhead. clear Hhead.
  destruct (given (starttime query)) eqn:Gs.
  - destruct (converts_or_throws (default (q_text "") (starttime query))) as [[s Hs]|Hs];
      rewrite Hs; cbn [mbind completion_bind app].
    2:{ split; [|reflexivity]. intros Hc. apply Forall_cons in Hc as [Hc _].
        destruct (not_converts _ Hs Hc). }
    destruct (given (endtime query)) eqn:Ge.
    + destruct (converts_or_throws (default (q_text "") (endtime query))) as [[e He]|He];
        rewrite He; cbn [mbind completion_bind].
      * split; [eauto|]. intros Hn. exfalso. apply Hn.
        repeat constructor; unfold converts; eauto.
      * split; [|reflexivity]. intros Hc. apply Forall_cons in Hc as [_ Hc].
        apply Forall_cons in Hc as [Hc _]. destruct (not_converts _ He Hc).
    + split; [eauto|]. intros Hn. exfalso. apply Hn.
      repeat constructor; unfold converts; eauto.
  - destruct Hclock as [H|[z Hz]]; [discriminate H|]. rewrite Hz.
    cbn [toISOString_or_throw toISOString mbind completion_bind app].
    destruct (given (endtime query)) eqn:Ge.
    + destruct (converts_or_throws (default (q_text "") (endtime query))) as [[e He]|He];
        rewrite He; cbn [mbind completion_bind].
      * split; [eauto|]. intros Hn. exfalso. apply Hn.
        repeat constructor; unfold converts; eauto.
      * split; [|reflexivity]. intros Hc. apply Forall_cons in Hc as [Hc _].
        destruct (not_converts _ He Hc).
    + split; [eauto|]. intros Hn. exfalso. apply Hn. constructor.
Qed.

(** X4. For a clock within 8.6e15 ms of the epoch and a zone whose offset
    never exceeds a day: if every parameter the handler appends converts to
    a string (a string does, and so does an array of strings), it issues
    exactly one upstream request and its reply is the one made from the
    upstream's answer; if one does not (an object with a [toString]
    member), it issues none and replies 500 with the engine's message for
    that TypeError. *)
Theorem one_request_per_call (query : Query) (now : Z) (upstream : Request -> Upstream) :
  Z.abs now <= 8600000000000000 ->
  withinADay LocalTZA ->
  (convertible query ->
   exists params,
     buildParams LocalTZA query now = returned params /\
     run (handler LocalTZA engineMessage Date_parse query now) upstream =
       (respond engineMessage Date_parse (upstream (upstreamRequest params)),
        [upstreamRequest params])) /\
  (~ convertible query ->
   run (handler LocalTZA engineMessage Date_parse query now) upstream =
     ({| statusCode := 500;
         body := failure "Failed to fetch earthquake data" (engineMessage NotPrimitive) |},
      [])).
Proof.
  intros Hnow Htz.
  destruct (buildParams_cases query now) as [Hyes Hno].
  { right. replace (getDate LocalTZA now - 30) with (getDate LocalTZA now + -30) by lia.
    rewrite setDate_shift. unfold clip, UTC, LocalTime.
    pose proof (Htz now true) as H1.
    pose proof (Htz (now + LocalTZA now true + -30 * msPerDay) false) as H2.
    unfold msPerDay in *.
    destruct (Z.leb_spec (Z.abs (now + LocalTZA now true + -30 * 86400000 -
                LocalTZA (now + LocalTZA now true + -30 * 86400000) false))
              8640000000000000); [eauto | lia]. }
  split.
  - intros Hc. destruct (Hyes Hc) as [params Hp].
    exists params. split; [exact Hp|]. unfold handler. rewrite Hp. reflexivity.
  - intros Hn. unfold handler. rewrite (Hno Hn). reflexivity.
Qed.

(** X5. A query whose [starttime] is given (anything but the empty string)
    is served without reading the clock or the zone: building the upstream
    parameters ends the same way at every instant and in every zone; and
    when every parameter the handler appends converts to a string, it ends
    with a parameter list whose [starttime] is the string the query's
    converts to. *)
Theorem starttime_overrides_clock (query : Query) :
  given (starttime query) = true ->
  forall (zone1 zone2 : Z -> bool -> Z) (now1 now2 : Z),
    buildParams zone1 query now1 = buildParams zone2 query now2 /\
    (convertible query ->
     exists params start,
       buildParams zone1 query now1 = returned params /\
       ToString (default (q_text "") (starttime query)) = returned start /\
       param "starttime" params = Some start).
Proof.
  intros Hs zone1 zone2 now1 now2.
  split; [unfold buildParams; rewrite Hs; reflexivity|].
  unfold convertible, appended, buildParams. rewrite Hs. intros Hc.
  apply Forall_cons in Hc as [[f Hf] Hc]. apply Forall_cons in Hc as [[m Hm] Hc].
  apply Forall_cons in Hc as [[l Hl] Hc]. cbn [app] in Hc.
  apply Forall_cons in Hc as [[s Hstart] Hc].
  rewrite Hf, Hm, Hl, Hstart. cbn [mbind completion_bind app].
  destruct (given (endtime query)).
  - apply Forall_cons in Hc as [[e He] _]. rewrite He. cbn [mbind completion_bind].
    eexists _, s. split; [reflexivity|]. split; reflexivity.
  - eexists _, s. split; [reflexivity|]. split; reflexivity.
Qed.

End ProxyClock.

(** ** More on numbers *)

Section NumberFacts.

Import Rounding JSArith.

Lemma le_refl (x : Number) : isNaN x = false -> le x x = true.
Proof.
  unfold le, SFleb. destruct x as [[]|[]| |[] m e]; try discriminate; intros _; cbn [SFcompare];
    try reflexivity; rewrite Z.compare_refl;
    change (Pos.compare_cont Eq m m) with (Pos.compare m m); rewrite Pos.compare_refl;
    reflexivity.
Qed.

Lemma Math_max_not_NaN (x y : Number) :
  isNaN x = false -> isNaN y = false -> isNaN (Math_max x y) = false.
Proof.
  intros Hx Hy. destruct x, y; try discriminate; try reflexivity; unfold Math_max;
    match goal with |- context [if ?b then _ else _] => destruct b end; reflexivity.
Qed.

(** [Math.max] returns one of its arguments, and one that is at least as
    large as both. *)
Lemma Math_max_spec (x y : Number) :
  isNaN x = false -> isNaN y = false ->
  (Math_max x y = x \/ Math_max x y = y) /\
  le x (Math_max x y) = true /\ le y (Math_max x y) = true.
Proof.
  intros Hx Hy.
  assert (forall sx sy, (Math_max (S754_zero sx) (S754_zero sy) = S754_zero sx \/
                         Math_max (S754_zero sx) (S754_zero sy) = S754_zero sy) /\
                        le (S754_zero sx) (Math_max (S754_zero sx) (S754_zero sy)) = true /\
                        le (S754_zero sy) (Math_max (S754_zero sx) (S754_zero sy)) = true) as Hz.
  { intros [] []; repeat split; auto. }
  assert (Math_max x y = (if lt x y then y else x) \/
          exists sx sy, x = S754_zero sx /\ y = S754_zero sy) as [E|(sx & sy & -> & ->)].
  { destruct x, y; try discriminate; eauto. }
  - rewrite E. destruct (lt x y) eqn:L.
    + split; [right; reflexivity|]. split; [apply lt_le, L | apply le_refl, Hy].
    + split; [left; reflexivity|]. split; [apply le_refl, Hx|].
      pose proof (not_lt_ge x y Hx Hy) as H. rewrite L in H. symmetry. exact H.
  - apply Hz.
Qed.

Lemma Math_min_spec (x y : Number) :
  isNaN x = false -> isNaN y = false ->
  isNaN (Math_min x y) = false /\
  (Math_min x y = x \/ Math_min x y = y) /\
  le (Math_min x y) x = true /\ le (Math_min x y) y = true.
Proof.
  intros Hx Hy.
  assert (Math_min x y = (if lt y x then y else x) \/
          exists sx sy, x = S754_zero sx /\ y = S754_zero sy) as [E|(sx & sy & -> & ->)].
  { destruct x, y; try discriminate; eauto. }
  - rewrite E. destruct (lt y x) eqn:L.
    + split; [exact Hy|]. split; [right; reflexivity|].
      split; [apply lt_le, L | apply le_refl, Hy].
    + split; [exact Hx|]. split; [left; reflexivity|]. split; [apply le_refl, Hx|].
      pose proof (not_lt_ge y x Hy Hx) as H. rewrite L in H. symmetry. exact H.
  - destruct sx, sy; repeat split; auto.
Qed.

Lemma shr_n_nonneg (k : nat) (mrs : shr_record) :
  0 <= shr_m mrs -> 0 <= shr_m (shr_n k mrs).
Proof.
  intros H. induction k as [|k IH]; [exact H|]. cbn [shr_n].
  destruct (shr_n k mrs) as [m r s]. cbn [shr_m] in IH.
  rewrite shr_1_nonneg by exact IH. cbn [shr_m]. apply Z.div_pos; lia.
Qed.

Lemma shr_nonneg (mrs : shr_record) (e n : Z) :
  0 <= shr_m mrs -> 0 <= shr_m (fst (shr mrs e n)).
Proof.
  intros H. destruct n as [|p|p]; cbn [shr fst]; try exact H.
  rewrite iter_pos_shr_n. apply shr_n_nonneg, H.
Qed.

Lemma shr_record_of_loc_m (m : Z) (l : location) : shr_m (shr_record_of_loc m l) = m.
Proof. destruct l as [|[]]; reflexivity. Qed.

Lemma round_nearest_even_nonneg (m : Z) (l : location) :
  0 <= m -> 0 <= round_nearest_even m l.
Proof. intros H. destruct l as [|[]]; cbn [round_nearest_even]; try lia. destruct (Z.even m); lia. Qed.

(** Rounding a non-negative mantissa never yields NaN. *)
Lemma binary_round_aux_not_NaN (s : bool) (m e : Z) (l : location) :
  0 <= m -> isNaN (binary_round_aux prec emax s m e l) = false.
Proof.
  intros Hm. unfold binary_round_aux, shr_fexp.
  pose proof (shr_nonneg (shr_record_of_loc m l) e
                (fexp prec emax (Zdigits2 m + e) - e)) as H1.
  rewrite shr_record_of_loc_m in H1. specialize (H1 Hm).
  destruct (shr (shr_record_of_loc m l) e (fexp prec emax (Zdigits2 m + e) - e)) as [mrs e'].
  cbn [fst] in H1.
  pose proof (round_nearest_even_nonneg (shr_m mrs) (loc_of_shr_record mrs) H1) as H2.
  pose proof (shr_nonneg
                (shr_record_of_loc (round_nearest_even (shr_m mrs) (loc_of_shr_record mrs))
                   loc_Exact) e'
                (fexp prec emax
                   (Zdigits2 (round_nearest_even (shr_m mrs) (loc_of_shr_record mrs)) + e') - e'))
    as H3.
  rewrite shr_record_of_loc_m in H3. specialize (H3 H2).
  destruct (shr _ e' _) as [mrs' e''].
  cbn [fst] in H3. destruct (shr_m mrs'); try lia; [reflexivity|].
  destruct (_ <=? _); reflexivity.
Qed.

(** A product with a finite, non-zero number is NaN only if the other
    factor is. *)
Lemma mul_finite_not_NaN (x : Number) (s : bool) (m : positive) (e : Z) :
  isNaN x = false -> isNaN (mul x (S754_finite s m e)) = false.
Proof.
  intros Hx. destruct x as [sx|sx| |sx mx ex]; try discriminate; try reflexivity.
  unfold mul. cbn [SFmul]. apply binary_round_aux_not_NaN. lia.
Qed.

End NumberFacts.

(** ** More on the view *)

Section ElevationTheorems.

Import Globe JSArith GlobeView.

(** X6. Only the hovered point is raised.  Without a hovered event, or for
    no event, the elevation is 0; of two events with different ids at most
    one has an elevation other than 0; and the hovered event, whatever its
    magnitude (null included), is raised by at least 0.02. *)
Theorem elevation_only_when_hovered (hovered : Earthquake) :
  (forall eq, getElevation None eq = ofZ 0) /\
  (forall h, getElevation h None = ofZ 0) /\
  (forall e1 e2 : Earthquake,
     id e1 <> id e2 ->
     getElevation (Some hovered) (Some e1) = ofZ 0 \/
     getElevation (Some hovered) (Some e2) = ofZ 0) /\
  (forall eq : Earthquake,
     id eq = id hovered ->
     isNaN (ToNumber (magnitude eq)) = false ->
     (decimal 2 100 <= getElevation (Some hovered) (Some eq))%js = true).
Proof.
  split; [intros [eq|]; reflexivity|]. split; [intros h; reflexivity|]. split.
  - intros e1 e2 Hne. cbn [getElevation].
    destruct (String.eqb_spec (id hovered) (id e1)) as [E1|E1]; [|left; reflexivity].
    destruct (String.eqb_spec (id hovered) (id e2)) as [E2|E2]; [|right; reflexivity].
    congruence.
  - intros eq Hid Hm. cbn [getElevation]. rewrite Hid, String.eqb_refl.
    apply Math_max_spec; [reflexivity|].
    change (decimal 2 100) with (S754_finite false 5764607523034235 (-58)).
    apply mul_finite_not_NaN, Hm.
Qed.

End ElevationTheorems.

Section StatisticsTheorems.

Import Globe JSArith GlobeView.

Variable toFixed1 : Number -> string.

Lemma le_minusInfinity (x : Number) : le x minusInfinity = true -> x = minusInfinity.
Proof. destruct x as [[]|[]| |[] m e]; simpl; intros H; try discriminate H; reflexivity. Qed.

Lemma le_plusInfinity (x : Number) : le plusInfinity x = true -> x = plusInfinity.
Proof. destruct x as [[]|[]| |[] m e]; simpl; intros H; try discriminate H; reflexivity. Qed.

Lemma fold_max_spec (l : list Nullable) (start : Number) :
  isNaN start = false ->
  Forall (fun v => isNaN (ToNumber v) = false) l ->
  let highest := fold_left (fun h v => Math_max h (ToNumber v)) l start in
  isNaN highest = false /\
  (highest = start \/ exists v, v ∈ l /\ highest = ToNumber v) /\
  le start highest = true /\
  Forall (fun v => le (ToNumber v) highest = true) l.
Proof.
  revert start. induction l as [|a l IH]; intros start Hs Hl; cbn [fold_left].
  - repeat split; [exact Hs | left; reflexivity | apply le_refl, Hs | constructor].
  - inversion Hl as [|? ? Ha Hl']; subst.
    destruct (Math_max_spec start (ToNumber a) Hs Ha) as (Hcase & Hle1 & Hle2).
    pose proof (Math_max_not_NaN start (ToNumber a) Hs Ha) as Hn.
    destruct (IH (Math_max start (ToNumber a)) Hn Hl') as (Hr & Hwho & Hle & Hall).
    split; [exact Hr|]. split; [|split].
    + destruct Hwho as [E|(v & Hv & E)].
      * rewrite E. destruct Hcase as [->| ->]; [left; reflexivity|].
        right. exists a. split; [left | reflexivity].
      * right. exists v. split; [right; exact Hv | exact E].
    + eapply le_trans; eassumption.
    + constructor; [eapply le_trans; eassumption | exact Hall].
Qed.

Lemma fold_min_spec (l : list Nullable) (start : Number) :
  isNaN start = false ->
  Forall (fun v => isNaN (ToNumber v) = false) l ->
  let lowest := fold_left (fun h v => Math_min h (ToNumber v)) l start in
  isNaN lowest = false /\
  (lowest = start \/ exists v, v ∈ l /\ lowest = ToNumber v) /\
  le lowest start = true /\
  Forall (fun v => le lowest (ToNumber v) = true) l.
Proof.
  revert start. induction l as [|a l IH]; intros start Hs Hl; cbn [fold_left].
  - repeat split; [exact Hs | left; reflexivity | apply le_refl, Hs | constructor].
  - inversion Hl as [|? ? Ha Hl']; subst.
    destruct (Math_min_spec start (ToNumber a) Hs Ha) as (Hn & Hcase & Hle1 & Hle2).
    destruct (IH (Math_min start (ToNumber a)) Hn Hl') as (Hr & Hwho & Hle & Hall).
    split; [exact Hr|]. split; [|split].
    + destruct Hwho as [E|(v & Hv & E)].
      * rewrite E. destruct Hcase as [->| ->]; [left; reflexivity|].
        right. exists a. split; [left | reflexivity].
      * right. exists v. split; [right; exact Hv | exact E].
    + eapply le_trans; eassumption.
    + constructor; [eapply le_trans; eassumption | exact Hall].
Qed.

Lemma filter_length_le {A} (f : A -> bool) (l : list A) :
  (length (List.filter f l) <= length l)%nat.
Proof. induction l as [|a l IH]; simpl; [lia|]. destruct (f a); simpl; lia. Qed.

(** X7. The statistics are absent exactly for an empty display.  Otherwise
    the total is the number of displayed events, the count of the last 24
    hours is at most the total, and, when every displayed magnitude is a
    number (null counts as 0), the maximum and the minimum shown are the
    renderings of the magnitudes of two displayed events, the first at least
    as large and the second at most as large as every displayed
    magnitude. *)
Theorem statistics_of_display (now : Z) (display : list Earthquake) :
  (getStatistics toFixed1 now display = None <-> display = []) /\
  (forall s,
     getStatistics toFixed1 now display = Some s ->
     total s = length display /\
     (last24h s <= total s)%nat /\
     (Forall (fun eq : Earthquake => isNaN (ToNumber (magnitude eq)) = false) display ->
      exists hi lo : Earthquake,
        hi ∈ display /\ lo ∈ display /\
        GlobeView.maxMagnitude s = toFixed1 (ToNumber (magnitude hi)) /\
        GlobeView.minMagnitude s = toFixed1 (ToNumber (magnitude lo)) /\
        Forall (fun eq : Earthquake =>
                  (ToNumber (magnitude eq) <= ToNumber (magnitude hi))%js = true /\
                  (ToNumber (magnitude lo) <= ToNumber (magnitude eq))%js = true) display)).
Proof.
  unfold getStatistics. destruct display as [|first rest].
  - split; [split; reflexivity | intros s H; discriminate H].
  - split; [split; intros H; discriminate H|].
    intros s H. cbn [length Nat.eqb] in H. injection H as <-. cbn [total last24h].
    split; [reflexivity|]. split; [apply (filter_length_le (isRecent now) (first :: rest))|].
    intros Hnum. set (display := first :: rest) in *.
    cbn [GlobeView.maxMagnitude GlobeView.minMagnitude].
    assert (Forall (fun v => isNaN (ToNumber v) = false)
              (map (fun eq : Earthquake => magnitude eq) display)) as Hnum'.
    { apply Forall_map. exact Hnum. }
    destruct (fold_max_spec _ minusInfinity eq_refl Hnum') as (_ & Hhi & _ & Hmax).
    destruct (fold_min_spec _ plusInfinity eq_refl Hnum') as (_ & Hlo & _ & Hmin).
    fold (Math_max_all (map (fun eq : Earthquake => magnitude eq) display)) in Hhi, Hmax.
    fold (Math_min_all (map (fun eq : Earthquake => magnitude eq) display)) in Hlo, Hmin.
    rewrite Forall_map in Hmax, Hmin.
    assert (exists hi : Earthquake, hi ∈ display /\
              Math_max_all (map (fun eq : Earthquake => magnitude eq) display)
                = ToNumber (magnitude hi)) as (hi & Hhin & Ehi).
    { destruct Hhi as [E|(v & Hv & E)].
      - exists first. split; [left|]. rewrite E. symmetry. apply le_minusInfinity.
        rewrite <- E. inversion Hmax; assumption.
      - apply list_elem_of_fmap in Hv as (eq & -> & Heq). exists eq. split; assumption. }
    assert (exists lo : Earthquake, lo ∈ display /\
              Math_min_all (map (fun eq : Earthquake => magnitude eq) display)
                = ToNumber (magnitude lo)) as (lo & Hlin & Elo).
    { destruct Hlo as [E|(v & Hv & E)].
      - exists first. split; [left|]. rewrite E. symmetry. apply le_plusInfinity.
        rewrite <- E. inversion Hmin; assumption.
      - apply list_elem_of_fmap in Hv as (eq & -> & Heq). exists eq. split; assumption. }
    exists hi, lo. split; [exact Hhin|]. split; [exact Hlin|].
    split; [exact (f_equal toFixed1 Ehi)|]. split; [exact (f_equal toFixed1 Elo)|].
    rewrite Ehi in Hmax. rewrite Elo in Hmin.
    rewrite Forall_forall in *. intros eq Hin. split; [apply Hmax | apply Hmin]; exact Hin.
Qed.

End StatisticsTheorems.

Section TimerTheorems.

Import Globe GlobeView.

Lemma ticks_S (n : nat) (i : Interval) (v : View) :
  ticks (S n) i v = animate i (ticks n i v).
Proof. revert v. induction n as [|n IH]; intros v; [reflexivity|]. cbn [ticks] in *. apply IH. Qed.

Lemma ticks_running (i : Interval) (v : View) (k : nat) :
  (animationIndex v + k < length (captured i))%nat ->
  ticks k i v = {|
    filteredEarthquakes := filteredEarthquakes v;
    isAnimating := isAnimating v;
    animationIndex := animationIndex v + k;
    animationRef := animationRef v;
    intervals := intervals v;
    nextHandle := nextHandle v
  |}.
Proof.
  induction k as [|k IH]; intros Hk.
  - cbn [ticks]. rewrite Nat.add_0_r. destruct v; reflexivity.
  - rewrite ticks_S, IH by lia. unfold animate. cbn [animationIndex].
    destruct (Nat.leb_spec (length (captured i)) (S (animationIndex v + k))) as [H|H]; [lia|].
    cbn. f_equal. lia.
Qed.

(** X8. The frames of the reveal, when only the new interval fires (an
    older interval that is still scheduled advances the index as well).
    After [startAnimation] on a non-empty list of [n] events, the [k]-th
    firing of the new interval, for [k < n], leaves the first [k] events of
    the list then on display (none at the start, never all [n] of them), and
    the [n]-th firing ends the animation: the whole list is shown, the index
    is back at 0, and the interval is still scheduled.  [n] is the length of
    the list the animation was started on, also when the filters have
    changed the list since. *)
Theorem animation_frames (v : View) (shown : list Earthquake) :
  filteredEarthquakes v <> [] ->
  let i := {| handle := nextHandle v; captured := filteredEarthquakes v |} in
  let started := setFilteredEarthquakes shown (startAnimation v) in
  let finished := ticks (length (filteredEarthquakes v)) i started in
  (forall k, (k < length (filteredEarthquakes v))%nat ->
     isAnimating (ticks k i started) = true /\
     displayEarthquakes (ticks k i started) = take k shown) /\
  isAnimating finished = false /\
  animationIndex finished = 0%nat /\
  displayEarthquakes finished = shown /\
  i ∈ intervals finished.
Proof.
  intros Hne i started finished.
  assert (0 < length (filteredEarthquakes v))%nat as Hlen.
  { destruct (filteredEarthquakes v); [congruence | simpl; lia]. }
  assert (started = {|
    filteredEarthquakes := shown; isAnimating := true; animationIndex := 0;
    animationRef := Some (nextHandle v); intervals := i :: intervals v;
    nextHandle := S (nextHandle v) |}) as Es.
  { unfold started, startAnimation.
    destruct (Nat.eqb_spec (length (filteredEarthquakes v)) 0) as [E|_]; [lia | reflexivity]. }
  assert (forall k, (k < length (filteredEarthquakes v))%nat ->
     ticks k i started = {|
       filteredEarthquakes := shown; isAnimating := true; animationIndex := k;
       animationRef := Some (nextHandle v); intervals := i :: intervals v;
       nextHandle := S (nextHandle v) |}) as Hrun.
  { intros k Hk. rewrite ticks_running by (rewrite Es; cbn; lia). rewrite Es. reflexivity. }
  split.
  - intros k Hk. rewrite (Hrun k Hk). split; reflexivity.
  - unfold finished. destruct (length (filteredEarthquakes v)) as [|n] eqn:En; [lia|].
    rewrite ticks_S, (Hrun n) by lia. unfold animate. cbn [animationIndex captured i].
    rewrite En, Nat.leb_refl. cbn. repeat split. left.
Qed.

Lemma fresh_mounted (filtered : list Earthquake) : fresh (mounted filtered).
Proof.
  split; cbn.
  - intros i Hi. inversion Hi.
  - intros h Hh. discriminate Hh.
Qed.

Lemma elem_of_clearInterval (h : option nat) (l : list Interval) (i : Interval) :
  i ∈ clearInterval h l -> i ∈ l.
Proof. intros Hi. eapply elem_of_sublist; [exact Hi | apply clearInterval_sublist]. Qed.

Lemma fresh_step (v v' : View) : step v v' -> fresh v -> fresh v'.
Proof.
  intros Hs [Hi Hr]. destruct Hs as [v v' Ht | v filtered].
  - destruct Ht as [v | v i Hin | v].
    + unfold startAnimation. destruct (Nat.eqb _ 0); [split; assumption|].
      split; cbn.
      * intros i Hin. apply elem_of_cons in Hin as [-> | Hin]; [cbn; lia|].
        specialize (Hi i Hin). lia.
      * intros h Hh. injection Hh as <-. lia.
    + unfold animate. destruct (Nat.leb _ _); split; cbn; assumption.
    + split; cbn; [|assumption].
      intros i Hin. apply Hi. eapply elem_of_clearInterval, Hin.
  - split; cbn; assumption.
Qed.

Lemma fresh_reachable (v v' : View) : rtc step v v' -> fresh v -> fresh v'.
Proof. induction 1 as [|v w v' Hs _ IH]; intros Hf; [exact Hf|]. apply IH. eapply fresh_step; eassumption. Qed.

Lemma clearInterval_keeps (h : nat) (l : list Interval) (i : Interval) :
  i ∈ l -> handle i <> h -> i ∈ clearInterval (Some h) l.
Proof.
  intros Hin Hne. cbn [clearInterval]. apply elem_of_filter. split; [exact Hin|].
  destruct (Nat.eqb_spec (handle i) h); [contradiction | reflexivity].
Qed.

Lemma superseded_step (v v' : View) (i : Interval) :
  step v v' -> fresh v -> superseded v i -> superseded v' i.
Proof.
  intros Hs [Hi Hr] (Hin & h & Hh & Hlt). destruct Hs as [v v' Ht | v filtered].
  - destruct Ht as [v | v j Hj | v].
    + unfold startAnimation. destruct (Nat.eqb _ 0); [split; [assumption | eauto]|].
      split; cbn; [right; exact Hin|].
      exists (nextHandle v). split; [reflexivity|]. specialize (Hi i Hin). lia.
    + unfold animate. destruct (Nat.leb _ _); (split; cbn; [assumption | eauto]).
    + split; cbn; [|eauto]. rewrite Hh. apply clearInterval_keeps; [exact Hin | lia].
  - split; cbn; [assumption | eauto].
Qed.

Lemma superseded_unmount (v : View) (i : Interval) : superseded v i -> i ∈ unmount v.
Proof.
  intros (Hin & h & Hh & Hlt). unfold unmount. rewrite Hh.
  destruct h as [|h]; [exact Hin|]. apply clearInterval_keeps; [exact Hin | lia].
Qed.

(** X9. An interval that a later [startAnimation] has replaced in
    [animationRef] is never cleared: whatever happens to the view afterwards
    (starting, stopping, firings, new filters), it stays scheduled, and the
    cleanup on unmount leaves it scheduled too. *)
Theorem superseded_interval_never_cleared
    (filtered : list Earthquake) (v v' : View) (i : Interval) :
  rtc step (mounted filtered) v ->
  superseded v i ->
  rtc step v v' ->
  i ∈ intervals v' /\ i ∈ unmount v'.
Proof.
  intros Hreach Hsup Hlater.
  pose proof (fresh_reachable _ _ Hreach (fresh_mounted filtered)) as Hf.
  assert (superseded v' i) as H'.
  { clear Hreach. induction Hlater as [|v w v' Hs _ IH]; [exact Hsup|].
    apply IH; [eapply superseded_step | eapply fresh_step]; eassumption. }
  split; [apply H' | apply superseded_unmount, H'].
Qed.

End TimerTheorems.

Section QuickFilterTheorems.

Import Globe GlobeView.

Variable toLowerCase : string -> string.
Variable Date_parse : string -> Number.

(** With the minimum raised to 6 the callback returns whenever it did
    before, and keeps only what it kept before. *)
Lemma keeps_majorOnly (filters : Filters) (eq : Earthquake) (kept : bool) :
  (Globe.minMagnitude filters <= ofZ 6)%js = true ->
  keeps toLowerCase Date_parse filters eq = Some kept ->
  exists kept',
    keeps toLowerCase Date_parse (majorOnly filters) eq = Some kept' /\
    (kept' = true -> kept = true).
Proof.
  intros Hmin. unfold keeps. cbn [majorOnly Globe.minMagnitude Globe.maxMagnitude
    startDate endDate region searchTerm].
  destruct (ToNumber (magnitude eq) < Globe.minMagnitude filters)%js eqn:Hlt.
  - rewrite (lt_le_trans _ _ _ Hlt Hmin). cbn [orb]. intros _.
    exists false. split; [reflexivity | discriminate].
  - destruct (ToNumber (magnitude eq) < ofZ 6)%js; cbn [orb].
    + intros _. exists false. split; [reflexivity | discriminate].
    + intros H. exists kept. split; [exact H | tauto].
Qed.

(** X10. The quick filter "Major 6.0+" narrows: when the minimum magnitude
    in force is at most 6 and the filter pass returned a list before it, the
    pass returns after it too, the events then kept are among the events
    kept before, in the same order, and they are what the pass gives when
    run on the events kept before. *)
Theorem major_quick_filter_narrows
    (earthquakes before : list Earthquake) (filters : Filters) :
  (Globe.minMagnitude filters <= ofZ 6)%js = true ->
  applyFilters toLowerCase Date_parse earthquakes filters = Some before ->
  exists after,
    applyFilters toLowerCase Date_parse earthquakes (majorOnly filters) = Some after /\
    sublist after before /\
    applyFilters toLowerCase Date_parse before (majorOnly filters) = Some after.
Proof.
  unfold applyFilters. intros Hmin.
  revert before. induction earthquakes as [|a l IH]; intros before H.
  - injection H as <-. exists []. repeat split. constructor.
  - apply filterM_cons in H as (kept & rest & Hk & Hr & ->).
    destruct (IH rest Hr) as (after & Hl & Hsub & Hrest).
    destruct (keeps_majorOnly filters a kept Hmin Hk) as (kept' & Hk' & Himp).
    exists (if kept' then a :: after else after). split; [|split].
    + cbn [filterM]. rewrite Hk', Hl. reflexivity.
    + destruct kept'.
      * rewrite (Himp eq_refl). apply sublist_skip, Hsub.
      * destruct kept; [apply sublist_cons|]; exact Hsub.
    + destruct kept'.
      * rewrite (Himp eq_refl). cbn [filterM]. rewrite Hk', Hrest. reflexivity.
      * destruct kept; [|exact Hrest]. cbn [filterM]. rewrite Hk', Hrest. reflexivity.
Qed.

End QuickFilterTheorems.

Section LoadingTheorems.

Import Globe GlobeView.

Variable nullReadMessage : string.

Lemma fetch_error (a : Answer) (s : Loading) :
  error (fetchEarthquakes nullReadMessage a s) = None <-> error s = None /\ listed a.
Proof.
  unfold listed. destruct a as [m|status payload]; cbn [fetchEarthquakes].
  - split; [intros H; discriminate H | intros (_ & ? & ? & H & _); discriminate H].
  - destruct (Proxy.ok status) eqn:Hok; cbn [negb].
    + destruct payload; cbn [error failed];
        (split; [intros H; try discriminate H | intros (Hs & st & ev & H & _); try discriminate H]).
      * split; [exact H | eauto].
      * exact Hs.
    + cbn [error failed]. split; [intros H; discriminate H|].
      intros (_ & st & ev & H & Hok'). injection H as -> _. congruence.
Qed.

Lemma fetch_dataLoaded (a : Answer) (s : Loading) :
  dataLoaded (fetchEarthquakes nullReadMessage a s) = false <->
  dataLoaded s = false /\ unstructured a.
Proof.
  unfold unstructured. destruct a as [m|status payload]; cbn [fetchEarthquakes].
  - split; [intros H; discriminate H | intros (_ & ? & H & _); discriminate H].
  - destruct (Proxy.ok status) eqn:Hok; cbn [negb].
    + destruct payload; cbn [dataLoaded failed];
        (split; [intros H; try discriminate H | intros (Hs & st & H & _); try discriminate H]).
      * split; [exact H | eauto].
      * exact Hs.
    + cbn [dataLoaded failed]. split; [intros H; discriminate H|].
      intros (_ & st & H & Hok'). injection H as -> _. congruence.
Qed.

(** X11. The state after a series of fetches, from the state the component
    mounts with.  The error is sticky: it is unset exactly when every answer
    was a success carrying an event list; one answer of any other kind
    leaves an error that no later answer removes.  And [dataLoaded] is
    still false exactly when every answer was a success without an event
    list: such an answer reports an error and leaves the data marked as not
    loaded. *)
Theorem state_after_fetches (answers : list Answer) :
  let s := fold_left (fun s a => fetchEarthquakes nullReadMessage a s) answers notLoaded in
  (error s = None <-> Forall listed answers) /\
  (dataLoaded s = false <-> Forall unstructured answers).
Proof.
  cbv zeta.
  assert (forall s,
    let s' := fold_left (fun s a => fetchEarthquakes nullReadMessage a s) answers s in
    (error s' = None <-> error s = None /\ Forall listed answers) /\
    (dataLoaded s' = false <-> dataLoaded s = false /\ Forall unstructured answers)) as H.
  { induction answers as [|a l IH]; intros s; cbn [fold_left].
    - split; (split; [intros H; split; [exact H | constructor] | intros [H _]; exact H]).
    - destruct (IH (fetchEarthquakes nullReadMessage a s)) as [He Hd].
      split.
      + rewrite He, fetch_error, Forall_cons. tauto.
      + rewrite Hd, fetch_dataLoaded, Forall_cons. tauto. }
  destruct (H notLoaded) as [He Hd]. cbn [error dataLoaded notLoaded] in He, Hd.
  split; [rewrite He | rewrite Hd]; tauto.
Qed.

Variable engineMessage : Proxy.Thrown -> string.
Variable Date_parse : Proxy.value -> TimeValue.

(** X12. What the user sees of a failure of the proxy.  Whenever the proxy
    replies with a failure body, the view that receives the reply's status
    reports "Failed to fetch earthquake data: HTTP error! status: 500",
    marks the data as loaded and keeps the events it had; the [details] the
    proxy sends, and the body as a whole, play no part. *)
Theorem proxy_failure_as_shown
    (u : Proxy.Upstream) (err details : string) (payload : Payload) (s : Loading) :
  Proxy.body (Proxy.respond engineMessage Date_parse u) = Proxy.failure err details ->
  fetchEarthquakes nullReadMessage
      (answered (Proxy.statusCode (Proxy.respond engineMessage Date_parse u)) payload) s
    = {| earthquakes := earthquakes s;
         dataLoaded := true;
         error := Some "Failed to fetch earthquake data: HTTP error! status: 500" |}.
Proof.
  intros Hbody.
  destruct (respond_reply engineMessage Date_parse u)
    as [(events & metadata & E) | (d & E)]; rewrite E in *.
  - discriminate Hbody.
  - reflexivity.
Qed.

End LoadingTheorems.

(** ** Integers as numbers *)

Section IntegerFacts.

Import Rounding.

Lemma digits2_unique (m : positive) (d : Z) :
  2 ^ (d - 1) <= Z.pos m < 2 ^ d -> 0 < d -> Z.pos (digits2_pos m) = d.
Proof.
  intros [Hlo Hhi] Hd. pose proof (digits2_bounds m) as [Hlo' Hhi'].
  set (D := Z.pos (digits2_pos m)) in *.
  destruct (Z.lt_trichotomy D d) as [H|[H|H]]; [exfalso| exact H |exfalso].
  - assert (2 ^ D <= 2 ^ (d - 1)) by (apply Z.pow_le_mono_r; lia). lia.
  - assert (2 ^ d <= 2 ^ (D - 1)) by (apply Z.pow_le_mono_r; lia). lia.
Qed.

Lemma binary_round_aux_exact (m : positive) (e : Z) :
  4503599627370496 <= Z.pos m < 9007199254740992 ->
  -1074 <= e <= 971 ->
  binary_round_aux prec emax false (Z.pos m) e loc_Exact = S754_finite false m e.
Proof.
  intros Hm He.
  assert (Z.pos (digits2_pos m) = 53) as Hd by (apply digits2_unique; [exact Hm | lia]).
  assert (shr_fexp prec emax (Z.pos m) e loc_Exact =
          ({| shr_m := Z.pos m; shr_r := false; shr_s := false |}, e)) as H1.
  { unfold shr_fexp. cbn [Zdigits2 shr_record_of_loc]. rewrite Hd, fexp_eq.
    apply shr_nonpositive. lia. }
  unfold binary_round_aux. rewrite H1. cbn [shr_m loc_of_shr_record round_nearest_even].
  rewrite H1. cbn [shr_m].
  destruct (Z.leb_spec e (emax - prec)) as [_|H]; [reflexivity|]. unfold emax, prec in H. lia.
Qed.

Lemma iter_xO (p k : positive) : Z.pos (Pos.iter xO p k) = Z.pos p * 2 ^ Z.pos k.
Proof.
  induction k as [|k IH] using Pos.peano_ind.
  - cbn [Pos.iter]. lia.
  - rewrite Pos.iter_succ, Pos2Z.inj_xO, IH, Pos2Z.inj_succ, Z.pow_succ_r by lia. lia.
Qed.

(** A positive integer below 2^53 is a number: its mantissa is the integer
    shifted to 53 bits. *)
Lemma ofZ_pos (p : positive) :
  Z.pos p < 9007199254740992 ->
  exists (m : positive) (k : Z),
    ofZ (Z.pos p) = S754_finite false m (- k) /\
    0 <= k <= 52 /\
    Z.pos m = Z.pos p * 2 ^ k /\
    4503599627370496 <= Z.pos m < 9007199254740992.
Proof.
  intros Hp. unfold ofZ, binary_normalize, binary_round, shl_align.
  pose proof (digits2_bounds p) as [Hlo Hhi].
  pose proof (Zdigits2_small (Z.pos p) ltac:(change (2 ^ 53) with 9007199254740992; lia)) as Hd.
  cbn [Zdigits2] in Hd. set (d := Z.pos (digits2_pos p)) in *.
  assert (0 < d) as Hd0 by (unfold d; lia).
  rewrite Z.add_0_r, fexp_eq, Z.sub_0_r.
  replace (Z.max (d - 53) (-1074)) with (d - 53) by lia.
  assert (2 ^ (d - 1) * 2 ^ (53 - d) = 4503599627370496) as E1.
  { rewrite <- Z.pow_add_r by lia. replace (d - 1 + (53 - d)) with 52 by lia. reflexivity. }
  assert (2 ^ d * 2 ^ (53 - d) = 9007199254740992) as E2.
  { rewrite <- Z.pow_add_r by lia. replace (d + (53 - d)) with 53 by lia. reflexivity. }
  assert (0 < 2 ^ (53 - d)) as Hpow by (apply Z.pow_pos_nonneg; lia).
  destruct (d - 53) as [|q|q] eqn:Eq; [|lia|].
  - assert (d = 53) as E by lia. rewrite E in *. change (2 ^ (53 - 53)) with 1 in *.
    exists p, 0. rewrite Z.mul_1_r in *.
    split; [apply binary_round_aux_exact; lia|]. change (2 ^ 0) with 1. lia.
  - assert (Z.pos q = 53 - d) as Ek by lia.
    pose proof (iter_xO p q) as Hm. rewrite Ek in Hm.
    exists (Pos.iter xO p q), (53 - d).
    assert (4503599627370496 <= Z.pos (Pos.iter xO p q) < 9007199254740992) as Hr.
    { rewrite Hm. split.
      - rewrite <- E1. apply Z.mul_le_mono_nonneg_r; lia.
      - rewrite <- E2. apply Z.mul_lt_mono_pos_r; lia. }
    split; [|split; [lia | split; [exact Hm | exact Hr]]].
    replace (- (53 - d)) with (Z.neg q) by lia.
    apply binary_round_aux_exact; [exact Hr | lia].
Qed.

(** Reading an integer below 2^53 back from the number gives the integer. *)
Lemma truncate_ofZ (z : Z) :
  0 <= z < 9007199254740992 -> truncate (ofZ z) = Some z.
Proof.
  intros Hz. destruct z as [|p|p]; [reflexivity | | lia].
  destruct (ofZ_pos p ltac:(lia)) as (m & k & -> & Hk & Hm & _).
  cbn [truncate]. f_equal.
  assert (0 < 2 ^ k) as Hpow by (apply Z.pow_pos_nonneg; lia).
  destruct (Z.leb_spec 0 (- k)) as [H|H].
  - assert (k = 0) as -> by lia. change (- 0) with 0. change (2 ^ 0) with 1 in *. lia.
  - rewrite Z.opp_involutive, Hm. apply Z.div_mul. lia.
Qed.

(** On the integers from 0 to 2^53, the order of the numbers is the order
    of the integers. *)
Lemma ofZ_lt (a b : Z) :
  0 <= a -> a < b -> b < 9007199254740992 -> (ofZ a < ofZ b)%js = true.
Proof.
  intros Ha Hab Hb. destruct b as [|pb|pb]; try lia.
  destruct (ofZ_pos pb Hb) as (mb & kb & Eb & Hkb & Hmb & Hrb). rewrite Eb.
  destruct a as [|pa|pa]; [reflexivity | | lia].
  destruct (ofZ_pos pa ltac:(lia)) as (ma & ka & Ea & Hka & Hma & Hra). rewrite Ea.
  unfold lt, SFltb. cbn [SFcompare].
  assert (0 < 2 ^ ka) as Hpa by (apply Z.pow_pos_nonneg; lia).
  assert (0 < 2 ^ kb) as Hpb by (apply Z.pow_pos_nonneg; lia).
  destruct (Z.compare_spec (- ka) (- kb)) as [E|L|G].
  - assert (ka = kb) as -> by lia.
    assert (Z.pos ma < Z.pos mb) as Hlt by (rewrite Hma, Hmb; apply Z.mul_lt_mono_pos_r; lia).
    rewrite Pos.compare_cont_spec. cbn [Pos.switch_Eq].
    apply Pos.compare_lt_iff in Hlt. rewrite Hlt. reflexivity.
  - reflexivity.
  - exfalso.
    assert (2 ^ kb = 2 ^ (kb - ka) * 2 ^ ka) as E
      by (rewrite <- Z.pow_add_r by lia; f_equal; lia).
    assert (2 <= 2 ^ (kb - ka)) as H2.
    { change 2 with (2 ^ 1) at 1. apply Z.pow_le_mono_r; lia. }
    assert (Z.pos pa * 2 ^ ka < Z.pos pb * 2 ^ ka) as H3 by (apply Z.mul_lt_mono_pos_r; lia).
    assert (Z.pos pb * 2 ^ ka * 2 <= Z.pos pb * 2 ^ ka * 2 ^ (kb - ka)) as H4
      by (apply Z.mul_le_mono_nonneg_l; lia).
    rewrite E in Hmb. lia.
Qed.

(** [new Date(t)] of an integral time in range compares by [t]. *)
Lemma Date_ofNumber_ofZ (t : Z) :
  0 <= t <= 8640000000000000 -> Date_ofNumber (ofZ t) = ofZ t.
Proof.
  intros Ht. unfold Date_ofNumber, TimeClip. rewrite truncate_ofZ by lia.
  unfold clip. destruct (Z.leb_spec (Z.abs t) 8640000000000000) as [_|H]; [reflexivity | lia].
Qed.

End IntegerFacts.

Section DateRangeTheorems.

Import Globe GlobeView.

Variable LocalTZA : Z -> bool -> Z.
Variable toLowerCase : string -> string.
Variable Date_parse : string -> Number.

Lemma isoDate_nonempty (t : Z) : isoDate t <> "".
Proof.
  intros H. apply (f_equal String.length) in H. unfold isoDate in H.
  rewrite !length_app, !length_padded in H. cbn [String.length] in H. lia.
Qed.

Lemma getDefaultDateRange_end (now : Z) (range : DateRange) :
  getDefaultDateRange LocalTZA now = Some range -> end' range = isoDate now.
Proof.
  unfold getDefaultDateRange. destruct (clip now) as [t|] eqn:Ec.
  - assert (t = now) as ->.
    { unfold clip in Ec. destruct (_ <=? _); [congruence | discriminate Ec]. }
    destruct (toISOString (setDate _ _ _)) as [s|]; [|intros H; discriminate H].
    destruct (toISOString (Some now)) as [e|] eqn:Ee; [|intros H; discriminate H].
    intros H. injection H as <-. cbn [end']. apply before_T_toISOString, Ee.
  - cbn [toISOString]. intros H; discriminate H.
Qed.

Lemma keeps_after_end (filters : Filters) (eq : Earthquake) :
  JSString.truthy (endDate filters) = true ->
  (Date_ofNumber (time eq) > Date_parse (endDate filters))%js = true ->
  keeps toLowerCase Date_parse filters eq = Some false.
Proof.
  intros Ht Hgt. unfold keeps. rewrite Ht, Hgt. cbn [andb].
  destruct (_ || _)%bool; [reflexivity|]. destruct (_ && _)%bool; reflexivity.
Qed.

(** X13. The default end date hides today's events.  The end date of the
    default range is the current UTC date, and the filter pass reads it as
    the first instant of that day; so with the filters set by the
    initialising effect or by "Reset All", the callback rejects every event
    later than midnight UTC of the current day, the most recent ones
    included, and no list the pass returns holds such an event. *)
Theorem default_end_date_hides_today
    (now t : Z) (range : DateRange) (filters : Filters)
    (earthquakes : list Earthquake) (eq : Earthquake) :
  0 <= now ->
  getDefaultDateRange LocalTZA now = Some range ->
  filters = resetAll range \/ (exists prev, filters = withDefaultDates range prev) ->
  Date_parse (isoDate now) = ofZ (msPerDay * Day now) ->
  time eq = ofZ t ->
  msPerDay * Day now < t <= 8640000000000000 ->
  end' range = isoDate now /\
  keeps toLowerCase Date_parse filters eq = Some false /\
  (forall filtered,
     applyFilters toLowerCase Date_parse earthquakes filters = Some filtered ->
     eq ∉ filtered).
Proof.
  intros Hnow Hrange Hfilters Hparse Htime Ht.
  pose proof (getDefaultDateRange_end now range Hrange) as Eend.
  split; [exact Eend|].
  assert (endDate filters = isoDate now) as Ef.
  { destruct Hfilters as [-> | (prev & ->)]; exact Eend. }
  assert (0 <= msPerDay * Day now) as Hmid.
  { apply Z.mul_nonneg_nonneg; [unfold msPerDay; lia|].
    apply Z.div_pos; [exact Hnow | unfold msPerDay; lia]. }
  assert (keeps toLowerCase Date_parse filters eq = Some false) as Hk.
  { apply keeps_after_end.
    - rewrite Ef. apply truthy_nonempty, isoDate_nonempty.
    - rewrite Ef, Hparse, Htime, Date_ofNumber_ofZ by lia.
      apply ofZ_lt; lia. }
  split; [exact Hk|]. intros filtered E Hin.
  apply (elem_of_filterM _ _ _ _ E) in Hin. destruct Hin as [_ Hk']. congruence.
Qed.

End DateRangeTheorems.

Section MoreWitnesses.

Import Globe GlobeView ProxyCases Scenarios.

Lemma unreadable_feature_fails_request_witness :
  Proxy.member "features" holed = Proxy.array [Samples.tokyoFeature; Proxy.null] /\
  Proxy.null ∈ [Samples.tokyoFeature; Proxy.null] /\
  unreadable (fun _ => None) Proxy.null /\
  exists details,
    Proxy.respond (fun _ => "") (fun _ => None)
      (Proxy.fetch_resolved 200 (Proxy.returned (Proxy.object holed))) =
    {| Proxy.statusCode := 500;
       Proxy.body := Proxy.failure "Failed to fetch earthquake data" details |}.
Proof.
  assert (Proxy.member "features" holed = Proxy.array [Samples.tokyoFeature; Proxy.null])
    as H1 by reflexivity.
  assert (Proxy.null ∈ [Samples.tokyoFeature; Proxy.null]) as H2 by (right; left).
  assert (unreadable (fun _ => None) Proxy.null) as H3 by (left; reflexivity).
  split; [exact H1|]. split; [exact H2|]. split; [exact H3|].
  exact (unreadable_feature_fails_request (fun _ => "") (fun _ => None) _ _ _ 200 H1 H2 H3).
Defined.

Lemma one_request_per_call_witness :
  Z.abs clock <= 8600000000000000 /\
  withinADay Samples.utc /\
  convertible Samples.noQuery /\
  (exists params,
     Proxy.buildParams Samples.utc Samples.noQuery clock = Proxy.returned params /\
     Proxy.run (Proxy.handler Samples.utc (fun _ => "") (fun _ => None) Samples.noQuery clock)
       down
       = (Proxy.respond (fun _ => "") (fun _ => None) (down (Proxy.upstreamRequest params)),
          [Proxy.upstreamRequest params])) /\
  ~ convertible Samples.objectStart /\
  Proxy.run (Proxy.handler Samples.utc (fun _ => "") (fun _ => None) Samples.objectStart clock)
    down
    = ({| Proxy.statusCode := 500;
          Proxy.body := Proxy.failure "Failed to fetch earthquake data" "" |}, []).
Proof.
  assert (Z.abs clock <= 8600000000000000) as H1 by (vm_compute; discriminate).
  assert (withinADay Samples.utc) as H2 by (intros t isUTC; vm_compute; discriminate).
  assert (convertible Samples.noQuery) as H3
    by (repeat constructor; eexists; reflexivity).
  assert (~ convertible Samples.objectStart) as H4.
  { intros H. apply Forall_cons in H as [_ H]. apply Forall_cons in H as [_ H].
    apply Forall_cons in H as [_ H]. apply Forall_cons in H as [[s Hs] _].
    discriminate Hs. }
  split; [exact H1|]. split; [exact H2|]. split; [exact H3|]. split.
  - exact (proj1 (one_request_per_call Samples.utc (fun _ => "") (fun _ => None)
                    Samples.noQuery clock down H1 H2) H3).
  - split; [exact H4|].
    exact (proj2 (one_request_per_call Samples.utc (fun _ => "") (fun _ => None)
                    Samples.objectStart clock down H1 H2) H4).
Defined.

Lemma starttime_overrides_clock_witness :
  Proxy.given (Proxy.starttime sinceNewYear) = true /\
  Proxy.buildParams Samples.utc sinceNewYear 0
    = Proxy.buildParams ProxySpec.easternOffset sinceNewYear clock.
Proof.
  assert (Proxy.given (Proxy.starttime sinceNewYear) = true) as H1 by reflexivity.
  split; [exact H1|].
  exact (proj1 (starttime_overrides_clock sinceNewYear H1
                  Samples.utc ProxySpec.easternOffset 0 clock)).
Defined.

Lemma animation_frames_witness :
  filteredEarthquakes single <> [] /\
  displayEarthquakes (startAnimation single) = [] /\
  displayEarthquakes played = [Samples.tokyo] /\
  firstInterval ∈ intervals played.
Proof.
  assert (filteredEarthquakes single <> []) as H by discriminate.
  split; [exact H|].
  destruct (animation_frames single [Samples.tokyo] H) as (Hrun & _ & _ & Hshown & Hin).
  split; [exact (proj2 (Hrun 0%nat (Nat.lt_0_succ 0)))|].
  split; [exact Hshown | exact Hin].
Defined.

Lemma superseded_interval_never_cleared_witness :
  rtc step single restarted /\
  superseded restarted firstInterval /\
  rtc step restarted (stopAnimation restarted) /\
  firstInterval ∈ intervals (stopAnimation restarted) /\
  firstInterval ∈ unmount (stopAnimation restarted).
Proof.
  assert (rtc step single restarted) as H1.
  { eapply rtc_l; [apply s_transition, t_start|].
    eapply rtc_l; [apply s_transition, (t_tick _ firstInterval); left|].
    apply rtc_once, s_transition, t_start. }
  assert (superseded restarted firstInterval) as H2.
  { split; [right; left|]. exists 2%nat. split; [reflexivity | vm_compute; lia]. }
  assert (rtc step restarted (stopAnimation restarted)) as H3
    by (apply rtc_once, s_transition, t_stop).
  split; [exact H1|]. split; [exact H2|]. split; [exact H3|].
  exact (superseded_interval_never_cleared [Samples.tokyo] _ _ _ H1 H2 H3).
Defined.

Lemma major_quick_filter_narrows_witness :
  (Globe.minMagnitude initialFilters <= ofZ 6)%js = true /\
  applyFilters Samples.toLowerCase Samples.Date_parse [Samples.losAngeles; Samples.tokyo]
    initialFilters = Some [Samples.losAngeles; Samples.tokyo] /\
  exists after,
    applyFilters Samples.toLowerCase Samples.Date_parse [Samples.losAngeles; Samples.tokyo]
      (majorOnly initialFilters) = Some after /\
    sublist after [Samples.losAngeles; Samples.tokyo].
Proof.
  assert ((Globe.minMagnitude initialFilters <= ofZ 6)%js = true) as H by reflexivity.
  assert (applyFilters Samples.toLowerCase Samples.Date_parse
            [Samples.losAngeles; Samples.tokyo] initialFilters
          = Some [Samples.losAngeles; Samples.tokyo]) as H' by (vm_compute; reflexivity).
  split; [exact H|]. split; [exact H'|].
  destruct (major_quick_filter_narrows Samples.toLowerCase Samples.Date_parse _ _ _ H H')
    as (after & Ha & Hsub & _).
  exists after. split; [exact Ha | exact Hsub].
Defined.

Lemma proxy_failure_as_shown_witness :
  Proxy.body (Proxy.respond (fun _ => "") (fun _ => None)
                (Proxy.fetch_resolved 503 (Proxy.thrown (Proxy.Rejected "Unexpected token"))))
    = Proxy.failure "Failed to fetch earthquake data" "USGS API responded with status 503" /\
  error (fetchEarthquakes ""
           (answered
              (Proxy.statusCode
                 (Proxy.respond (fun _ => "") (fun _ => None)
                    (Proxy.fetch_resolved 503
                       (Proxy.thrown (Proxy.Rejected "Unexpected token")))))
              without_list) notLoaded)
    = Some "Failed to fetch earthquake data: HTTP error! status: 500".
Proof.
  assert (Proxy.body (Proxy.respond (fun _ => "") (fun _ => None)
                (Proxy.fetch_resolved 503 (Proxy.thrown (Proxy.Rejected "Unexpected token"))))
    = Proxy.failure "Failed to fetch earthquake data" "USGS API responded with status 503")
    as H by reflexivity.
  split; [exact H|].
  exact (f_equal error
           (proxy_failure_as_shown "" (fun _ => "") (fun _ => None) _ _ _
              without_list notLoaded H)).
Defined.

Lemma default_end_date_hides_today_witness :
  0 <= clock /\
  getDefaultDateRange Samples.utc clock = Some defaultRange /\
  Samples.Date_parse (isoDate clock) = ofZ (msPerDay * Day clock) /\
  time Samples.tokyo = ofZ clock /\
  msPerDay * Day clock < clock <= 8640000000000000 /\
  keeps Samples.toLowerCase Samples.Date_parse
    (withDefaultDates defaultRange initialFilters) Samples.tokyo = Some false.
Proof.
  assert (0 <= clock) as H1 by (vm_compute; discriminate).
  assert (getDefaultDateRange Samples.utc clock = Some defaultRange) as H2
    by (vm_compute; reflexivity).
  assert (Samples.Date_parse (isoDate clock) = ofZ (msPerDay * Day clock)) as H3
    by (vm_compute; reflexivity).
  assert (time Samples.tokyo = ofZ clock) as H4 by reflexivity.
  assert (msPerDay * Day clock < clock <= 8640000000000000) as H5
    by (vm_compute; split; [reflexivity | discriminate]).
  split; [exact H1|]. split; [exact H2|]. split; [exact H3|]. split; [exact H4|].
  split; [exact H5|].
  exact (proj1 (proj2 (default_end_date_hides_today Samples.utc Samples.toLowerCase
                  Samples.Date_parse clock clock defaultRange
                  (withDefaultDates defaultRange initialFilters)
                  [Samples.losAngeles; Samples.tokyo] Samples.tokyo
                  H1 H2 (or_intror (ex_intro _ initialFilters eq_refl)) H3 H4 H5))).
Defined.

End MoreWitnesses.
